(** * Verification of the prefetch analyzer, the website blocker and the
      firewall functions of [main.js]

    The development embeds the pure and the state-passing parts of
    [main.js], and the parser of [prefetchParser.ts], and proves, or
    refutes on concrete inputs, the properties the specification states
    about them, then further properties of the same code.

    Conventions of the embedding:
    - a JavaScript string is a [string] whose characters are the code units
      0..255 (the hosts file and domain names are ASCII in practice);
    - a [Date] is its time value, a [Z] number of milliseconds since the
      Unix epoch; a BigInt is a [Z];
    - a promise is the pair of its settlement ([Resolve], or [Reject] with
      the message of the [Error]) and of the world it leaves; each
      operation runs atomically (no interleaving at its [await]s);
    - [throw] is the constructor [Throw] of [Exc], and [try]/[catch] is
      [tryCatch]; a validator that throws an [Error] with a message
      returns [Firewall.Invalid] with that message;
    - the environment is explicit: the elevation of the process, the hosts
      file and the failures of its reads and writes, the clock, the pending
      timeouts and the windows are fields of [Blocker.World]; the time
      zone, the probe of the running processes and the pattern match on
      the decoded buffer are fields of [Prefetch.Env]; the prefetch
      directory is a [Prefetch.Directory]; the answers of the commands
      handed to [exec] by the firewall and process functions are a field
      of [FirewallRules.Shell].

    The file has two parts: the definitions, function by function in the
    order of the source within each module, then the properties. *)

From Stdlib Require Import ZArith List String Ascii Bool Lia Arith.
From Stdlib Require Import Permutation Sorted DecimalString DecimalPos.
Import ListNotations.

Local Open Scope string_scope.
Local Open Scope list_scope.

(** ** JavaScript string primitives *)

Module JsStr.

(** The double quote, as a one-character string. *)
Definition dq : string := String (ascii_of_nat 34) "".

(** The line feed, as a character and as a one-character string. *)
Definition LF : ascii := ascii_of_nat 10.
Definition nl : string := String LF "".

(** WhiteSpace and LineTerminator code units below 256, as
    [String.prototype.trim] strips them. *)
Definition isWhiteSpace (c : ascii) : bool :=
  let n := nat_of_ascii c in
  (Nat.leb 9 n && Nat.leb n 13) || Nat.eqb n 32 || Nat.eqb n 160.

Fixpoint trimStart (s : string) : string :=
  match s with
  | "" => ""
  | String c s' => if isWhiteSpace c then trimStart s' else s
  end.

Fixpoint trimEnd (s : string) : string :=
  match s with
  | "" => ""
  | String c s' =>
      match trimEnd s' with
      | "" => if isWhiteSpace c then "" else String c ""
      | r => String c r
      end
  end.

Definition trim (s : string) : string := trimStart (trimEnd s).

(** [toLowerCase] on a code unit below 256: A-Z, and the Latin-1 capitals
    0xC0-0xDE but the multiplication sign 0xD7. *)
Definition lowerChar (c : ascii) : ascii :=
  let n := nat_of_ascii c in
  if (Nat.leb 65 n && Nat.leb n 90)
     || (Nat.leb 192 n && Nat.leb n 222 && negb (Nat.eqb n 215))
  then ascii_of_nat (n + 32) else c.

Fixpoint toLowerCase (s : string) : string :=
  match s with
  | "" => ""
  | String c s' => String (lowerChar c) (toLowerCase s')
  end.

(** [toUpperCase] on the ASCII letters (used on hexadecimal digits and on
    word-initial letters only). *)
Definition upperChar (c : ascii) : ascii :=
  let n := nat_of_ascii c in
  if Nat.leb 97 n && Nat.leb n 122 then ascii_of_nat (n - 32) else c.

(** [s.startsWith(p)], and the rest of [s] after [p]. *)
Fixpoint stripPrefix (p s : string) : option string :=
  match p, s with
  | "", _ => Some s
  | String a p', String b s' =>
      if Ascii.eqb a b then stripPrefix p' s' else None
  | String _ _, "" => None
  end.

Definition startsWith (p s : string) : bool :=
  match stripPrefix p s with Some _ => true | None => false end.

(** [s.includes(p)]. *)
Fixpoint includes (p s : string) : bool :=
  startsWith p s ||
  match s with
  | "" => false
  | String _ s' => includes p s'
  end.

(** [s.split(c)] for a one-character separator: never empty. *)
Fixpoint split (c : ascii) (s : string) : list string :=
  match s with
  | "" => [""]
  | String a s' =>
      if Ascii.eqb a c then "" :: split c s'
      else match split c s' with
           | h :: t => String a h :: t
           | [] => [String a ""]
           end
  end.

(** [l.join(sep)]. *)
Fixpoint join (sep : string) (l : list string) : string :=
  match l with
  | [] => ""
  | [x] => x
  | x :: r => x ++ sep ++ join sep r
  end.

Definition endsWith (p s : string) : bool :=
  let lp := String.length p in
  let ls := String.length s in
  Nat.leb lp ls && String.eqb (substring (ls - lp) lp s) p.

(** [hasChar c s]: the character occurs in the string. *)
Fixpoint hasChar (c : ascii) (s : string) : bool :=
  match s with
  | "" => false
  | String x s' => Ascii.eqb x c || hasChar c s'
  end.

(** A number in a template literal: the decimal digits, with a leading
    minus sign below zero. *)
Definition ofZ (z : Z) : string := NilZero.string_of_int (Z.to_int z).

Definition ofNat (n : nat) : string := ofZ (Z.of_nat n).

End JsStr.

Import JsStr.

(** ** Promises and exceptions *)

(** The settlement of a promise: [resolve(a)] or [reject(new Error(msg))]. *)
Inductive Settled (A : Type) : Type :=
| Resolve (a : A)
| Reject (msg : string).
Arguments Resolve {A} a.
Arguments Reject {A} msg.

Definition isResolved {A} (r : Settled A) : bool :=
  match r with Resolve _ => true | Reject _ => false end.

(** A computation that may throw. *)
Inductive Exc (A : Type) : Type :=
| Ret (a : A)
| Throw.
Arguments Ret {A} a.
Arguments Throw {A}.

Definition bindExc {A B} (m : Exc A) (k : A -> Exc B) : Exc B :=
  match m with Ret a => k a | Throw => Throw end.

(** [try { body } catch (e) { handler }]. *)
Definition tryCatch {A} (body handler : Exc A) : Exc A :=
  match body with Ret a => Ret a | Throw => handler end.

Notation "x <- m ;; k" := (bindExc m (fun x => k))
  (at level 61, m at next level, right associativity).

(** ** The timed website blocker *)

Module Blocker.

Local Open Scope Z_scope.
Local Open Scope string_scope.

(** An entry of [studentModeTimers]; [timeoutId] is set in the same
    synchronous block that stores the entry, so it is always present. *)
Record Timer : Type := mkTimer {
  t_websiteUrl : string;
  t_duration : string;
  t_endTime : Z;
  t_startTime : Z;
  t_timeoutId : nat
}.

(** A pending [setTimeout] callback of [blockWebsiteStudentMode]: the
    closure captured [websiteUrl]; [to_due] is the time it may fire. *)
Record Timeout : Type := mkTimeout {
  to_id : nat;
  to_url : string;
  to_due : Z
}.

(** A [webContents.send(channel, arg)] to one window. *)
Record Sent : Type := mkSent {
  s_window : nat;
  s_channel : string;
  s_arg : string
}.

(** The process and its environment.

    [faults] schedules the outcome of the coming [fs] calls on the hosts
    file, in program order: [None] lets the call succeed, [Some m] makes
    it throw an error of message [m]; past the end of the list no call
    fails.  [timers] is the [Map] [studentModeTimers], in insertion
    order.  [execLog] lists the commands handed to [exec] (their
    callbacks only log, so the outcome of a command is not observable). *)
Record World : Type := mkWorld {
  admin : bool;
  hosts : string;
  faults : list (option string);
  timers : list (string * Timer);
  pending : list Timeout;
  nextTimeoutId : nat;
  now : Z;
  windows : list nat;
  sent : list Sent;
  execLog : list string
}.

Definition setHosts (h : string) (w : World) : World :=
  mkWorld (admin w) h (faults w) (timers w) (pending w) (nextTimeoutId w)
          (now w) (windows w) (sent w) (execLog w).
Definition setFaults (f : list (option string)) (w : World) : World :=
  mkWorld (admin w) (hosts w) f (timers w) (pending w) (nextTimeoutId w)
          (now w) (windows w) (sent w) (execLog w).
Definition setTimers (t : list (string * Timer)) (w : World) : World :=
  mkWorld (admin w) (hosts w) (faults w) t (pending w) (nextTimeoutId w)
          (now w) (windows w) (sent w) (execLog w).
Definition setPending (p : list Timeout) (w : World) : World :=
  mkWorld (admin w) (hosts w) (faults w) (timers w) p (nextTimeoutId w)
          (now w) (windows w) (sent w) (execLog w).
Definition setNextTimeoutId (n : nat) (w : World) : World :=
  mkWorld (admin w) (hosts w) (faults w) (timers w) (pending w) n
          (now w) (windows w) (sent w) (execLog w).
Definition setNow (t : Z) (w : World) : World :=
  mkWorld (admin w) (hosts w) (faults w) (timers w) (pending w)
          (nextTimeoutId w) t (windows w) (sent w) (execLog w).
Definition setSent (s : list Sent) (w : World) : World :=
  mkWorld (admin w) (hosts w) (faults w) (timers w) (pending w)
          (nextTimeoutId w) (now w) (windows w) s (execLog w).
Definition setExecLog (l : list string) (w : World) : World :=
  mkWorld (admin w) (hosts w) (faults w) (timers w) (pending w)
          (nextTimeoutId w) (now w) (windows w) (sent w) l.

(** *** The environment's primitives *)

Definition isRunningAsAdmin (w : World) : bool := admin w.

(** One [fs] call on the hosts file: whether it throws, and the world
    with the schedule advanced. *)
Definition fsCall (w : World) : option string * World :=
  match faults w with
  | [] => (None, w)
  | f :: r => (f, setFaults r w)
  end.

(** [exec(command, callback)] with a callback that only logs. *)
Definition exec (command : string) (w : World) : World :=
  setExecLog (execLog w ++ [command])%list w.

(** *** [Map] operations on the registry *)

Fixpoint mapGet {V} (k : string) (m : list (string * V)) : option V :=
  match m with
  | [] => None
  | (k', v) :: r => if String.eqb k k' then Some v else mapGet k r
  end.

(** [m.set(k, v)]: an existing key keeps its place. *)
Fixpoint mapSet {V} (k : string) (v : V) (m : list (string * V))
  : list (string * V) :=
  match m with
  | [] => [(k, v)]
  | (k', v') :: r =>
      if String.eqb k k' then (k, v) :: r else (k', v') :: mapSet k v r
  end.

Fixpoint mapDelete {V} (k : string) (m : list (string * V))
  : list (string * V) :=
  match m with
  | [] => []
  | (k', v') :: r =>
      if String.eqb k k' then mapDelete k r else (k', v') :: mapDelete k r
  end.

(** [clearTimeout(id)]. *)
Definition clearTimeout (id : nat) (w : World) : World :=
  setPending (filter (fun t => negb (Nat.eqb (to_id t) id)) (pending w)) w.

(** *** URL clean-up, as the three blocking functions repeat it *)

(** [s.replace(/^https?:\/\//, '')]. *)
Definition removeScheme (s : string) : string :=
  match stripPrefix "http://" s with
  | Some r => r
  | None => match stripPrefix "https://" s with
            | Some r => r
            | None => s
            end
  end.

(** [s.replace(/^www\./, '')]. *)
Definition removeWww (s : string) : string :=
  match stripPrefix "www." s with Some r => r | None => s end.

Definition cleanUrlOf (websiteUrl : string) : string :=
  let cleanUrl := toLowerCase (trim websiteUrl) in
  let cleanUrl := removeWww (removeScheme cleanUrl) in
  hd "" (split "/" cleanUrl).

(** *** [parseDuration] and [formatTimeRemaining] *)

(** The six keys of the table; any other string gives 0 (names inherited
    from [Object.prototype] are not modelled). *)
Definition parseDuration (duration : string) : Z :=
  if String.eqb duration "10sec" then 10 * 1000
  else if String.eqb duration "12hr" then 12 * 60 * 60 * 1000
  else if String.eqb duration "1d" then 24 * 60 * 60 * 1000
  else if String.eqb duration "2d" then 2 * 24 * 60 * 60 * 1000
  else if String.eqb duration "3d" then 3 * 24 * 60 * 60 * 1000
  else if String.eqb duration "7d" then 7 * 24 * 60 * 60 * 1000
  else 0.

(** [Math.floor(a / b)] is [Z.div] for a positive [b], and [%] is
    [Z.rem]. *)
Definition formatTimeRemaining (ms : Z) : string :=
  let totalSeconds := ms / 1000 in
  let days := totalSeconds / (24 * 3600) in
  let hours := Z.rem totalSeconds (24 * 3600) / 3600 in
  let minutes := Z.rem totalSeconds 3600 / 60 in
  let seconds := Z.rem totalSeconds 60 in
  if (0 <? days)%Z then
    ofZ days ++ "d " ++ ofZ hours ++ "h " ++ ofZ minutes ++ "m "
      ++ ofZ seconds ++ "s"
  else if (0 <? hours)%Z then
    ofZ hours ++ "h " ++ ofZ minutes ++ "m " ++ ofZ seconds ++ "s"
  else if (0 <? minutes)%Z then
    ofZ minutes ++ "m " ++ ofZ seconds ++ "s"
  else ofZ seconds ++ "s".

(** *** Messages *)

Definition quoted (s : string) : string := dq ++ s ++ dq.

Definition msgAdminBlock : string :=
  "Administrator privileges required to block websites".
Definition msgAdminUnblock : string :=
  "Administrator privileges required to unblock websites".
Definition msgAdminStudent : string :=
  "Administrator privileges required to block websites in student mode".
Definition msgInvalidUrl : string := "Invalid website URL".
Definition msgInvalidUrlFormat : string := "Invalid website URL format".
Definition msgAlreadyBlocked (cleanUrl : string) : string :=
  "Website " ++ quoted cleanUrl ++ " is already blocked".
Definition msgBlocked (cleanUrl : string) : string :=
  "Website " ++ quoted cleanUrl
    ++ " has been blocked using the system hosts file. Changes take effect immediately.".
Definition msgModifyFailed (fileError : string) : string :=
  "Failed to modify hosts file: " ++ fileError
    ++ ". Make sure the application is running as administrator.".
Definition msgDeepBlocked (cleanUrl : string) : string :=
  "Website " ++ quoted cleanUrl
    ++ " has been deeply blocked for student mode. All browser access is prevented.".
Definition msgBasicLevel (cleanUrl : string) : string :=
  "Website " ++ quoted cleanUrl
    ++ " has been blocked (basic level due to deep blocking error).".
Definition msgDeepFailed (m : string) : string :=
  "Failed to deep block website: " ++ m.
Definition msgTimerActive (cleanUrl remainingFormatted : string) : string :=
  "Cannot unblock " ++ quoted cleanUrl
    ++ " - Student mode is active! Time remaining: " ++ remainingFormatted
    ++ ". The website will automatically unblock when the timer expires.".
Definition msgReadFailed : string :=
  "Could not read hosts file. Make sure the application is running as administrator.".
Definition msgNotFound (cleanUrl : string) : string :=
  "Website " ++ quoted cleanUrl
    ++ " was not found in the hosts file or was already unblocked".
Definition msgUnblocked (cleanUrl : string) (removedCount : nat) : string :=
  "Website " ++ quoted cleanUrl ++ " has been unblocked. Removed "
    ++ ofNat removedCount ++ " entries from hosts file.".
Definition msgInvalidDuration : string := "Invalid duration specified".
Definition msgStudentFailed (m : string) : string :=
  "Failed to block website in student mode: " ++ m.
Definition msgStudentBlocked (websiteUrl duration : string) : string :=
  "Website " ++ quoted websiteUrl ++ " blocked in student mode for " ++ duration.
Definition msgNoTimer (websiteUrl : string) : string :=
  "No active student mode timer found for " ++ websiteUrl.
Definition msgCancelFailed (m : string) : string :=
  "Failed to cancel student mode: " ++ m.
Definition msgCancelled (websiteUrl : string) : string :=
  "Student mode cancelled for " ++ quoted websiteUrl
    ++ ". Website is now accessible.".

(** *** [blockWebsite] *)

(** The four binding lines, and [newEntries]: the marker line, which
    starts with a line feed, then the four lines. *)
Definition blockLines (cleanUrl : string) : list string :=
  let wwwDomain := "www." ++ cleanUrl in
  [ "127.0.0.1 " ++ cleanUrl;
    "127.0.0.1 " ++ wwwDomain;
    "0.0.0.0 " ++ cleanUrl;
    "0.0.0.0 " ++ wwwDomain ].

Definition blockMarker : string := "# Blocked by Technician App".

(** The comment line above the bindings: the template adds a second
    number sign before the marker. *)
Definition markerLine : string := "# " ++ blockMarker.

Definition newEntries (cleanUrl : string) : list string :=
  (nl ++ markerLine) :: blockLines cleanUrl.

Definition blockWebsite (websiteUrl : string) (w : World)
  : Settled string * World :=
  if negb (isRunningAsAdmin w) then (Reject msgAdminBlock, w)
  else if String.eqb websiteUrl "" then (Reject msgInvalidUrl, w)
  else
    let cleanUrl := cleanUrlOf websiteUrl in
    if String.eqb cleanUrl "" then (Reject msgInvalidUrlFormat, w)
    else
      (* readFileSync; a failure is replaced by the empty content *)
      let (readError, w1) := fsCall w in
      let hostsContent :=
        match readError with None => hosts w | Some _ => "" end in
      let wwwDomain := "www." ++ cleanUrl in
      if includes ("127.0.0.1 " ++ cleanUrl) hostsContent
         || includes ("127.0.0.1 " ++ wwwDomain) hostsContent
      then (Resolve (msgAlreadyBlocked cleanUrl), w1)
      else
        let updatedContent :=
          hostsContent ++ join nl (newEntries cleanUrl) ++ nl in
        (* writeFileSync *)
        let (writeError, w2) := fsCall w1 in
        match writeError with
        | Some m => (Reject (msgModifyFailed m), w2)
        | None =>
            let w3 := exec "ipconfig /flushdns" (setHosts updatedContent w2) in
            (Resolve (msgBlocked cleanUrl), w3)
        end.

(** *** [blockWebsiteDeep] *)

Definition deepMarker : string := "# Student Mode Deep Block".

Definition additionalBlocks (cleanUrl : string) : list string :=
  let wwwDomain := "www." ++ cleanUrl in
  [ "0.0.0.0 " ++ cleanUrl ++ " " ++ deepMarker;
    "0.0.0.0 " ++ wwwDomain ++ " " ++ deepMarker;
    "127.0.0.1 " ++ cleanUrl ++ " " ++ deepMarker;
    "127.0.0.1 " ++ wwwDomain ++ " " ++ deepMarker;
    "0.0.0.0 *." ++ cleanUrl ++ " " ++ deepMarker;
    "127.0.0.1 *." ++ cleanUrl ++ " " ++ deepMarker ].

(** [additionalBlocks.some(block => hostsContent.includes(block.split(' ')[1]))];
    every block has a space, so index 1 exists. *)
Definition deepBlockExists (cleanUrl hostsContent : string) : bool :=
  existsb (fun block => includes (nth 1 (split " " block) "") hostsContent)
          (additionalBlocks cleanUrl).

Definition dnsCommands : list string :=
  [ "ipconfig /flushdns"; "ipconfig /registerdns";
    "ipconfig /release"; "ipconfig /renew" ].

Definition blockWebsiteDeep (websiteUrl : string) (w : World)
  : Settled string * World :=
  if negb (isRunningAsAdmin w) then (Reject msgAdminBlock, w)
  else
    let cleanUrl := cleanUrlOf websiteUrl in
    if String.eqb cleanUrl "" then (Reject msgInvalidUrlFormat, w)
    else
      match blockWebsite cleanUrl w with
      | (Reject m, w1) =>
          (* the awaited rejection is thrown into the outer catch *)
          (Reject (msgDeepFailed m), w1)
      | (Resolve _, w1) =>
          let (readError, w2) := fsCall w1 in
          match readError with
          | Some _ => (Resolve (msgBasicLevel cleanUrl), w2)
          | None =>
              let hostsContent := hosts w2 in
              let written :=
                if deepBlockExists cleanUrl hostsContent then (None, w2)
                else
                  let hostsContent' :=
                    hostsContent
                      ++ (nl ++ nl ++ "# Student Mode Deep Blocking Entries" ++ nl)
                      ++ join nl (additionalBlocks cleanUrl) ++ nl in
                  let (writeError, w3) := fsCall w2 in
                  match writeError with
                  | Some m => (Some m, w3)
                  | None => (None, setHosts hostsContent' w3)
                  end in
              match written with
              | (Some _, w4) => (Resolve (msgBasicLevel cleanUrl), w4)
              | (None, w4) =>
                  let w5 := fold_left (fun acc c => exec c acc) dnsCommands w4 in
                  (Resolve (msgDeepBlocked cleanUrl), w5)
              end
          end
      end.

(** *** [unblockWebsite] *)

(** The first test of the loop body: the line blocks the website. *)
Definition blocksSite (cleanUrl trimmedLine : string) : bool :=
  let wwwDomain := "www." ++ cleanUrl in
  (includes ("127.0.0.1 " ++ cleanUrl) trimmedLine
   || includes ("127.0.0.1 " ++ wwwDomain) trimmedLine
   || includes ("0.0.0.0 " ++ cleanUrl) trimmedLine
   || includes ("0.0.0.0 " ++ wwwDomain) trimmedLine
   || includes ("*." ++ cleanUrl) trimmedLine
   || (includes "Student Mode Deep Block" trimmedLine
       && includes cleanUrl trimmedLine))
  && negb (startsWith "#" trimmedLine).

(** The second test: a comment line of the deep block. *)
Definition isDeepComment (trimmedLine : string) : bool :=
  includes "Student Mode Deep Blocking Entries" trimmedLine
  || (startsWith "#" trimmedLine
      && includes "Student Mode Deep Block" trimmedLine).

(** The loop over the lines: [filteredLines] and [removedCount]. *)
Fixpoint filterLines (cleanUrl : string) (lines : list string)
  : list string * nat :=
  match lines with
  | [] => ([], O)
  | line :: rest =>
      let (filteredLines, removedCount) := filterLines cleanUrl rest in
      let trimmedLine := trim line in
      if blocksSite cleanUrl trimmedLine then (filteredLines, S removedCount)
      else if isDeepComment trimmedLine then (filteredLines, removedCount)
      else (line :: filteredLines, removedCount)
  end.

(** The clean-up of legacy firewall rules that follows touches neither
    the hosts file nor the registry, runs after the promise is settled
    and swallows its errors: it is left out. *)
Definition unblockWebsite (websiteUrl : string) (w : World)
  : Settled string * World :=
  if negb (isRunningAsAdmin w) then (Reject msgAdminUnblock, w)
  else
    let cleanUrl := cleanUrlOf websiteUrl in
    if String.eqb cleanUrl "" then (Reject msgInvalidUrlFormat, w)
    else
      match mapGet cleanUrl (timers w) with
      | Some timerData =>
          let remainingMs := t_endTime timerData - now w in
          (Reject (msgTimerActive cleanUrl (formatTimeRemaining remainingMs)), w)
      | None =>
          let (readError, w1) := fsCall w in
          match readError with
          | Some _ => (Reject msgReadFailed, w1)
          | None =>
              let (filteredLines, removedCount) :=
                filterLines cleanUrl (split LF (hosts w1)) in
              match removedCount with
              | O => (Resolve (msgNotFound cleanUrl), w1)
              | S _ =>
                  let (writeError, w2) := fsCall w1 in
                  match writeError with
                  | Some m => (Reject (msgModifyFailed m), w2)
                  | None =>
                      let w3 := exec "ipconfig /flushdns"
                                  (setHosts (join nl filteredLines) w2) in
                      (Resolve (msgUnblocked cleanUrl removedCount), w3)
                  end
              end
          end
      end.

(** *** [blockWebsiteStudentMode] and the expiry callback *)

Record StudentBlocked : Type := mkStudentBlocked {
  sb_message : string;
  sb_endTime : Z;
  sb_duration : string
}.

(** [setTimeout(callback, durationMs)]: a fresh id, and the callback
    pending until [now + durationMs]. *)
Definition setTimeout (websiteUrl : string) (durationMs : Z) (w : World)
  : nat * World :=
  let id := nextTimeoutId w in
  (id, setNextTimeoutId (S id)
         (setPending
            (pending w ++ [mkTimeout id websiteUrl (now w + durationMs)])%list w)).

Definition blockWebsiteStudentMode (websiteUrl duration : string) (w : World)
  : Settled StudentBlocked * World :=
  if negb (isRunningAsAdmin w) then (Reject msgAdminStudent, w)
  else
    let durationMs := parseDuration duration in
    if (durationMs =? 0)%Z then (Reject msgInvalidDuration, w)
    else
      match blockWebsiteDeep websiteUrl w with
      | (Reject m, w1) => (Reject (msgStudentFailed m), w1)
      | (Resolve _, w1) =>
          let endTime := now w1 + durationMs in
          let (timeoutId, w2) := setTimeout websiteUrl durationMs w1 in
          let timerData :=
            mkTimer websiteUrl duration endTime (now w1) timeoutId in
          (* studentModeTimers.set(websiteUrl, timerData) *)
          let w3 := setTimers (mapSet websiteUrl timerData (timers w2)) w2 in
          (Resolve (mkStudentBlocked (msgStudentBlocked websiteUrl duration)
                      endTime duration), w3)
      end.

Definition expiredChannel : string := "student-mode-timer-expired".

(** The body of the callback handed to [setTimeout]: a rejection of
    [unblockWebsite] skips the rest of the [try] block and is only logged. *)
Definition onTimerExpired (websiteUrl : string) (w : World) : World :=
  match unblockWebsite websiteUrl w with
  | (Reject _, w1) => w1
  | (Resolve _, w1) =>
      let w2 := setTimers (mapDelete websiteUrl (timers w1)) w1 in
      setSent
        (sent w2
           ++ map (fun window => mkSent window expiredChannel websiteUrl)
                  (windows w2))%list w2
  end.

(** The clock advances by [ms]. *)
Definition elapse (ms : Z) (w : World) : World := setNow (now w + ms) w.

(** The event loop runs the pending callback [id] once it is due; a
    callback that ran is no longer pending. *)
Definition fireTimeout (id : nat) (w : World) : World :=
  match find (fun t => Nat.eqb (to_id t) id) (pending w) with
  | Some t =>
      if (to_due t <=? now w)%Z
      then onTimerExpired (to_url t) (clearTimeout id w)
      else w
  | None => w
  end.

(** *** [getStudentModeStatus] *)

Record ActiveTimer : Type := mkActiveTimer {
  a_websiteUrl : string;
  a_duration : string;
  a_startTime : Z;
  a_endTime : Z;
  a_remainingMs : Z;
  a_remainingFormatted : string
}.

Record StudentStatus : Type := mkStudentStatus {
  ss_activeTimers : list ActiveTimer;
  ss_count : nat
}.

(** The loop over [studentModeTimers.entries()]; deleting the entry being
    visited does not disturb the iteration over the others. *)
Fixpoint statusLoop (currentTime : Z) (entries : list (string * Timer))
         (w : World) : list ActiveTimer * World :=
  match entries with
  | [] => ([], w)
  | (websiteUrl, timerData) :: rest =>
      let remainingMs := t_endTime timerData - currentTime in
      if (0 <? remainingMs)%Z then
        let (activeTimers, w') := statusLoop currentTime rest w in
        (mkActiveTimer websiteUrl (t_duration timerData)
           (t_startTime timerData) (t_endTime timerData) remainingMs
           (formatTimeRemaining remainingMs) :: activeTimers, w')
      else
        let w1 := clearTimeout (t_timeoutId timerData) w in
        let w2 := setTimers (mapDelete websiteUrl (timers w1)) w1 in
        statusLoop currentTime rest w2
  end.

Definition getStudentModeStatus (w : World) : Settled StudentStatus * World :=
  let (activeTimers, w') := statusLoop (now w) (timers w) w in
  (Resolve (mkStudentStatus activeTimers (List.length activeTimers)), w').

(** The element [getStudentModeStatus] pushes for a live entry. *)
Definition annotate (currentTime : Z) (websiteUrl : string) (timerData : Timer)
  : ActiveTimer :=
  let remainingMs := t_endTime timerData - currentTime in
  mkActiveTimer websiteUrl (t_duration timerData) (t_startTime timerData)
    (t_endTime timerData) remainingMs (formatTimeRemaining remainingMs).

(** *** [cancelStudentMode] *)

Definition cancelStudentMode (websiteUrl : string) (w : World)
  : Settled string * World :=
  match mapGet websiteUrl (timers w) with
  | None => (Reject (msgNoTimer websiteUrl), w)
  | Some timerData =>
      let w1 := clearTimeout (t_timeoutId timerData) w in
      let w2 := setTimers (mapDelete websiteUrl (timers w1)) w1 in
      match unblockWebsite websiteUrl w2 with
      | (Reject m, w3) => (Reject (msgCancelFailed m), w3)
      | (Resolve _, w3) => (Resolve (msgCancelled websiteUrl), w3)
      end
  end.

(** *** Vocabulary of the properties *)

(** No coming [fs] call is scheduled to fail. *)
Definition healthy (w : World) : Prop :=
  Forall (fun f => f = None) (faults w).

(** Projections of updated and paired worlds. *)
Ltac wsimpl :=
  cbn [fst snd admin hosts faults timers pending nextTimeoutId now windows
       sent execLog setHosts setFaults setTimers setPending
       setNextTimeoutId setNow setSent setExecLog exec clearTimeout negb].

(** Two strings differ: by a character, or by their lengths. *)
Ltac differ e :=
  exfalso; cbn in e;
  first [ discriminate e
        | apply (f_equal String.length) in e; cbn in e; lia ].

(** The number of occurrences of a line in an explicit list of lines. *)
Ltac count_lines :=
  cbn [count_occ];
  repeat match goal with
         | |- context [string_dec ?a ?b] =>
             let e := fresh "e" in
             let ne := fresh "ne" in
             destruct (string_dec a b) as [e|ne];
             [ try differ e | try (exfalso; apply ne; reflexivity) ]
         end;
  try reflexivity.

(** A world for the examples: elevated, an empty hosts file, no fault,
    no timer, the clock at one second, two windows. *)
Definition freshWorld : World :=
  mkWorld true "" [] [] [] O 1000%Z [1%nat; 2%nat] [] [].

(** The world after a one-day student block of example.com. *)
Definition timedWorld : World :=
  snd (blockWebsiteStudentMode "example.com" "1d" freshWorld).

(** A world whose third [fs] call fails: the read and the write of the
    basic block succeed, the read of the deep block does not. *)
Definition faultyWorld : World :=
  setFaults [None; None; Some "EPERM: operation not permitted"] freshWorld.

(** The remaining-time string of the specification for [d] days, [h]
    hours, [m] minutes and [s] seconds: [{d}d {h}h {m}m {s}s] without
    its leading units that are zero. *)
Definition remainingTimeString (d h m s : Z) : string :=
  let seconds := ofZ s ++ "s" in
  let minutes := ofZ m ++ "m " ++ seconds in
  let hours := ofZ h ++ "h " ++ minutes in
  if (d =? 0)%Z then
    if (h =? 0)%Z then
      if (m =? 0)%Z then seconds else minutes
    else hours
  else ofZ d ++ "d " ++ hours.

(** [text] is the remaining-time string of [ms] milliseconds: of its
    whole seconds, split into days, hours below 24, and minutes and
    seconds below 60. *)
Definition isRemainingTimeString (ms : Z) (text : string) : Prop :=
  exists d h m s : Z,
    (0 <= d /\ 0 <= h < 24 /\ 0 <= m < 60 /\ 0 <= s < 60)%Z
    /\ (let total := ((d * 24 + h) * 60 + m) * 60 + s in
        1000 * total <= ms < 1000 * (total + 1))%Z
    /\ text = remainingTimeString d h m s.

(** A world with two timers, ten seconds after they were set: the one
    of a.com, of ten seconds, is stale but its callback has not run; the
    one of b.com, of one day, has time left. *)
Definition staleAndLiveWorld : World :=
  elapse 10000
    (snd (blockWebsiteStudentMode "b.com" "1d"
            (snd (blockWebsiteStudentMode "a.com" "10sec" freshWorld)))).

End Blocker.

(** ** Dates and FILETIME *)

Module JsDate.

Local Open Scope Z_scope.

Definition msPerDay : Z := 86400000.

(** [Day(t)] and [DayFromYear(y)] of ECMA-262. *)
Definition Day (t : Z) : Z := t / msPerDay.

Definition DayFromYear (y : Z) : Z :=
  365 * (y - 1970) + (y - 1969) / 4 - (y - 1901) / 100 + (y - 1601) / 400.

(** [YearFromTime(t)]: the largest [y] with [DayFromYear y <= Day t],
    found next to the estimate of 146097 days for 400 years. *)
Definition YearFromTime (t : Z) : Z :=
  let d := Day t in
  let y := 1970 + (d * 400) / 146097 in
  if DayFromYear (y + 1) <=? d then y + 1
  else if DayFromYear y <=? d then y
  else y - 1.

(** The largest absolute time value of a valid [Date]. *)
Definition maxTimeValue : Z := 8640000000000000.

(** [new Date(t).getFullYear()]: the year of the local time, [None] for
    the [NaN] of an invalid date; [localTZA t] is the offset of the local
    time zone, in milliseconds, at the instant [t]. *)
Definition getFullYear (localTZA : Z -> Z) (t : Z) : option Z :=
  if Z.abs t <=? maxTimeValue then Some (YearFromTime (t + localTZA t))
  else None.

Definition windowsEpochDiff : Z := 11644473600000.

(** [windowsFileTimeToDate(filetime)], [None] for [null].  BigInt division
    truncates.  [Number] is exact up to 2^53, and any larger value is
    beyond [maxTimeValue], where the date is invalid and [isNaN] holds: the
    exact difference gives the same result.  No operation of the body
    throws on a BigInt, so the [catch] is dead. *)
Definition windowsFileTimeToDate (localTZA : Z -> Z) (filetime : Z)
  : option Z :=
  let milliseconds := Z.quot filetime 10000 in
  if milliseconds <? windowsEpochDiff then None
  else
    let unixMilliseconds := milliseconds - windowsEpochDiff in
    match getFullYear localTZA unixMilliseconds with
    | None => None
    | Some year =>
        if (year <? 1970) || (2050 <? year) then None
        else Some unixMilliseconds
    end.

(** The FILETIME ticks of the millisecond timestamp [T]. *)
Definition toFileTime (T : Z) : Z := (T + windowsEpochDiff) * 10000.

End JsDate.

(** ** A stable sort with a comparator *)

Section StableSort.

Context {A : Type}.

(** [after a b]: the comparator is positive on [(a, b)], so [a] goes
    after [b]. *)
Variable after : A -> A -> bool.

Fixpoint insertSorted (x : A) (l : list A) : list A :=
  match l with
  | [] => [x]
  | y :: r => if after x y then y :: insertSorted x r else x :: l
  end.

(** [Array.prototype.sort] is stable: with a consistent comparator its
    result is the one of this insertion sort. *)
Fixpoint sortBy (l : list A) : list A :=
  match l with
  | [] => []
  | x :: r => insertSorted x (sortBy r)
  end.

(** [before a b]: the comparator does not put [a] after [b]. *)
Definition before (a b : A) : Prop := after a b = false.

End StableSort.

(** ** The prefetch analyzer *)

Module Prefetch.

Import JsDate.
Local Open Scope Z_scope.
Local Open Scope string_scope.

(** What the analyzer asks of its environment. *)
Record Env : Type := mkEnv {
  (** the offset of the local time zone at an instant *)
  localTZA : Z -> Z;
  (** the time value of [new Date()] *)
  currentTime : Z;
  (** the settlement of [isProcessRunning(name)], which never rejects *)
  isProcessRunning : string -> bool;
  (** the matches of the path pattern in the UTF-16LE decoding of the
      buffer, [[]] for a [null] result of [match] *)
  pathMatches : list Byte.byte -> list string
}.

(** An [fs.Stats]; [None] is a missing (falsy) date. *)
Record Stats : Type := mkStats {
  birthtime : option Z;
  mtime : option Z
}.

Record Volume : Type := mkVolume {
  volumePath : string;
  volumeSerial : string;
  creationTime : option Z
}.

Record PrefetchRecord : Type := mkRecord {
  executableName : string;
  runCount : Z;
  lastRunTimes : list Z;
  filePaths : list string;
  volumeInfo : list Volume;
  size : nat;
  prefetchPath : string;
  hash : string;
  fileCreated : option Z;
  fileModified : option Z;
  version : Z;
  isCurrentlyRunning : bool
}.

(** *** [DataView] reads, little endian *)

Definition leValue (bs : list Byte.byte) : Z :=
  fold_right (fun b acc => Z.of_N (Byte.to_N b) + 256 * acc) 0 bs.

(** [view.getUint32(offset, true)] and [view.getBigUint64(offset, true)]:
    a [RangeError] past the end of the view. *)
Definition readLE (width : nat) (buffer : list Byte.byte) (offset : nat)
  : Exc Z :=
  if Nat.leb (offset + width) (List.length buffer)
  then Ret (leValue (firstn width (skipn offset buffer)))
  else Throw.

Definition getUint32 := readLE 4.
Definition getBigUint64 := readLE 8.

(** *** File name patterns *)

Definition isHexDigit (c : ascii) : bool :=
  let n := nat_of_ascii c in
  (Nat.leb 48 n && Nat.leb n 57) || (Nat.leb 65 n && Nat.leb n 70)
  || (Nat.leb 97 n && Nat.leb n 102).

Fixpoint allChars (p : ascii -> bool) (s : string) : bool :=
  match s with
  | "" => true
  | String c s' => p c && allChars p s'
  end.

Definition isLineTerminator (c : ascii) : bool :=
  let n := nat_of_ascii c in Nat.eqb n 10 || Nat.eqb n 13.

(** [filename.match(/-([A-F0-9]{8})\.pf$/i)]: the eight digits. *)
Definition hashMatch (filename : string) : option string :=
  let n := String.length filename in
  if Nat.leb 12 n then
    let tail := substring (n - 12) 12 filename in
    let digits := substring 1 8 tail in
    if String.eqb (substring 0 1 tail) "-"
       && allChars isHexDigit digits
       && String.eqb (toLowerCase (substring 9 3 tail)) ".pf"
    then Some digits else None
  else None.

(** [filename.match(/^(.+?)-[A-F0-9]{8}\.pf$/i)]: the first group, which
    is not empty and has no line terminator. *)
Definition execMatch (filename : string) : option string :=
  match hashMatch filename with
  | Some _ =>
      let name := substring 0 (String.length filename - 12) filename in
      if negb (String.eqb name "")
         && allChars (fun c => negb (isLineTerminator c)) name
      then Some name else None
  | None => None
  end.

(** [s] without a suffix that equals [suffix] once lowered. *)
Definition dropSuffixCI (suffix s : string) : string :=
  let n := String.length s in
  let k := String.length suffix in
  if Nat.leb k n && String.eqb (toLowerCase (substring (n - k) k s)) suffix
  then substring 0 (n - k) s else s.

Definition executableNameOf (filename : string) : string :=
  match execMatch filename with
  | Some name => name
  | None => dropSuffixCI ".pf" filename
  end.

Definition isWordChar (c : ascii) : bool :=
  let n := nat_of_ascii c in
  (Nat.leb 48 n && Nat.leb n 57) || (Nat.leb 65 n && Nat.leb n 90)
  || (Nat.leb 97 n && Nat.leb n 122) || Nat.eqb n 95.

(** [s.replace(/\b\w/g, l => l.toUpperCase())]. *)
Fixpoint titleCase (afterWord : bool) (s : string) : string :=
  match s with
  | "" => ""
  | String c s' =>
      String (if isWordChar c && negb afterWord then upperChar c else c)
             (titleCase (isWordChar c) s')
  end.

Fixpoint mapChars (f : ascii -> ascii) (s : string) : string :=
  match s with
  | "" => ""
  | String c s' => String (f c) (mapChars f s')
  end.

Definition dropSuffix (suffix s : string) : string :=
  if endsWith suffix s
  then substring 0 (String.length s - String.length suffix) s else s.

Definition formatExecutableName (name : string) : string :=
  let name := dropSuffix ".exe" (toLowerCase name) in
  let name :=
    mapChars (fun c => if Ascii.eqb c "-" || Ascii.eqb c "_" then " "%char else c)
             name in
  trim (titleCase false name).

(** *** [extractVolumeSerial] *)

Definition hexDigit (d : Z) : ascii :=
  ascii_of_nat (Z.to_nat (if (d <? 10)%Z then 48 + d else 55 + d)).

Fixpoint hexDigits (n : nat) (v : Z) (acc : string) : string :=
  match n with
  | O => acc
  | S n' => hexDigits n' (v / 16) (String (hexDigit (v mod 16)) acc)
  end.

(** [value.toString(16).toUpperCase().padStart(8, '0')] for a value of
    32 bits. *)
Definition hex8 (v : Z) : string := hexDigits 8 v "".

(** The loop [for (i = 0; i < Math.min(buffer.length - 4, 200); i += 4)],
    as the list of its offsets. *)
Definition serialOffsets (buffer : list Byte.byte) : list nat :=
  filter (fun i => (Z.of_nat i <? Z.min (Z.of_nat (List.length buffer) - 4) 200)%Z)
         (map (fun k => (4 * k)%nat) (seq 0 50)).

Definition extractVolumeSerial (buffer : list Byte.byte) : option string :=
  let looksLikeSerial i :=
    match getUint32 buffer i with
    | Ret value => (268435456 <? value)%Z && (value <? 4294967295)%Z
    | Throw => false
    end in
  match find looksLikeSerial (serialOffsets buffer) with
  | Some i =>
      match getUint32 buffer i with
      | Ret value => Some (hex8 value)
      | Throw => None
      end
  | None => None
  end.

(** *** [parsePrefetchFileBuffer] *)

(** A property read on [fileStats]: a [TypeError] when [fileStats] is
    [null] or [undefined] ([None]). *)
Definition statsOf (fileStats : option Stats) : Exc Stats :=
  match fileStats with Some st => Ret st | None => Throw end.

(** [a || b] on values that are falsy only when missing. *)
Definition orElse {A} (a b : option A) : option A :=
  match a with Some _ => a | None => b end.

(** [fileStats.mtime || new Date()]. *)
Definition mtimeOrNow (env : Env) (st : Stats) : Z :=
  match mtime st with Some m => m | None => currentTime env end.

(** One timestamp slot: the dates pushed on [lastRunTimes] (none or one);
    an exception of the read is caught and logged. *)
Definition timestampAt (env : Env) (buffer : list Byte.byte) (offset : nat)
  : list Z :=
  match getBigUint64 buffer offset with
  | Throw => []
  | Ret timestamp =>
      if (0 <? timestamp)%Z then
        match windowsFileTimeToDate (localTZA env) timestamp with
        | Some jsDate =>
            match getFullYear (localTZA env) jsDate with
            | Some year => if (1970 <? year)%Z then [jsDate] else []
            | None => []
            end
        | None => []
        end
      else []
  end.

Definition readRunTimes (env : Env) (buffer : list Byte.byte)
           (version runCount : Z) : list Z :=
  if (26 <=? version)%Z then
    let timestampCount := Z.min 8 runCount in
    flat_map
      (fun i =>
         let offset := (128 + i * 8)%nat in
         if Nat.leb (offset + 8) (List.length buffer)
         then timestampAt env buffer offset else [])
      (seq 0 (Z.to_nat timestampCount))
  else timestampAt env buffer 128.

Definition commonPaths (executableName : string) : list string :=
  [ "C:\Program Files\" ++ executableName ++ "\" ++ executableName ++ ".exe";
    "C:\Program Files (x86)\" ++ executableName ++ "\" ++ executableName ++ ".exe";
    "C:\Windows\System32\" ++ executableName ++ ".exe";
    "C:\Windows\System32\kernel32.dll";
    "C:\Windows\System32\ntdll.dll";
    "C:\Windows\System32\user32.dll" ].

(** [[...new Set(l)]]: the first occurrence of each element. *)
Fixpoint dedup (seen l : list string) : list string :=
  match l with
  | [] => []
  | x :: r =>
      if existsb (String.eqb x) seen then dedup seen r
      else x :: dedup (x :: seen) r
  end.

Definition unknownVolume (st : Stats) : list Volume :=
  [mkVolume "C:\" "Unknown" (orElse (birthtime st) (mtime st))].

(** The four values the inner [try] block leaves. *)
Definition Parsed : Type := (Z * list Z * list string * list Volume)%type.

(** The inner [try] block.  The decoding of the buffer and the pattern
    match do not throw, so the [catch] of the file paths is dead. *)
Definition parseStructure (env : Env) (buffer : list Byte.byte)
           (version : Z) (executableName : string)
           (fileStats : option Stats) : Exc Parsed :=
  runCount <- getUint32 buffer (if (26 <=? version)%Z then 208 else 144)%nat ;;
  let lastRunTimes := readRunTimes env buffer version runCount in
  let filePaths :=
    match pathMatches env buffer with
    | [] => commonPaths executableName
    | matches => dedup [] matches
    end in
  volumeInfo <-
    tryCatch
      (let serial :=
         match extractVolumeSerial buffer with
         | Some v => v
         | None => "Unknown"
         end in
       st <- statsOf fileStats ;;
       Ret [mkVolume "C:\" serial (orElse (birthtime st) (mtime st))])
      (st <- statsOf fileStats ;; Ret (unknownVolume st)) ;;
  lastRunTimes <-
    match lastRunTimes with
    | [] => st <- statsOf fileStats ;; Ret [mtimeOrNow env st]
    | _ => Ret lastRunTimes
    end ;;
  let runCount :=
    if (runCount <=? 0)%Z || (10000 <? runCount)%Z
    then match List.length lastRunTimes with
         | O => 1%Z
         | n => Z.of_nat n
         end
    else runCount in
  Ret (runCount, lastRunTimes, filePaths, volumeInfo).

(** The [catch (parseError)] block. *)
Definition fallbackStructure (env : Env) (executableName : string)
           (fileStats : option Stats) : Exc Parsed :=
  st <- statsOf fileStats ;;
  Ret (1%Z, [mtimeOrNow env st],
       ["C:\Windows\System32\" ++ executableName ++ ".exe"],
       unknownVolume st).

Definition parsePrefetchFileBuffer (env : Env) (buffer : list Byte.byte)
           (filename : string) (fileStats : option Stats)
  : Exc (option PrefetchRecord) :=
  tryCatch
    (version <- getUint32 buffer 0 ;;
     let executableName := executableNameOf filename in
     parsed <- tryCatch
                 (parseStructure env buffer version executableName fileStats)
                 (fallbackStructure env executableName fileStats) ;;
     let '(runCount, lastRunTimes, filePaths, volumeInfo) := parsed in
     let hash :=
       match hashMatch filename with Some h => h | None => "Unknown" end in
     let isRunning := isProcessRunning env executableName in
     st <- statsOf fileStats ;;
     Ret (Some
            (mkRecord (formatExecutableName executableName)
               runCount
               (sortBy (fun a b => (a <? b)%Z) lastRunTimes)
               (firstn 20 filePaths)
               volumeInfo
               (List.length buffer)
               filename
               hash
               (orElse (birthtime st) (mtime st))
               (mtime st)
               version
               isRunning)))
    (Ret None).

(** *** [getPrefetchFiles] *)

(** A file of the directory: its name, and what [fs.statSync] and
    [fs.readFileSync] give for it. *)
Record PfFile : Type := mkPfFile {
  f_name : string;
  f_stat : Exc Stats;
  f_content : Exc (list Byte.byte)
}.

(** The prefetch directory: missing, unreadable ([readdirSync] throws an
    error of the given code and message), or listed. *)
Inductive Directory : Type :=
| Missing
| Unreadable (code message : string)
| Listing (files : list PfFile).

Inductive PrefetchResult : Type :=
| Failure (error : string) (requiresAdmin : bool)
| NoFiles (message : string)
| Success (data : list PrefetchRecord) (totalFiles processedFiles : nat).

(** The body of the per-file [try]. *)
Definition processFile (env : Env) (f : PfFile) : Exc (option PrefetchRecord) :=
  fileStats <- f_stat f ;;
  buffer <- f_content f ;;
  parsePrefetchFileBuffer env buffer (f_name f) (Some fileStats).

(** The loop over the files, with its [break] at 100 processed files; an
    exception skips the test of the cap with the rest of the body. *)
Fixpoint processFiles (env : Env) (files : list PfFile)
         (prefetchData : list PrefetchRecord) (processedCount : nat)
  : list PrefetchRecord * nat :=
  match files with
  | [] => (prefetchData, processedCount)
  | f :: rest =>
      match processFile env f with
      | Throw => processFiles env rest prefetchData processedCount
      | Ret parsedData =>
          let (prefetchData', processedCount') :=
            match parsedData with
            | Some r => ((prefetchData ++ [r])%list, S processedCount)
            | None => (prefetchData, processedCount)
            end in
          if Nat.leb 100 processedCount' then (prefetchData', processedCount')
          else processFiles env rest prefetchData' processedCount'
      end
  end.

(** [Math.max(...times)]: [None] is the [-Infinity] of an empty list. *)
Definition maxTime (times : list Z) : option Z :=
  match times with
  | [] => None
  | t :: r => Some (fold_left Z.max r t)
  end.

Definition latest (r : PrefetchRecord) : option Z := maxTime (lastRunTimes r).

(** [x < y] where [None] is [-Infinity]. *)
Definition ltLatest (x y : option Z) : bool :=
  match x, y with
  | Some a, Some b => (a <? b)%Z
  | None, Some _ => true
  | _, None => false
  end.

(** The comparator [bLatest - aLatest] is positive (a [NaN] is not). *)
Definition laterFirst (a b : PrefetchRecord) : bool :=
  ltLatest (latest a) (latest b).

Definition isPf (f : PfFile) : bool := endsWith ".pf" (toLowerCase (f_name f)).

Definition getPrefetchFiles (env : Env) (dir : Directory) : PrefetchResult :=
  match dir with
  | Missing =>
      Failure "Prefetch directory not found. This system may not have prefetch enabled."
              false
  | Unreadable code message =>
      if String.eqb code "EACCES" || String.eqb code "EPERM"
      then Failure "Access denied to prefetch directory. Administrator privileges may be required."
                   true
      else Failure ("Failed to analyze prefetch files: " ++ message) false
  | Listing entries =>
      let files := filter isPf entries in
      match files with
      | [] => NoFiles "No prefetch files found in directory."
      | _ =>
          let (prefetchData, processedCount) := processFiles env files [] O in
          Success (sortBy laterFirst prefetchData) (List.length files)
                  processedCount
      end
  end.

(** The fields [data] and [processedFiles] of the result; [None] is
    [undefined]. *)
Definition dataOf (r : PrefetchResult) : option (list PrefetchRecord) :=
  match r with
  | Failure _ _ => None
  | NoFiles _ => Some []
  | Success data _ _ => Some data
  end.


Definition succeeded (r : PrefetchResult) : bool :=
  match r with Failure _ _ => false | _ => true end.

(** *** Vocabulary of the properties *)

(** A file is parseable when its processing gives a record: [statSync]
    and [readFileSync] do not throw and the parser does not return
    [null]. *)
Definition parseable (env : Env) (f : PfFile) : bool :=
  match processFile env f with Ret (Some _) => true | _ => false end.

(** The records of the parseable files of a list, in its order. *)
Definition recordsOf (env : Env) (files : list PfFile) : list PrefetchRecord :=
  flat_map (fun f => match processFile env f with
                     | Ret (Some r) => [r]
                     | _ => []
                     end) files.

(** [t] is [max(lastRunTimes)] of the record: one of its run times, and
    none of them is later. *)
Definition isLatestOf (t : Z) (r : PrefetchRecord) : Prop :=
  In t (lastRunTimes r) /\ Forall (fun x => (x <= t)%Z) (lastRunTimes r).

(** [a] may stand before [b] in the descending order of
    [max(lastRunTimes)]: both have a maximum, and the one of [b] is not
    later. *)
Definition notEarlier (a b : PrefetchRecord) : Prop :=
  exists ta tb, isLatestOf ta a /\ isLatestOf tb b /\ (tb <= ta)%Z.

(** The records whose [max(lastRunTimes)] is [t]: [t] is one of the run
    times and none is later. *)
Definition latestAt (t : Z) (r : PrefetchRecord) : bool :=
  existsb (Z.eqb t) (lastRunTimes r)
  && forallb (fun x => (x <=? t)%Z) (lastRunTimes r).

(** An environment for the examples: UTC, no running process, no path in
    any buffer. *)
Definition utcEnv : Env :=
  mkEnv (fun _ => 0%Z) 1700000000000%Z (fun _ => false) (fun _ => []).

(** A buffer of four bytes: the version 17 and nothing else. *)
Definition headerOnly : list Byte.byte :=
  [Byte.x11; Byte.x00; Byte.x00; Byte.x00].

(** A listing for the examples: two parseable files, one file whose
    [statSync] throws, and a file that is no prefetch file. *)
Definition sampleFiles : list PfFile :=
  [ mkPfFile "A.EXE-0000000A.pf"
      (Ret (mkStats (Some 1600000000000%Z) (Some 1600000000000%Z)))
      (Ret headerOnly);
    mkPfFile "B.EXE-0000000B.pf" Throw (Ret headerOnly);
    mkPfFile "notes.txt"
      (Ret (mkStats (Some 0%Z) (Some 0%Z))) (Ret headerOnly);
    mkPfFile "C.EXE-0000000C.PF"
      (Ret (mkStats (Some 1650000000000%Z) (Some 1650000000000%Z)))
      (Ret [Byte.x11]) ;
    mkPfFile "D.EXE-0000000D.pf"
      (Ret (mkStats (Some 1650000000000%Z) (Some 1650000000000%Z)))
      (Ret headerOnly) ].

End Prefetch.

(** ** Further vocabulary on strings *)

Module JsStrSpec.

(** A white space character occurs in the string. *)
Fixpoint hasWhiteSpace (s : string) : bool :=
  match s with
  | "" => false
  | String c s' => isWhiteSpace c || hasWhiteSpace s'
  end.

(** Every character of the string satisfies the test. *)
Fixpoint forallChars (p : ascii -> bool) (s : string) : bool :=
  match s with
  | "" => true
  | String c s' => p c && forallChars p s'
  end.

(** [toLowerCase] leaves the character as it is. *)
Definition isLowered (c : ascii) : bool := Ascii.eqb (lowerChar c) c.

End JsStrSpec.

(** ** Vocabulary of the further properties of the blocker *)

Module BlockerSpec.

Import Blocker.
Local Open Scope Z_scope.

(** The timer state of the process: the keys of the registry are distinct,
    as the keys of a [Map] are, the pending timeouts have distinct ids, and
    every id was handed out by [setTimeout] already. *)
Definition wellFormed (w : World) : Prop :=
  NoDup (map fst (timers w))
  /\ NoDup (map to_id (pending w))
  /\ Forall (fun t => (to_id t < nextTimeoutId w)%nat) (pending w).

(** [w'] differs from [w] at most by the hosts file, the schedule of the
    file system and the log of the commands. *)
Definition sameProcess (w w' : World) : Prop :=
  timers w' = timers w /\ pending w' = pending w
  /\ nextTimeoutId w' = nextTimeoutId w /\ admin w' = admin w
  /\ now w' = now w /\ windows w' = windows w /\ sent w' = sent w.

(** The entry has time left at [currentTime]. *)
Definition live (currentTime : Z) (e : string * Timer) : bool :=
  0 <? t_endTime (snd e) - currentTime.

Definition annotateEntry (currentTime : Z) (e : string * Timer) : ActiveTimer :=
  annotate currentTime (fst e) (snd e).

(** The line, once trimmed, mentions the domain or the marker of the deep
    block. *)
Definition mentions (cleanUrl line : string) : bool :=
  includes cleanUrl (trim line)
  || includes "Student Mode Deep Block" (trim line).

End BlockerSpec.

(** ** Further vocabulary of the prefetch analyzer *)

Module PrefetchSpec.

Import JsDate Prefetch.

(** A digit or a capital letter A to F. *)
Definition isUpperHexDigit (c : ascii) : bool :=
  let n := nat_of_ascii c in
  (Nat.leb 48 n && Nat.leb n 57) || (Nat.leb 65 n && Nat.leb n 70).

(** The value at the offset looks like a volume serial. *)
Definition looksLikeSerial (buffer : list Byte.byte) (i : nat) : bool :=
  match getUint32 buffer i with
  | Ret value => (268435456 <? value)%Z && (value <? 4294967295)%Z
  | Throw => false
  end.

(** The local year of the instant is one of 1971 to 2050. *)
Definition plausibleRunTime (env : Env) (t : Z) : Prop :=
  exists year,
    getFullYear (localTZA env) t = Some year /\ (1971 <= year <= 2050)%Z.

(** [a] is not earlier than [b]. *)
Definition notBefore (a b : Z) : Prop := (b <= a)%Z.

End PrefetchSpec.

(** ** The validators of the firewall rules *)

Module Firewall.

Import JsStr.
Local Open Scope Z_scope.
Local Open Scope string_scope.

(** The outcome of a validator: the value it returns, or the message of
    the [Error] it throws. *)
Inductive Checked (A : Type) : Type :=
| Valid (value : A)
| Invalid (message : string).

Arguments Valid {A} value.
Arguments Invalid {A} message.

(** The class [[&|;$`\\<>]]. *)
Definition isDangerous (c : ascii) : bool :=
  existsb (Ascii.eqb c) ["&"; "|"; ";"; "$"; "`"; "\"; "<"; ">"]%char.

(** [input.replace(/[&|;$`\\<>]/g, '')]. *)
Fixpoint removeDangerous (s : string) : string :=
  match s with
  | "" => ""
  | String c s' =>
      if isDangerous c then removeDangerous s'
      else String c (removeDangerous s')
  end.

(** [sanitizeInput(input)]; [None] is an argument that is not a string. *)
Definition sanitizeInput (input : option string) : string :=
  match input with
  | None => ""
  | Some s => trim (removeDangerous s)
  end.

Definition validateRuleName (name : option string) : Checked string :=
  let sanitized := sanitizeInput name in
  if String.eqb sanitized "" then Invalid "Rule name cannot be empty"
  else if Nat.ltb 255 (String.length sanitized)
  then Invalid "Rule name too long (max 255 characters)"
  else Valid sanitized.

(** *** [parseInt] *)

(** The value of a digit, for the radixes up to 36. *)
Definition digitValue (c : ascii) : option Z :=
  let n := nat_of_ascii c in
  if Nat.leb 48 n && Nat.leb n 57 then Some (Z.of_nat n - 48)
  else if Nat.leb 97 n && Nat.leb n 122 then Some (Z.of_nat n - 87)
  else if Nat.leb 65 n && Nat.leb n 90 then Some (Z.of_nat n - 55)
  else None.

(** The longest prefix of digits of the radix, as a number; [acc] is
    [None] as long as no digit was read. *)
Fixpoint parseDigits (radix : Z) (s : string) (acc : option Z) : option Z :=
  match s with
  | "" => acc
  | String c s' =>
      match digitValue c with
      | Some d =>
          if (d <? radix)%Z
          then parseDigits radix s'
                 (Some (radix * match acc with Some a => a | None => 0 end + d))
          else acc
      | None => acc
      end
  end.

(** [parseInt(s)] with no radix: leading white space, a sign, a prefix
    [0x] or [0X] that selects the radix 16, then the digits; [None] is
    [NaN].  The result of JavaScript is the nearest [Number], which falls
    on the same side of every integer below 2^53 as the exact value, so
    the comparisons of the callers with 1, 65535 and one another give the
    same result on the exact value. *)
Definition parseInt (s : string) : option Z :=
  let s := trimStart s in
  let (sign, s) :=
    match s with
    | String "-" r => (-1, r)
    | String "+" r => (1, r)
    | _ => (1, s)
    end in
  let (radix, s) :=
    match s with
    | String "0" (String x r) =>
        if Ascii.eqb x "x" || Ascii.eqb x "X" then (16, r) else (10, s)
    | _ => (10, s)
    end in
  match parseDigits radix s None with
  | Some n => Some (sign * n)
  | None => None
  end.

(** *** [validatePort] *)

Definition msgPortString : string := "Port must be a string value".
Definition msgPortRange : string :=
  "Invalid port range (format: start-end, where start and end are 1-65535)".
Definition msgPortList (p : string) : string :=
  "Invalid port in list: " ++ p ++ " (must be 1-65535)".
Definition msgPortNumber : string :=
  "Invalid port number (must be 1-65535, port range like 80-90, multiple ports like 80,443, or "
    ++ dq ++ "any" ++ dq ++ ")".

(** [isNaN(portNum) || portNum < 1 || portNum > 65535], negated. *)
Definition isPortNumber (n : option Z) : bool :=
  match n with
  | Some v => negb ((v <? 1)%Z || (65535 <? v)%Z)
  | None => false
  end.

(** [validatePort(port)]; [None] is an argument that is not a string. *)
Definition validatePort (port : option string) : Checked string :=
  match port with
  | None => Invalid msgPortString
  | Some port =>
      if String.eqb port "" then Invalid msgPortString
      else
        let trimmedPort := toLowerCase (trim port) in
        if String.eqb trimmedPort "any" then Valid trimmedPort
        else if includes "-" trimmedPort then
          let parts := map trim (split "-" trimmedPort) in
          match parseInt (nth 0 parts ""), parseInt (nth 1 parts "") with
          | Some startNum, Some endNum =>
              if (startNum <? 1)%Z || (65535 <? endNum)%Z || (endNum <? startNum)%Z
              then Invalid msgPortRange
              else Valid trimmedPort
          | _, _ => Invalid msgPortRange
          end
        else if includes "," trimmedPort then
          match find (fun p => negb (isPortNumber (parseInt p)))
                     (map trim (split "," trimmedPort)) with
          | Some p => Invalid (msgPortList p)
          | None => Valid trimmedPort
          end
        else if isPortNumber (parseInt trimmedPort) then Valid trimmedPort
        else Invalid msgPortNumber
  end.

(** *** [validateIP] *)

Definition isDigit (c : ascii) : bool :=
  let n := nat_of_ascii c in Nat.leb 48 n && Nat.leb n 57.

(** The leading digits of a string, and the rest. *)
Fixpoint spanDigits (s : string) : string * string :=
  match s with
  | "" => ("", "")
  | String c s' =>
      if isDigit c
      then let (ds, rest) := spanDigits s' in (String c ds, rest)
      else ("", s)
  end.

(** [\d{1,max}] before something that is no digit: the repetition has to
    take every leading digit, so the match is unique; the result is what
    follows it. *)
Definition digitRun (max : nat) (s : string) : option string :=
  let (ds, rest) := spanDigits s in
  if Nat.leb 1 (String.length ds) && Nat.leb (String.length ds) max
  then Some rest else None.

Definition expectChar (c : ascii) (s : string) : option string :=
  match s with
  | String x r => if Ascii.eqb x c then Some r else None
  | "" => None
  end.

Definition andThen {A B} (m : option A) (k : A -> option B) : option B :=
  match m with Some a => k a | None => None end.

(** [(\d{1,3}\.){3}\d{1,3}]: what follows the address. *)
Definition dottedQuad (s : string) : option string :=
  andThen (digitRun 3 s) (fun s =>
  andThen (expectChar "." s) (fun s =>
  andThen (digitRun 3 s) (fun s =>
  andThen (expectChar "." s) (fun s =>
  andThen (digitRun 3 s) (fun s =>
  andThen (expectChar "." s) (fun s =>
  digitRun 3 s)))))).

(** [ipRegex.test(s)]: an address, alone or with [/] and one or two
    digits, or two addresses around a dash; in every position the
    character after a run of digits is no digit, so the two alternatives
    are told apart by the character after the first address. *)
Definition ipRegexTest (s : string) : bool :=
  match dottedQuad s with
  | Some "" => true
  | Some (String c rest) =>
      if Ascii.eqb c "/" then
        match digitRun 2 rest with Some "" => true | _ => false end
      else if Ascii.eqb c "-" then
        match dottedQuad rest with Some "" => true | _ => false end
      else false
  | None => false
  end.

Definition validateIP (ip : option string) : Checked string :=
  let sanitized := sanitizeInput ip in
  if ipRegexTest sanitized then Valid sanitized
  else Invalid "Invalid IP address format".

End Firewall.

(** ** Vocabulary of the properties of the validators *)

Module FirewallSpec.

Import JsStr Firewall.

(** None of the eight characters [sanitizeInput] removes. *)
Definition isHarmless (c : ascii) : bool := negb (isDangerous c).

(** A character of an address, a mask or a range of addresses. *)
Definition isAddressChar (c : ascii) : bool :=
  isDigit c || Ascii.eqb c "." || Ascii.eqb c "/" || Ascii.eqb c "-".

(** The string does not start with a digit. *)
Definition noLeadingDigit (s : string) : bool :=
  match s with
  | "" => true
  | String c _ => negb (isDigit c)
  end.

End FirewallSpec.

(** ** The list of the blocked websites *)

Module BlockedList.

Import JsStr Blocker.
Local Open Scope string_scope.

(** [s.split(/\s+/)]: the pieces between the runs of white space; a run
    at either end leaves an empty piece there.  [inSpace] tells that the
    previous character was white space. *)
Fixpoint splitSpaces (inSpace : bool) (s : string) : list string :=
  match s with
  | "" => [""]
  | String c s' =>
      if isWhiteSpace c then
        if inSpace then splitSpaces true s' else "" :: splitSpaces true s'
      else
        match splitSpaces false s' with
        | h :: t => String c h :: t
        | [] => [String c ""]
        end
  end.

(** [\d+] before something that is no digit: what follows the digits. *)
Definition someDigits (s : string) : option string :=
  let (ds, rest) := Firewall.spanDigits s in
  if String.eqb ds "" then None else Some rest.

(** [domain.match(/^\d+\.\d+\.\d+\.\d+$/)], as a test. *)
Definition looksLikeIPv4 (s : string) : bool :=
  match
    Firewall.andThen (someDigits s) (fun s =>
    Firewall.andThen (Firewall.expectChar "." s) (fun s =>
    Firewall.andThen (someDigits s) (fun s =>
    Firewall.andThen (Firewall.expectChar "." s) (fun s =>
    Firewall.andThen (someDigits s) (fun s =>
    Firewall.andThen (Firewall.expectChar "." s) (fun s =>
    someDigits s))))))
  with
  | Some "" => true
  | _ => false
  end.

(** The body of the loop over the lines: the domain the line adds to the
    set, if it adds one. *)
Definition blockedDomainOf (line : string) : option string :=
  let trimmedLine := trim line in
  if (startsWith "127.0.0.1 " trimmedLine || startsWith "0.0.0.0 " trimmedLine)
     && negb (startsWith "#" trimmedLine)
     && Nat.ltb 10 (String.length trimmedLine)
  then
    let parts := splitSpaces false trimmedLine in
    if Nat.leb 2 (List.length parts) then
      let domain := toLowerCase (nth 1 parts "") in
      let domain :=
        if startsWith "www." domain
        then substring 4 (String.length domain - 4) domain
        else domain in
      if negb (String.eqb domain "")
         && negb (String.eqb domain "localhost")
         && includes "." domain
         && negb (looksLikeIPv4 domain)
      then Some domain else None
    else None
  else None.

(** [set.add(x)] on a [Set] in insertion order. *)
Definition setAdd (x : string) (set : list string) : list string :=
  if existsb (String.eqb x) set then set else (set ++ [x])%list.

Definition collectDomains (lines : list string) : list string :=
  fold_left
    (fun set line =>
       match blockedDomainOf line with
       | Some domain => setAdd domain set
       | None => set
       end)
    lines [].

(** [array.sort()] with no comparator: the ascending order of the code
    units. *)
Definition sortStrings (l : list string) : list string :=
  sortBy (fun a b => String.ltb b a) l.

Inductive BlockedWebsites : Type :=
| ReadFailed (error : string)
| Websites (websites : list string).

(** [getBlockedWebsites()]: it asks for no elevation, and nothing in its
    body throws, so that it always resolves. *)
Definition getBlockedWebsites (w : World) : Settled BlockedWebsites * World :=
  let (readError, w1) := fsCall w in
  match readError with
  | Some _ => (Resolve (ReadFailed msgReadFailed), w1)
  | None =>
      let lines := split LF (hosts w1) in
      (Resolve (Websites (sortStrings (collectDomains lines))), w1)
  end.

End BlockedList.

(** ** Vocabulary of the properties of the list *)

Module BlockedListSpec.

Import JsStr JsStrSpec Blocker BlockedList.
Local Open Scope string_scope.

(** [a] stands strictly before [b] in the order of the code units. *)
Definition strictlyBefore (a b : string) : Prop := String.ltb a b = true.

(** The websites of a result, none for a failed read. *)
Definition websitesOf (r : Settled BlockedWebsites * World) : list string :=
  match fst r with
  | Resolve (Websites l) => l
  | _ => []
  end.

(** A canonical domain that the list can show: it has a dot and no white
    space, does not start with [www.], and is neither [localhost] nor
    four numbers with dots. *)
Definition listable (domain : string) : bool :=
  includes "." domain
  && negb (hasWhiteSpace domain)
  && negb (startsWith "www." domain)
  && negb (String.eqb domain "localhost")
  && negb (looksLikeIPv4 domain).

End BlockedListSpec.

(** ** The commands of the firewall rules and of the processes *)

Module FirewallRules.

Import JsStr Firewall.
Local Open Scope string_scope.

(** What a command answers to the callback of [exec]: the message of the
    error, if there is one, and the two outputs. *)
Record ExecResult : Type := mkExecResult {
  error : option string;
  stdout : string;
  stderr : string
}.

(** The process and the system behind [exec]: the elevation, the answers
    of the coming commands in program order (past the end a command
    answers nothing), and the commands run so far. *)
Record Shell : Type := mkShell {
  elevated : bool;
  replies : list ExecResult;
  commands : list string
}.

Definition exec (command : string) (sh : Shell) : ExecResult * Shell :=
  match replies sh with
  | [] =>
      (mkExecResult None "" "",
       mkShell (elevated sh) [] (commands sh ++ [command])%list)
  | r :: rest =>
      (r, mkShell (elevated sh) rest (commands sh ++ [command])%list)
  end.

(** The fields of [ruleData] that the function reads; [None] is a
    missing field (values that are neither strings nor missing are not
    modelled). *)
Record RuleData : Type := mkRuleData {
  rd_name : option string;
  rd_action : option string;
  rd_direction : option string;
  rd_protocol : option string;
  rd_program : option string;
  rd_localPort : option string;
  rd_remotePort : option string;
  rd_remoteIP : option string
}.

(** [field && field.trim()], as the field when the test passes. *)
Definition given (field : option string) : option string :=
  match field with
  | Some s => if String.eqb (trim s) "" then None else Some s
  | None => None
  end.

Definition fieldIs (value : string) (field : option string) : bool :=
  match field with
  | Some s => String.eqb s value
  | None => false
  end.

(** The [try] block of [addFirewallRule] up to [exec]: the command it
    builds, or the message of the rejection. *)
Definition addCommand (ruleData : RuleData) : Checked string :=
  match validateRuleName (rd_name ruleData) with
  | Invalid m => Invalid m
  | Valid ruleName =>
      let action := if fieldIs "allow" (rd_action ruleData) then "allow" else "block" in
      let direction := if fieldIs "out" (rd_direction ruleData) then "out" else "in" in
      let protocol :=
        if fieldIs "tcp" (rd_protocol ruleData) then "tcp"
        else if fieldIs "udp" (rd_protocol ruleData) then "udp"
        else "any" in
      let command :=
        "netsh advfirewall firewall add rule name=" ++ dq ++ ruleName ++ dq
          ++ " action=" ++ action ++ " dir=" ++ direction
          ++ " protocol=" ++ protocol in
      let command :=
        match given (rd_program ruleData) with
        | Some p =>
            let program := sanitizeInput (Some p) in
            if String.eqb program "" then command
            else command ++ " program=" ++ dq ++ program ++ dq
        | None => command
        end in
      let withLocal :=
        match given (rd_localPort ruleData) with
        | Some p =>
            match validatePort (Some p) with
            | Valid validatedPort =>
                Valid (command ++ " localport=" ++ validatedPort)
            | Invalid m => Invalid ("Local port error: " ++ m)
            end
        | None => Valid command
        end in
      match withLocal with
      | Invalid m => Invalid m
      | Valid command =>
          let withRemote :=
            match given (rd_remotePort ruleData) with
            | Some p =>
                match validatePort (Some p) with
                | Valid validatedPort =>
                    Valid (command ++ " remoteport=" ++ validatedPort)
                | Invalid m => Invalid ("Remote port error: " ++ m)
                end
            | None => Valid command
            end in
          match withRemote with
          | Invalid m => Invalid m
          | Valid command =>
              match given (rd_remoteIP ruleData) with
              | Some ip =>
                  match validateIP (Some ip) with
                  | Valid validatedIP =>
                      Valid (command ++ " remoteip=" ++ validatedIP)
                  | Invalid m => Invalid ("Remote IP error: " ++ m)
                  end
              | None => Valid command
              end
          end
      end
  end.

Definition msgAddDone : string := "Firewall rule added successfully".

Definition addFirewallRule (ruleData : RuleData) (sh : Shell)
  : Settled string * Shell :=
  if negb (elevated sh)
  then (Reject "Administrator privileges required to add firewall rules", sh)
  else
    match addCommand ruleData with
    | Invalid m => (Reject m, sh)
    | Valid command =>
        let (reply, sh1) := exec command sh in
        match error reply with
        | Some m => (Reject ("Failed to add firewall rule: " ++ m), sh1)
        | None =>
            if includes "Ok." (stdout reply)
               || includes "successfully" (stdout reply)
            then (Resolve msgAddDone, sh1)
            else (Reject "Failed to add firewall rule: Unexpected response",
                  sh1)
        end
    end.

(** The [replace] of [safeName]: every double quote is doubled. *)
Fixpoint doubleQuotes (s : string) : string :=
  match s with
  | "" => ""
  | String c s' =>
      if Ascii.eqb c (ascii_of_nat 34)
      then String c (String c (doubleQuotes s'))
      else String c (doubleQuotes s')
  end.

Definition removeCommand (ruleName : string) : string :=
  "netsh advfirewall firewall delete rule name=" ++ dq
    ++ doubleQuotes ruleName ++ dq.

Definition removeFirewallRule (ruleName : string) (sh : Shell)
  : Settled string * Shell :=
  if negb (elevated sh)
  then (Reject "Administrator privileges required to remove firewall rules",
        sh)
  else
    let (reply, sh1) := exec (removeCommand ruleName) sh in
    match error reply with
    | Some m => (Reject ("Failed to remove firewall rule: " ++ m), sh1)
    | None =>
        if includes "Ok." (stdout reply)
           || includes "successfully" (stdout reply)
           || includes "Deleted" (stdout reply)
           || includes "rule(s) deleted" (stdout reply)
        then (Resolve "Firewall rule removed successfully", sh1)
        else if includes "No rules match" (stdout reply)
        then (Reject "Rule not found - no rules match the specified criteria",
              sh1)
        else (Reject ("Failed to remove firewall rule: Unexpected response - "
                        ++ stdout reply), sh1)
    end.

(** [`${newRuleData.name}`]. *)
Definition nameText (ruleData : RuleData) : string :=
  match rd_name ruleData with Some s => s | None => "undefined" end.

Definition editFirewallRule (oldRuleName : string) (newRuleData : RuleData)
           (sh : Shell) : Settled string * Shell :=
  if negb (elevated sh)
  then (Reject "Administrator privileges required to edit firewall rules", sh)
  else
    let (removed, sh1) := removeFirewallRule oldRuleName sh in
    let removalSuccess := isResolved removed in
    match addFirewallRule newRuleData sh1 with
    | (Resolve _, sh2) =>
        let message :=
          if removalSuccess
          then "Rule " ++ dq ++ nameText newRuleData ++ dq
                 ++ " updated successfully"
          else "Rule " ++ dq ++ nameText newRuleData ++ dq
                 ++ " created successfully (original rule may not have been found)" in
        (Resolve message, sh2)
    | (Reject m, sh2) => (Reject ("Failed to add updated rule: " ++ m), sh2)
    end.

(** *** [killProcess] *)

(** [`${pidNum}`]: the decimal numeral of an integer below 2^53; a larger
    [Number] is written after a rounding that is left to [bigNumber]. *)
Definition numberText (bigNumber : Z -> string) (n : Z) : string :=
  if (n <? 2 ^ 53)%Z then ofZ n else bigNumber n.

(** [killProcess(pid)] for a [pid] that is a string. *)
Definition killProcess (bigNumber : Z -> string) (pid : string) (sh : Shell)
  : Settled string * Shell :=
  match parseInt pid with
  | None => (Reject "Invalid process ID", sh)
  | Some pidNum =>
      if (pidNum <=? 0)%Z then (Reject "Invalid process ID", sh)
      else
        let command := "taskkill /F /PID " ++ numberText bigNumber pidNum in
        let (reply, sh1) := exec command sh in
        match error reply with
        | Some m =>
            if includes "Access is denied" m
               || includes "Access is denied" (stderr reply)
            then (Reject ("Access denied. Administrator privileges may be required to terminate process "
                            ++ pid ++ "."), sh1)
            else if includes "not found" m
                    || includes "not found" (stderr reply)
            then (Reject ("Process " ++ pid
                            ++ " not found or already terminated."), sh1)
            else (Reject ("Failed to terminate process " ++ pid ++ ": " ++ m),
                  sh1)
        | None =>
            if includes "SUCCESS" (stdout reply)
               || includes "terminated" (stdout reply)
            then (Resolve ("Process " ++ pid ++ " terminated successfully"),
                  sh1)
            else if negb (String.eqb (stderr reply) "")
                    && includes "not found" (stderr reply)
            then (Reject ("Process " ++ pid
                            ++ " not found or already terminated"), sh1)
            else (Resolve ("Termination command sent to process " ++ pid),
                  sh1)
        end
  end.

End FirewallRules.

(** ** Vocabulary of the properties of the commands *)

Module FirewallRulesSpec.

Import JsStr JsStrSpec Firewall FirewallSpec FirewallRules.

(** A field that is missing, or holds none of the eight characters. *)
Definition harmlessField (field : option string) : bool :=
  match field with
  | Some s => forallChars isHarmless s
  | None => true
  end.

End FirewallRulesSpec.

(** ** The parser of the renderer, [prefetchParser.ts] *)

Module RendererParser.

Import JsStr JsDate Prefetch.
Local Open Scope Z_scope.
Local Open Scope string_scope.


(** [s.replace(/-[A-F0-9]{8}$/i, '')]. *)
Definition dropHashSuffix (s : string) : string :=
  let n := String.length s in
  if Nat.leb 9 n
     && String.eqb (substring (n - 9) 1 s) "-"
     && allChars isHexDigit (substring (n - 8) 8 s)
  then substring 0 (n - 9) s else s.

(** The executable name: the file name without [.pf], then without the
    hash. *)
Definition executableNameOf (filename : string) : string :=
  dropHashSuffix (dropSuffixCI ".pf" filename).







End RendererParser.

(** * Properties *)

(** ** The stable sort *)

Section StableSortFacts.

Context {A : Type}.
Variable after : A -> A -> bool.

Lemma insertSorted_perm (x : A) (l : list A) :
  Permutation (x :: l) (insertSorted after x l).
Proof.
  induction l as [|y r IH]; simpl.
  - apply Permutation_refl.
  - destruct (after x y).
    + eapply perm_trans; [apply perm_swap|]. now apply perm_skip.
    + apply Permutation_refl.
Qed.

Lemma sortBy_perm (l : list A) : Permutation l (sortBy after l).
Proof.
  induction l as [|x r IH]; simpl.
  - constructor.
  - eapply perm_trans; [|apply insertSorted_perm]. now apply perm_skip.
Qed.

Lemma sortBy_length (l : list A) :
  List.length (sortBy after l) = List.length l.
Proof. symmetry. apply Permutation_length, sortBy_perm. Qed.

Hypothesis after_asym : forall a b, after a b = true -> after b a = false.
Hypothesis before_trans :
  forall a b c, before after a b -> before after b c -> before after a c.

Lemma insertSorted_sorted (x : A) (l : list A) :
  StronglySorted (before after) l ->
  StronglySorted (before after) (insertSorted after x l).
Proof.
  induction 1 as [|y r Hr IH Hy]; simpl.
  - repeat constructor.
  - destruct (after x y) eqn:E.
    + constructor; [exact IH|].
      apply Forall_forall. intros z Hz.
      apply Permutation_in with (l' := x :: r) in Hz;
        [|apply Permutation_sym, insertSorted_perm].
      destruct Hz as [<-|Hz].
      * now apply after_asym.
      * rewrite Forall_forall in Hy. now apply Hy.
    + constructor; [now constructor|].
      constructor; [exact E|].
      apply Forall_forall. intros z Hz.
      rewrite Forall_forall in Hy.
      apply before_trans with y; [exact E | now apply Hy].
Qed.

Lemma sortBy_sorted (l : list A) :
  StronglySorted (before after) (sortBy after l).
Proof.
  induction l as [|x r IH]; simpl.
  - constructor.
  - now apply insertSorted_sorted.
Qed.

(** Stability: the elements of a class of equivalent elements keep their
    relative order. *)
Lemma sortBy_stable (p : A -> bool) (l : list A) :
  (forall a b, p a = true -> p b = true -> after a b = false) ->
  filter p (sortBy after l) = filter p l.
Proof.
  intros Hp.
  assert (Hins : forall x r,
             filter p (insertSorted after x r) = filter p (x :: r)).
  { intros x r. induction r as [|y r IH]; simpl; [reflexivity|].
    destruct (after x y) eqn:E; simpl; [|reflexivity].
    rewrite IH. simpl.
    destruct (p x) eqn:Px, (p y) eqn:Py; try reflexivity.
    rewrite (Hp x y Px Py) in E. discriminate. }
  induction l as [|x r IH]; simpl; [reflexivity|].
  rewrite Hins. simpl. now rewrite IH.
Qed.

End StableSortFacts.

(** ** FILETIME conversion *)

Module DateFacts.

Import JsDate.
Local Open Scope Z_scope.

(** [YearFromTime] is the year of ECMA-262: the one whose first day is
    the last at or before the day of [t]. *)
Lemma YearFromTime_spec (t : Z) :
  DayFromYear (YearFromTime t) <= Day t < DayFromYear (YearFromTime t + 1).
Proof.
  unfold YearFromTime.
  set (d := Day t). set (y := 1970 + d * 400 / 146097).
  destruct (DayFromYear (y + 1) <=? d) eqn:E1;
    [|destruct (DayFromYear y <=? d) eqn:E2];
    rewrite ?Z.leb_le, ?Z.leb_gt in *;
    unfold DayFromYear in *; subst y;
    Z.to_euclidean_division_equations; lia.
Qed.

Lemma toFileTime_ms (T : Z) :
  Z.quot (toFileTime T) 10000 = T + windowsEpochDiff.
Proof. unfold toFileTime. apply Z.quot_mul. discriminate. Qed.

(** A value read by [getBigUint64] converts to a number below 2^53. *)
Lemma uint64_ms_exact (filetime : Z) :
  0 <= filetime < 2 ^ 64 ->
  0 <= Z.quot filetime 10000 < 2 ^ 53.
Proof.
  intros H. rewrite Z.quot_div_nonneg by lia.
  split; [apply Z.div_pos; lia|].
  apply Z.div_lt_upper_bound; lia.
Qed.

Lemma windowsFileTimeToDate_some (tz : Z -> Z) (filetime d : Z) :
  windowsFileTimeToDate tz filetime = Some d ->
  d = Z.quot filetime 10000 - windowsEpochDiff /\ 0 <= d /\
  exists year, getFullYear tz d = Some year /\ 1970 <= year <= 2050.
Proof.
  unfold windowsFileTimeToDate.
  destruct (Z.quot filetime 10000 <? windowsEpochDiff) eqn:E; [discriminate|].
  apply Z.ltb_ge in E.
  destruct (getFullYear tz (Z.quot filetime 10000 - windowsEpochDiff))
    as [year|] eqn:Y; [|discriminate].
  destruct ((year <? 1970) || (2050 <? year)) eqn:R; [discriminate|].
  apply orb_false_iff in R. destruct R as [R1 R2].
  apply Z.ltb_ge in R1, R2.
  intros [= <-]. split; [reflexivity|]. split; [lia|].
  exists year. split; [exact Y | lia].
Qed.

Lemma windowsFileTimeToDate_none (tz : Z -> Z) (filetime : Z) :
  windowsFileTimeToDate tz filetime = None <->
  let unixMs := Z.quot filetime 10000 - windowsEpochDiff in
  unixMs < 0 \/ getFullYear tz unixMs = None \/
  exists year, getFullYear tz unixMs = Some year /\ (year < 1970 \/ 2050 < year).
Proof.
  unfold windowsFileTimeToDate. cbv zeta.
  destruct (Z.quot filetime 10000 <? windowsEpochDiff) eqn:E.
  - apply Z.ltb_lt in E. split; [intros _; left; lia | reflexivity].
  - apply Z.ltb_ge in E.
    destruct (getFullYear tz (Z.quot filetime 10000 - windowsEpochDiff))
      as [year|] eqn:Y.
    + destruct ((year <? 1970) || (2050 <? year)) eqn:R.
      * split; [intros _|reflexivity]. right. right. exists year.
        split; [reflexivity|].
        apply orb_true_iff in R. destruct R as [R|R]; apply Z.ltb_lt in R; lia.
      * apply orb_false_iff in R. destruct R as [R1 R2].
        apply Z.ltb_ge in R1, R2.
        split; [discriminate|].
        intros [H|[H|(y & H & H')]]; [lia | discriminate |].
        injection H as <-. lia.
    + split; [intros _; right; left; reflexivity | reflexivity].
Qed.

(** C5, as amended: [windowsFileTimeToDate] returns [ticks / 10000 -
    11644473600000] (truncating division) and [null] exactly when that
    value is below the 1970 epoch, is no valid date, or has a local year,
    as [getFullYear] gives it, outside 1970..2050; hence a timestamp
    [T >= 0] whose local year is in 1970..2050 converts to FILETIME
    ticks and back to exactly [T]. *)
Theorem filetime_roundtrip (tz : Z -> Z) (T year : Z)
        (Hepoch : 0 <= T)
        (Hyear : getFullYear tz T = Some year)
        (Hrange : 1970 <= year <= 2050) :
  windowsFileTimeToDate tz (toFileTime T) = Some T
  /\ (forall filetime d,
         windowsFileTimeToDate tz filetime = Some d ->
         d = Z.quot filetime 10000 - windowsEpochDiff)
  /\ (forall filetime,
         windowsFileTimeToDate tz filetime = None <->
         let unixMs := Z.quot filetime 10000 - windowsEpochDiff in
         unixMs < 0 \/ getFullYear tz unixMs = None \/
         exists y, getFullYear tz unixMs = Some y /\ (y < 1970 \/ 2050 < y)).
Proof.
  split; [|split].
  - unfold windowsFileTimeToDate. rewrite toFileTime_ms.
    destruct (T + windowsEpochDiff <? windowsEpochDiff) eqn:E;
      [apply Z.ltb_lt in E; lia|].
    replace (T + windowsEpochDiff - windowsEpochDiff) with T by lia.
    rewrite Hyear.
    destruct (year <? 1970) eqn:E1; [apply Z.ltb_lt in E1; lia|].
    destruct (2050 <? year) eqn:E2; [apply Z.ltb_lt in E2; lia|].
    reflexivity.
  - intros filetime d H. now apply windowsFileTimeToDate_some in H.
  - intros filetime. apply windowsFileTimeToDate_none.
Qed.

(** The round trip in UTC at 2020-09-13T12:26:40Z. *)
Lemma filetime_roundtrip_witness :
  windowsFileTimeToDate (fun _ => 0) (toFileTime 1600000000000)
  = Some 1600000000000.
Proof.
  apply (filetime_roundtrip (fun _ => 0) 1600000000000 2020);
    [lia | reflexivity | lia].
Defined.

(** C5 fails as stated at both ends of the epoch test.  Five hours west
    of UTC, [T = 0] is in 1970 in UTC but in 1969 locally, and converts to
    [null]; five and a half hours east of UTC, [T = -1] is in 1970
    locally, and converts to [null] because it is below the epoch. *)
Lemma filetime_roundtrip_fails_off_utc :
  (YearFromTime 0 = 1970
   /\ getFullYear (fun _ => -18000000) 0 = Some 1969
   /\ windowsFileTimeToDate (fun _ => -18000000) (toFileTime 0) = None)
  /\ (getFullYear (fun _ => 19800000) (-1) = Some 1970
      /\ windowsFileTimeToDate (fun _ => 19800000) (toFileTime (-1)) = None).
Proof. vm_compute. repeat split. Qed.

End DateFacts.

(** ** The prefetch parser *)

Module PrefetchFacts.

Import JsDate Prefetch.
Local Open Scope Z_scope.

Lemma flat_map_short {X Y} (f : X -> list Y) (l : list X) :
  (forall x, (List.length (f x) <= 1)%nat) ->
  (List.length (flat_map f l) <= List.length l)%nat.
Proof.
  intros Hf. induction l as [|x r IH]; simpl; [lia|].
  rewrite length_app. specialize (Hf x). lia.
Qed.

Lemma timestampAt_length env buffer offset :
  (List.length (timestampAt env buffer offset) <= 1)%nat.
Proof.
  unfold timestampAt.
  destruct (getBigUint64 buffer offset) as [ts|]; simpl; [|lia].
  destruct (0 <? ts); simpl; [|lia].
  destruct (windowsFileTimeToDate _ ts) as [d|]; simpl; [|lia].
  destruct (getFullYear _ d) as [y|]; simpl; [|lia].
  destruct (1970 <? y); simpl; lia.
Qed.

(** At most eight run times are read. *)
Lemma readRunTimes_length env buffer version runCount :
  (List.length (readRunTimes env buffer version runCount) <= 8)%nat.
Proof.
  unfold readRunTimes. destruct (26 <=? version).
  - eapply Nat.le_trans.
    + apply flat_map_short. intros i.
      destruct (Nat.leb _ _); [apply timestampAt_length | simpl; lia].
    + rewrite length_seq. lia.
  - pose proof (timestampAt_length env buffer 128). lia.
Qed.

(** What the inner [try] block leaves when it does not throw. *)
Lemma parseStructure_bounds env buffer version executableName fileStats
      runCount lastRunTimes filePaths volumeInfo :
  parseStructure env buffer version executableName fileStats
  = Ret (runCount, lastRunTimes, filePaths, volumeInfo) ->
  1 <= runCount <= 10000 /\ (1 <= List.length lastRunTimes)%nat.
Proof.
  unfold parseStructure.
  destruct (getUint32 buffer _) as [rc|]; simpl; [|discriminate].
  destruct fileStats as [st|]; simpl; [|discriminate].
  pose proof (readRunTimes_length env buffer version rc) as Hlen.
  destruct (readRunTimes env buffer version rc) as [|t l] eqn:E;
    cbn [bindExc List.length]; intros H; inversion H; subst; clear H;
    cbn [List.length] in *;
    destruct ((rc <=? 0) || (10000 <? rc)) eqn:R;
    try (apply orb_false_iff in R; destruct R as [R1 R2];
         apply Z.leb_gt in R1; apply Z.ltb_ge in R2);
    split; lia.
Qed.

Lemma fallbackStructure_bounds env executableName fileStats
      runCount lastRunTimes filePaths volumeInfo :
  fallbackStructure env executableName fileStats
  = Ret (runCount, lastRunTimes, filePaths, volumeInfo) ->
  1 <= runCount <= 10000 /\ (1 <= List.length lastRunTimes)%nat.
Proof.
  unfold fallbackStructure. destruct fileStats as [st|]; simpl; [|discriminate].
  intros H; inversion H; subst. cbn [List.length]. split; lia.
Qed.

(** The record of a parse that returns one. *)
Lemma parsePrefetchFileBuffer_some env buffer filename fileStats r :
  parsePrefetchFileBuffer env buffer filename fileStats = Ret (Some r) ->
  1 <= runCount r <= 10000 /\ (1 <= List.length (lastRunTimes r))%nat.
Proof.
  unfold parsePrefetchFileBuffer.
  destruct (getUint32 buffer 0) as [version|];
    cbn [bindExc tryCatch]; [|discriminate].
  destruct (tryCatch (parseStructure _ _ _ _ _) _)
    as [[[[rc lrt] fp] vi]|] eqn:P; cbn [bindExc tryCatch]; [|discriminate].
  assert (B : 1 <= rc <= 10000 /\ (1 <= List.length lrt)%nat).
  { unfold tryCatch in P.
    destruct (parseStructure _ _ _ _ _) as [q|] eqn:Q.
    - injection P as ->. now apply parseStructure_bounds in Q.
    - now apply fallbackStructure_bounds in P. }
  destruct fileStats as [st|]; cbn [statsOf bindExc]; [|discriminate].
  intros H; inversion H; subst. cbn [runCount lastRunTimes].
  rewrite sortBy_length. exact B.
Qed.

(** C4: on every buffer, file name and file stats (also a missing
    [fileStats]), [parsePrefetchFileBuffer] returns: no exception leaves
    it; and it returns either [null] or a record with
    [1 <= runCount <= 10000] and at least one run time. *)
Theorem parsePrefetchFileBuffer_total_and_bounded
        (env : Env) (buffer : list Byte.byte) (filename : string)
        (fileStats : option Stats) :
  exists result,
    parsePrefetchFileBuffer env buffer filename fileStats = Ret result
    /\ match result with
       | None => True
       | Some r =>
           1 <= runCount r <= 10000
           /\ (1 <= List.length (lastRunTimes r))%nat
       end.
Proof.
  destruct (parsePrefetchFileBuffer env buffer filename fileStats)
    as [result|] eqn:E.
  - exists result. split; [reflexivity|].
    destruct result as [r|]; [|exact I].
    now apply parsePrefetchFileBuffer_some in E.
  - exfalso. revert E. unfold parsePrefetchFileBuffer, tryCatch.
    destruct (bindExc _ _); discriminate.
Qed.

(** *** The batch *)

Lemma recordsOf_length env files :
  List.length (recordsOf env files)
  = List.length (filter (parseable env) files).
Proof.
  unfold recordsOf, parseable.
  induction files as [|f r IH]; simpl; [reflexivity|].
  destruct (processFile env f) as [[rec|]|]; simpl; lia.
Qed.





(** *** The order of the records *)

Lemma ltLatest_asym x y : ltLatest x y = true -> ltLatest y x = false.
Proof.
  destruct x as [a|], y as [b|]; simpl; try reflexivity; try discriminate.
  rewrite Z.ltb_lt, Z.ltb_ge. lia.
Qed.

Lemma ltLatest_trans x y z :
  ltLatest x y = false -> ltLatest y z = false -> ltLatest x z = false.
Proof.
  destruct x as [a|], y as [b|], z as [c|]; simpl;
    try reflexivity; try discriminate.
  rewrite !Z.ltb_ge. lia.
Qed.

Lemma StronglySorted_weaken {X} (R R' : X -> X -> Prop) (l : list X) :
  (forall a b, In a l -> In b l -> R a b -> R' a b) ->
  StronglySorted R l -> StronglySorted R' l.
Proof.
  intros HR H. induction H as [|a l Hl IH Ha].
  - constructor.
  - constructor.
    + apply IH. intros x y Hx Hy. apply HR; now right.
    + rewrite Forall_forall in *. intros x Hx.
      apply HR; [now left | now right | now apply Ha].
Qed.

(** Every record the loop collects was in the accumulator or is the
    record of a file. *)
Lemma processFiles_in env files acc count r :
  In r (fst (processFiles env files acc count)) ->
  In r acc \/ exists f, In f files /\ processFile env f = Ret (Some r).
Proof.
  revert acc count. induction files as [|f rest IH]; intros acc count.
  - simpl. now left.
  - cbn [processFiles].
    destruct (processFile env f) as [[rec|]|] eqn:P.
    + destruct (Nat.leb 100 (S count)).
      * cbn [fst]. intros H. apply in_app_or in H.
        destruct H as [H|[<-|[]]]; [now left|].
        right. exists f. split; [now left | exact P].
      * intros H. apply IH in H. destruct H as [H|(g & Hg & Pg)].
        -- apply in_app_or in H. destruct H as [H|[<-|[]]]; [now left|].
           right. exists f. split; [now left | exact P].
        -- right. exists g. split; [now right | exact Pg].
    + destruct (Nat.leb 100 count).
      * cbn [fst]. now left.
      * intros H. apply IH in H. destruct H as [H|(g & Hg & Pg)];
          [now left|]. right. exists g. split; [now right | exact Pg].
    + intros H. apply IH in H. destruct H as [H|(g & Hg & Pg)];
        [now left|]. right. exists g. split; [now right | exact Pg].
Qed.

(** [Math.max(...times)] is one of the times, and none is larger. *)
Lemma fold_max_spec (l : list Z) (t : Z) :
  (In (fold_left Z.max l t) (t :: l))
  /\ t <= fold_left Z.max l t
  /\ Forall (fun x => x <= fold_left Z.max l t) l.
Proof.
  revert t. induction l as [|x r IH]; intros t; cbn [fold_left].
  - split; [now left|]. split; [lia | constructor].
  - destruct (IH (Z.max t x)) as (Hin & Hle & Hall).
    split; [|split].
    + destruct Hin as [E|Hin]; [|right; now right].
      destruct (Z.max_spec t x) as [[_ M]|[_ M]]; rewrite M in *.
      * right. now left.
      * now left.
    + lia.
    + constructor; [lia | exact Hall].
Qed.

Lemma maxTime_spec (l : list Z) (t : Z) :
  maxTime l = Some t <-> In t l /\ Forall (fun x => x <= t) l.
Proof.
  destruct l as [|x r]; cbn [maxTime].
  - split; [discriminate | intros [[] _]].
  - destruct (fold_max_spec r x) as (Hin & Hle & Hall).
    split.
    + intros [= <-]. split; [exact Hin|]. constructor; assumption.
    + intros [Ht Hmax]. f_equal.
      apply Z.le_antisymm.
      * rewrite Forall_forall in Hmax. now apply Hmax.
      * assert (Hall' : Forall (fun y => y <= fold_left Z.max r x) (x :: r))
          by (constructor; assumption).
        rewrite Forall_forall in Hall'. now apply Hall'.
Qed.

Lemma latest_spec (r : PrefetchRecord) (t : Z) :
  latest r = Some t <-> isLatestOf t r.
Proof. apply maxTime_spec. Qed.

Lemma latestAt_spec (t : Z) (r : PrefetchRecord) :
  latestAt t r = true <-> isLatestOf t r.
Proof.
  unfold latestAt, isLatestOf.
  rewrite andb_true_iff, existsb_exists, forallb_forall, Forall_forall.
  split; intros [H1 H2]; split.
  - destruct H1 as (x & Hx & E). apply Z.eqb_eq in E. now subst.
  - intros x Hx. apply Z.leb_le. now apply H2.
  - exists t. split; [exact H1 | apply Z.eqb_refl].
  - intros x Hx. apply Z.leb_le. now apply H2.
Qed.

Lemma processFile_latest env f r :
  processFile env f = Ret (Some r) -> exists t, latest r = Some t.
Proof.
  unfold processFile.
  destruct (f_stat f) as [st|]; cbn [bindExc]; [|discriminate].
  destruct (f_content f) as [buffer|]; cbn [bindExc]; [|discriminate].
  intros H. apply parsePrefetchFileBuffer_some in H.
  destruct H as [_ H]. unfold latest, maxTime.
  destruct (lastRunTimes r) as [|t l]; [cbn in H; lia|].
  now eexists.
Qed.

(** C7: the records [getPrefetchFiles] returns are in the descending
    order of [max(lastRunTimes)]: every record has a latest run time, one
    of its run times that none of them exceeds, and the one of a record
    is not later than the one of any record before it; they are the
    records collected by the loop, and the records that share a maximum
    keep the order in which the loop met them, so that the order of the
    result is a function of the input. *)
Theorem getPrefetchFiles_sorted (env : Env) (entries : list PfFile) :
  let collected := fst (processFiles env (filter isPf entries) [] O) in
  exists data,
    dataOf (getPrefetchFiles env (Listing entries)) = Some data
    /\ StronglySorted notEarlier data
    /\ Permutation collected data
    /\ forall t, filter (latestAt t) data = filter (latestAt t) collected.
Proof.
  cbv zeta. unfold getPrefetchFiles.
  destruct (filter isPf entries) as [|f r] eqn:F.
  - exists []. cbn. repeat split; constructor.
  - destruct (processFiles env (f :: r) [] O) as [collected count] eqn:P.
    cbn [dataOf fst]. exists (sortBy laterFirst collected).
    split; [reflexivity|]. split; [|split].
    + apply StronglySorted_weaken with (R := before laterFirst).
      * intros a b Ha Hb Hab.
        assert (Hl : forall x, In x (sortBy laterFirst collected) ->
                               exists t, latest x = Some t).
        { intros x Hx.
          apply Permutation_in with (l' := collected) in Hx;
            [|apply Permutation_sym, sortBy_perm].
          replace collected with (fst (processFiles env (f :: r) [] O)) in Hx
            by now rewrite P.
          apply processFiles_in in Hx. destruct Hx as [[]|(g & _ & Pg)].
          now apply processFile_latest in Pg. }
        destruct (Hl a Ha) as [ta Ea], (Hl b Hb) as [tb Eb].
        unfold before, laterFirst in Hab. rewrite Ea, Eb in Hab.
        cbn in Hab. apply Z.ltb_ge in Hab.
        exists ta, tb. split; [now apply latest_spec|].
        split; [now apply latest_spec | exact Hab].
      * apply sortBy_sorted.
        -- intros a b. apply ltLatest_asym.
        -- intros a b c. apply ltLatest_trans.
    + apply sortBy_perm.
    + intros t. apply sortBy_stable. intros a b Ha Hb.
      apply latestAt_spec, latest_spec in Ha, Hb.
      unfold laterFirst. rewrite Ha, Hb. cbn. apply Z.ltb_irrefl.
Qed.

End PrefetchFacts.

(** ** Strings *)

Module StringFacts.

Local Open Scope string_scope.

Lemma append_assoc (a b c : string) : (a ++ b) ++ c = a ++ (b ++ c).
Proof. induction a as [|x a IH]; simpl; [reflexivity | now rewrite IH]. Qed.

Lemma append_nil_r (a : string) : a ++ "" = a.
Proof. induction a as [|x a IH]; simpl; [reflexivity | now rewrite IH]. Qed.

Lemma length_append (a b : string) :
  String.length (a ++ b) = String.length a + String.length b.
Proof. induction a as [|x a IH]; simpl; [reflexivity | now rewrite IH]. Qed.

Lemma stripPrefix_append (p s : string) : stripPrefix p (p ++ s) = Some s.
Proof.
  induction p as [|x p IH]; simpl; [now destruct s|].
  now rewrite Ascii.eqb_refl.
Qed.

Lemma stripPrefix_some (p s r : string) :
  stripPrefix p s = Some r -> s = p ++ r.
Proof.
  revert s. induction p as [|x p IH]; intros s; simpl.
  - destruct s; now intros [= <-].
  - destruct s as [|y s]; [discriminate|].
    destruct (Ascii.eqb x y) eqn:E; [|discriminate].
    apply Ascii.eqb_eq in E. subst y. intros H. now rewrite (IH _ H).
Qed.

Lemma startsWith_append (p s : string) : startsWith p (p ++ s) = true.
Proof. unfold startsWith. now rewrite stripPrefix_append. Qed.

(** [includes] holds exactly of the strings with an occurrence. *)
Lemma includes_startsWith (p s : string) :
  startsWith p s = true -> includes p s = true.
Proof. intros H. destruct s; simpl; now rewrite H. Qed.

Lemma includes_intro (p u v : string) : includes p (u ++ p ++ v) = true.
Proof.
  induction u as [|x u IH].
  - change ("" ++ p ++ v) with (p ++ v).
    apply includes_startsWith, startsWith_append.
  - simpl. rewrite IH. apply orb_true_r.
Qed.

Lemma includes_elim (p s : string) :
  includes p s = true -> exists u v, s = u ++ p ++ v.
Proof.
  induction s as [|x s IH]; simpl.
  - rewrite orb_false_r. unfold startsWith.
    destruct (stripPrefix p "") as [r|] eqn:E; [|discriminate].
    intros _. exists "", r. now apply stripPrefix_some in E.
  - intros H. apply orb_true_iff in H. destruct H as [H|H].
    + unfold startsWith in H.
      destruct (stripPrefix p (String x s)) as [r|] eqn:E; [|discriminate].
      exists "", r. now apply stripPrefix_some in E.
    + destruct (IH H) as (u & v & ->). now exists (String x u), v.
Qed.

(** An occurrence of [a ++ b] is one of [b]. *)
Lemma includes_suffix (a b s : string) :
  includes b s = false -> includes (a ++ b) s = false.
Proof.
  intros H. destruct (includes (a ++ b) s) eqn:E; [|reflexivity].
  apply includes_elim in E. destruct E as (u & v & ->).
  rewrite append_assoc, <- (append_assoc u a) in H.
  now rewrite includes_intro in H.
Qed.

Lemma split_nonempty (c : ascii) (s : string) : split c s <> [].
Proof.
  induction s as [|x s IH]; simpl; [discriminate|].
  destruct (Ascii.eqb x c); [discriminate|].
  destruct (split c s); [contradiction | discriminate].
Qed.

(** The pieces of [a ++ c ++ b] are the ones of [a], then the ones of
    [b]. *)
Lemma split_append (c : ascii) (a b : string) :
  split c (a ++ String c b) = (split c a ++ split c b)%list.
Proof.
  induction a as [|x a IH]; simpl.
  - now rewrite Ascii.eqb_refl.
  - destruct (Ascii.eqb x c); [now rewrite IH|].
    rewrite IH. pose proof (split_nonempty c a).
    destruct (split c a); [contradiction | reflexivity].
Qed.

Lemma split_whole (c : ascii) (s : string) :
  hasChar c s = false -> split c s = [s].
Proof.
  induction s as [|x s IH]; simpl; [reflexivity|].
  intros H. apply orb_false_iff in H. destruct H as [H1 H2].
  now rewrite H1, (IH H2).
Qed.

Lemma hasChar_append (c : ascii) (a b : string) :
  hasChar c (a ++ b) = hasChar c a || hasChar c b.
Proof.
  induction a as [|x a IH]; simpl; [reflexivity|].
  now rewrite IH, orb_assoc.
Qed.

(** A piece of a string occurs in it. *)
Lemma split_in (c : ascii) (s l : string) :
  In l (split c s) -> exists u v, s = u ++ l ++ v.
Proof.
  revert l. induction s as [|x s IH]; intros l; simpl.
  - intros [<-|[]]. now exists "", "".
  - destruct (Ascii.eqb x c).
    + intros [<-|H].
      * now exists "", (String x s).
      * destruct (IH l H) as (u & v & ->). now exists (String x u), v.
    + pose proof (split_nonempty c s) as Hne.
      destruct (split c s) as [|h t] eqn:E; [contradiction|].
      intros [<-|H].
      * destruct (IH h (or_introl eq_refl)) as (u & v & ->).
        (* the first piece starts the string *)
        assert (Hu : exists v', u ++ h ++ v = h ++ v').
        { clear IH Hne. revert E. generalize (u ++ h ++ v) as s'.
          intros s'. revert h t. induction s' as [|y s' IH']; intros h t.
          - simpl. intros [= <- <-]. now exists "".
          - simpl. destruct (Ascii.eqb y c).
            + intros [= <- <-]. now exists (String y s').
            + destruct (split c s') as [|h' t'] eqn:E'.
              * intros [= <- <-]. pose proof (split_nonempty c s'). congruence.
              * intros [= <- <-]. destruct (IH' h' t' eq_refl) as (v' & ->).
                now exists v'. }
        destruct Hu as (v' & ->). now exists "", v'.
      * destruct (IH l (or_intror H)) as (u & v & ->).
        now exists (String x u), v.
Qed.

Lemma split_in_includes (c : ascii) (p s l : string) :
  In l (split c s) -> includes p l = true -> includes p s = true.
Proof.
  intros Hl Hp. apply split_in in Hl. destruct Hl as (u & v & ->).
  apply includes_elim in Hp. destruct Hp as (u' & v' & ->).
  rewrite !append_assoc, <- (append_assoc u u').
  apply includes_intro.
Qed.

End StringFacts.

(** ** The timed website blocker *)

Module BlockerFacts.

Import Blocker StringFacts.
Local Open Scope Z_scope.
Local Open Scope string_scope.

(** *** The registry *)

Lemma mapGet_mapDelete_same {V} (k : string) (m : list (string * V)) :
  mapGet k (mapDelete k m) = None.
Proof.
  induction m as [|[k' v] r IH]; simpl; [reflexivity|].
  destruct (String.eqb k k') eqn:E; [exact IH|].
  simpl. now rewrite E.
Qed.

Lemma mapGet_mapDelete_other {V} (k k' : string) (m : list (string * V)) :
  k <> k' -> mapGet k (mapDelete k' m) = mapGet k m.
Proof.
  intros Hne. induction m as [|[k0 v] r IH]; simpl; [reflexivity|].
  destruct (String.eqb k' k0) eqn:E.
  - apply String.eqb_eq in E. subst k0.
    apply String.eqb_neq in Hne. now rewrite Hne.
  - simpl. now rewrite IH.
Qed.

Lemma mapGet_in {V} (k : string) (v : V) (m : list (string * V)) :
  NoDup (map fst m) -> In (k, v) m -> mapGet k m = Some v.
Proof.
  induction m as [|[k0 v0] r IH]; simpl; [contradiction|].
  intros Hnd [H|H].
  - injection H as -> ->. now rewrite String.eqb_refl.
  - inversion Hnd as [|? ? Hnotin Hnd']; subst.
    destruct (String.eqb k k0) eqn:E.
    + apply String.eqb_eq in E. subst k0. exfalso. apply Hnotin.
      change k with (fst (k, v)). now apply in_map.
    + now apply IH.
Qed.

Lemma mapDelete_keys {V} (k k' : string) (m : list (string * V)) :
  In k (map fst (mapDelete k' m)) -> In k (map fst m).
Proof.
  induction m as [|[k0 v] r IH]; simpl; [tauto|].
  destruct (String.eqb k' k0); simpl; tauto.
Qed.

(** The keys of the registry stay distinct under [delete] and [set], as
    the keys of a [Map] are. *)
Lemma mapDelete_nodup {V} (k : string) (m : list (string * V)) :
  NoDup (map fst m) -> NoDup (map fst (mapDelete k m)).
Proof.
  induction m as [|[k0 v] r IH]; simpl; [auto|].
  intros H. inversion H as [|? ? Hnotin Hnd]; subst.
  destruct (String.eqb k k0); [now apply IH|].
  simpl. constructor; [|now apply IH].
  intros Hin. apply Hnotin. now apply mapDelete_keys in Hin.
Qed.

Lemma mapSet_keys {V} (k k' : string) (v : V) (m : list (string * V)) :
  In k (map fst (mapSet k' v m)) -> k = k' \/ In k (map fst m).
Proof.
  induction m as [|[k0 v0] r IH]; simpl.
  - intros [<-|[]]. now left.
  - destruct (String.eqb k' k0) eqn:E; simpl.
    + apply String.eqb_eq in E. subst k0. tauto.
    + intros [<-|H]; [tauto|]. apply IH in H. tauto.
Qed.

Lemma mapSet_nodup {V} (k : string) (v : V) (m : list (string * V)) :
  NoDup (map fst m) -> NoDup (map fst (mapSet k v m)).
Proof.
  induction m as [|[k0 v0] r IH]; simpl.
  - intros _. repeat constructor. intros [].
  - intros H. inversion H as [|? ? Hnotin Hnd]; subst.
    destruct (String.eqb k k0) eqn:E; simpl.
    + apply String.eqb_eq in E. subst k0. now constructor.
    + constructor; [|now apply IH].
      intros Hin. apply mapSet_keys in Hin. destruct Hin as [->|Hin].
      * now rewrite String.eqb_refl in E.
      * contradiction.
Qed.

(** *** The file system *)

Lemma fsCall_healthy (w : World) :
  healthy w ->
  fst (fsCall w) = None /\ healthy (snd (fsCall w))
  /\ hosts (snd (fsCall w)) = hosts w
  /\ timers (snd (fsCall w)) = timers w
  /\ admin (snd (fsCall w)) = admin w.
Proof.
  unfold healthy, fsCall. intros H.
  destruct (faults w) as [|f r] eqn:E; simpl.
  - now rewrite E.
  - inversion H; subst. repeat split; assumption.
Qed.

(** [unblockWebsite] leaves the registry, the elevation and the clock as
    they are. *)
Lemma unblockWebsite_frame (websiteUrl : string) (w : World) :
  let w' := snd (unblockWebsite websiteUrl w) in
  timers w' = timers w /\ admin w' = admin w /\ now w' = now w
  /\ pending w' = pending w /\ sent w' = sent w
  /\ (healthy w -> healthy w').
Proof.
  cbv zeta. unfold unblockWebsite, isRunningAsAdmin, healthy, fsCall.
  destruct (admin w) eqn:A; cbn [negb];
    [|wsimpl; rewrite ?A; repeat split; auto].
  destruct (String.eqb (cleanUrlOf websiteUrl) "");
    [wsimpl; rewrite ?A; repeat split; auto|].
  destruct (mapGet (cleanUrlOf websiteUrl) (timers w));
    [wsimpl; rewrite ?A; repeat split; auto|].
  destruct (faults w) as [|f r] eqn:F.
  - destruct (filterLines _ _) as [filtered [|n]]; wsimpl;
      rewrite ?F, ?A; wsimpl; rewrite ?F; repeat split; auto.
  - destruct f as [m|];
      [wsimpl; rewrite ?A; repeat split; auto; intros H; now inversion H|].
    wsimpl.
    destruct (filterLines _ _) as [filtered [|n]];
      [wsimpl; rewrite ?A; repeat split; auto; intros H; now inversion H|].
    destruct r as [|f' r']; [wsimpl; rewrite ?A; repeat split; auto|].
    destruct f' as [m'|]; wsimpl; rewrite ?A; repeat split; auto;
      intros H; inversion H as [|? ? ? H']; now inversion H'.
Qed.



(** *** Blocking twice *)

(** The text [blockWebsite] appends, line by line. *)
Lemma appended_shape (hostsContent cleanUrl : string) :
  hostsContent ++ join nl (newEntries cleanUrl) ++ nl
  = hostsContent
      ++ String LF (markerLine
      ++ String LF (("127.0.0.1 " ++ cleanUrl)
      ++ String LF (("127.0.0.1 www." ++ cleanUrl)
      ++ String LF (("0.0.0.0 " ++ cleanUrl)
      ++ String LF (("0.0.0.0 www." ++ cleanUrl)
      ++ String LF ""))))).
Proof.
  unfold newEntries, blockLines, markerLine, blockMarker, nl.
  cbn [join]. f_equal.
  repeat (rewrite ?append_assoc; cbn [append]; f_equal).
Qed.

Lemma hasChar_binding (prefix cleanUrl : string) :
  hasChar LF prefix = false -> hasChar LF cleanUrl = false ->
  hasChar LF (prefix ++ cleanUrl) = false.
Proof. intros H1 H2. now rewrite hasChar_append, H1, H2. Qed.

(** The lines of the hosts file after the bindings are appended. *)
Lemma lines_after_block (hostsContent cleanUrl : string) :
  hasChar LF cleanUrl = false ->
  split LF (hostsContent ++ join nl (newEntries cleanUrl) ++ nl)
  = (split LF hostsContent
       ++ [ markerLine;
            ("127.0.0.1 " ++ cleanUrl)%string;
            ("127.0.0.1 www." ++ cleanUrl)%string;
            ("0.0.0.0 " ++ cleanUrl)%string;
            ("0.0.0.0 www." ++ cleanUrl)%string; "" ])%list.
Proof.
  intros H. rewrite appended_shape.
  rewrite !split_append.
  rewrite (split_whole LF markerLine) by reflexivity.
  rewrite (split_whole LF ("127.0.0.1 " ++ cleanUrl)),
          (split_whole LF ("127.0.0.1 www." ++ cleanUrl)),
          (split_whole LF ("0.0.0.0 " ++ cleanUrl)),
          (split_whole LF ("0.0.0.0 www." ++ cleanUrl))
    by (apply hasChar_binding; [reflexivity | exact H]).
  reflexivity.
Qed.

(** A hosts file that does not mention the domain has none of its
    binding lines. *)
Lemma binding_absent (hostsContent prefix cleanUrl : string) :
  includes cleanUrl hostsContent = false ->
  ~ In (prefix ++ cleanUrl) (split LF hostsContent).
Proof.
  intros H Hin. apply split_in_includes with (p := cleanUrl) in Hin.
  - congruence.
  - rewrite <- (append_nil_r cleanUrl) at 2. apply includes_intro.
Qed.

Lemma binding_once (hostsContent cleanUrl line : string) :
  includes cleanUrl hostsContent = false ->
  hasChar LF cleanUrl = false ->
  In line (blockLines cleanUrl) ->
  count_occ string_dec
    (split LF (hostsContent ++ join nl (newEntries cleanUrl) ++ nl)) line
  = 1%nat.
Proof.
  intros Habs Hlf Hline. rewrite lines_after_block by exact Hlf.
  rewrite count_occ_app.
  unfold blockLines in Hline. cbn [In] in Hline.
  destruct Hline as [<-|[<-|[<-|[<-|[]]]]].
  - rewrite (proj1 (count_occ_not_In string_dec _ _))
      by now apply binding_absent.
    count_lines.
  - change ("127.0.0.1 " ++ "www." ++ cleanUrl)
      with ("127.0.0.1 www." ++ cleanUrl).
    rewrite (proj1 (count_occ_not_In string_dec _ _))
      by now apply binding_absent.
    count_lines.
  - rewrite (proj1 (count_occ_not_In string_dec _ _))
      by now apply binding_absent.
    count_lines.
  - change ("0.0.0.0 " ++ "www." ++ cleanUrl)
      with ("0.0.0.0 www." ++ cleanUrl).
    rewrite (proj1 (count_occ_not_In string_dec _ _))
      by now apply binding_absent.
    count_lines.
Qed.

(** [blockWebsite] on an elevated process whose file system does not
    fail: a no-op when a binding to 127.0.0.1 is found, else the append. *)
Lemma blockWebsite_healthy (w : World) (websiteUrl : string) :
  isRunningAsAdmin w = true -> healthy w -> cleanUrlOf websiteUrl <> "" ->
  let domain := cleanUrlOf websiteUrl in
  let w1 := snd (fsCall w) in
  blockWebsite websiteUrl w
  = if includes ("127.0.0.1 " ++ domain) (hosts w)
       || includes ("127.0.0.1 " ++ "www." ++ domain) (hosts w)
    then (Resolve (msgAlreadyBlocked domain), w1)
    else (Resolve (msgBlocked domain),
          exec "ipconfig /flushdns"
            (setHosts (hosts w ++ join nl (newEntries domain) ++ nl)
               (snd (fsCall w1)))).
Proof.
  intros Hadmin Hfs Hurl. cbv zeta.
  assert (Hne : websiteUrl <> "") by (intros ->; now apply Hurl).
  apply String.eqb_neq in Hne, Hurl.
  unfold blockWebsite. rewrite Hadmin, Hne, Hurl. cbn [negb].
  pose proof (fsCall_healthy w Hfs) as (Hr & Hh & _).
  destruct (fsCall w) as [r1 w1]. cbn [fst snd] in *. subst r1.
  destruct (includes _ (hosts w) || includes _ (hosts w)); [reflexivity|].
  pose proof (fsCall_healthy w1 Hh) as (Hr' & _).
  destruct (fsCall w1) as [r2 w2]. cbn [fst snd] in *. now subst r2.
Qed.

(** The appended text holds the binding the next call looks for. *)
Lemma appended_includes (hostsContent cleanUrl : string) :
  includes ("127.0.0.1 " ++ cleanUrl)
           (hostsContent ++ join nl (newEntries cleanUrl) ++ nl) = true.
Proof.
  rewrite appended_shape.
  set (rest := String LF (("127.0.0.1 www." ++ cleanUrl) ++ _)).
  replace (hostsContent ++ String LF (markerLine ++ String LF (("127.0.0.1 " ++ cleanUrl) ++ rest)))
    with ((hostsContent ++ String LF (markerLine ++ nl))
            ++ ("127.0.0.1 " ++ cleanUrl) ++ rest).
  - apply includes_intro.
  - rewrite append_assoc. f_equal.
Qed.

(** Where no other entry interferes.  On an elevated process whose file
    system does not fail, two calls of [blockWebsite] in a row for a
    domain both succeed, the second one finds the website already
    blocked and leaves the hosts file as the first call left it, and
    when the hosts file did not mention the domain before, each of the
    four binding lines is a line of it exactly once; and
    [unblockWebsite] for a domain with no timer, when its loop removes
    no line, succeeds with the not-found message and leaves the hosts
    file as it is. *)
Theorem block_unblock_idempotent
        (w : World) (websiteUrl : string)
        (Hadmin : isRunningAsAdmin w = true)
        (Hfs : healthy w)
        (Hurl : cleanUrlOf websiteUrl <> "") :
  let domain := cleanUrlOf websiteUrl in
  (exists m1 w1 w2,
      blockWebsite websiteUrl w = (Resolve m1, w1)
      /\ blockWebsite websiteUrl w1 = (Resolve (msgAlreadyBlocked domain), w2)
      /\ hosts w2 = hosts w1
      /\ (includes domain (hosts w) = false ->
          hasChar LF domain = false ->
          forall line, In line (blockLines domain) ->
            count_occ string_dec (split LF (hosts w2)) line = 1%nat))
  /\ (mapGet domain (timers w) = None ->
      snd (filterLines domain (split LF (hosts w))) = O ->
      exists w',
        unblockWebsite websiteUrl w = (Resolve (msgNotFound domain), w')
        /\ hosts w' = hosts w).
Proof.
  cbv zeta. split.
  - rewrite (blockWebsite_healthy w websiteUrl Hadmin Hfs Hurl).
    pose proof (fsCall_healthy w Hfs) as (_ & Hh1 & Hhosts1 & _ & Ha1).
    set (w1 := snd (fsCall w)) in *.
    destruct (includes _ (hosts w) || includes _ (hosts w)) eqn:Already.
    + (* the first call found a binding *)
      exists (msgAlreadyBlocked (cleanUrlOf websiteUrl)), w1, (snd (fsCall w1)).
      split; [reflexivity|].
      assert (Ha : isRunningAsAdmin w1 = true)
        by (unfold isRunningAsAdmin; now rewrite Ha1).
      rewrite (blockWebsite_healthy w1 websiteUrl Ha Hh1 Hurl).
      rewrite Hhosts1, Already.
      pose proof (fsCall_healthy w1 Hh1) as (_ & _ & Hhosts2 & _).
      split; [reflexivity|]. split; [congruence|].
      intros Habs _ line _. exfalso.
      rewrite (includes_suffix "127.0.0.1 " _ _ Habs) in Already.
      change ("127.0.0.1 " ++ "www." ++ cleanUrlOf websiteUrl)
        with ("127.0.0.1 www." ++ cleanUrlOf websiteUrl) in Already.
      rewrite (includes_suffix "127.0.0.1 www." _ _ Habs) in Already.
      discriminate.
    + (* the first call appended the bindings *)
      pose proof (fsCall_healthy w1 Hh1) as (_ & Hh2 & _ & _ & Ha2).
      set (w2 := snd (fsCall w1)) in *.
      set (updated := hosts w ++ join nl (newEntries (cleanUrlOf websiteUrl)) ++ nl).
      set (w3 := exec "ipconfig /flushdns" (setHosts updated w2)).
      assert (Ha : isRunningAsAdmin w3 = true)
        by (unfold isRunningAsAdmin; subst w3; wsimpl; now rewrite Ha2, Ha1).
      assert (Hh3 : healthy w3) by exact Hh2.
      exists (msgBlocked (cleanUrlOf websiteUrl)), w3, (snd (fsCall w3)).
      split; [reflexivity|].
      rewrite (blockWebsite_healthy w3 websiteUrl Ha Hh3 Hurl).
      assert (Hfound : includes ("127.0.0.1 " ++ cleanUrlOf websiteUrl)
                                (hosts w3) = true).
      { subst w3. wsimpl. apply appended_includes. }
      rewrite Hfound. cbn [orb].
      pose proof (fsCall_healthy w3 Hh3) as (_ & _ & Hhosts3 & _).
      split; [reflexivity|]. split; [exact Hhosts3|].
      intros Habs Hlf line Hline. rewrite Hhosts3.
      subst w3. wsimpl. now apply binding_once.
  - intros Htimer Hnone.
    pose proof Hurl as Hurl'. apply String.eqb_neq in Hurl'.
    unfold unblockWebsite. rewrite Hadmin, Hurl', Htimer. cbn [negb].
    pose proof (fsCall_healthy w Hfs) as (Hr & _ & Hhosts & _).
    destruct (fsCall w) as [r1 w1]. cbn [fst snd] in *. subst r1.
    rewrite Hhosts.
    destruct (filterLines _ _) as [filtered count]. cbn [snd] in Hnone.
    subst count. now exists w1.
Qed.

(** *** The status query *)

Lemma mapGet_mapDelete_none {V} (k k' : string) (m : list (string * V)) :
  mapGet k m = None -> mapGet k (mapDelete k' m) = None.
Proof.
  intros H. destruct (string_dec k k') as [->|Hne].
  - apply mapGet_mapDelete_same.
  - now rewrite mapGet_mapDelete_other.
Qed.

Lemma clearTimeout_removes (id : nat) (w : World) :
  ~ In id (map to_id (pending (clearTimeout id w))).
Proof.
  unfold clearTimeout. cbn [pending setPending].
  intros H. apply in_map_iff in H. destruct H as (t & <- & Ht).
  apply filter_In in Ht. destruct Ht as [_ Ht].
  now rewrite Nat.eqb_refl in Ht.
Qed.

Lemma clearTimeout_shrinks (id id' : nat) (w : World) :
  In id (map to_id (pending (clearTimeout id' w))) ->
  In id (map to_id (pending w)).
Proof.
  unfold clearTimeout. cbn [pending setPending].
  intros H. apply in_map_iff in H. destruct H as (t & <- & Ht).
  apply filter_In in Ht. apply in_map. tauto.
Qed.

(** What the loop of [getStudentModeStatus] does, entry by entry. *)
Lemma statusLoop_spec (currentTime : Z) (entries : list (string * Timer))
      (w : World) :
  let result := statusLoop currentTime entries w in
  hosts (snd result) = hosts w
  /\ (forall a, In a (fst result) ->
        exists k t, In (k, t) entries /\ currentTime < t_endTime t
                    /\ a = annotate currentTime k t)
  /\ (forall k t, In (k, t) entries -> currentTime < t_endTime t ->
        In (annotate currentTime k t) (fst result))
  /\ (forall k, mapGet k (timers w) = None ->
        mapGet k (timers (snd result)) = None)
  /\ (forall k t, In (k, t) entries -> t_endTime t <= currentTime ->
        mapGet k (timers (snd result)) = None
        /\ ~ In (t_timeoutId t) (map to_id (pending (snd result))))
  /\ (forall k,
        (forall t, In (k, t) entries -> currentTime < t_endTime t) ->
        mapGet k (timers (snd result)) = mapGet k (timers w))
  /\ (forall id, In id (map to_id (pending (snd result))) ->
        In id (map to_id (pending w))).
Proof.
  cbv zeta. revert w.
  induction entries as [|[k0 t0] rest IH]; intros w.
  - cbn. repeat split; auto; try contradiction.
  - cbn [statusLoop].
    destruct (0 <? t_endTime t0 - currentTime)%Z eqn:Live.
    + apply Z.ltb_lt in Live.
      specialize (IH w).
      destruct (statusLoop currentTime rest w) as [acts w'].
      cbn [fst snd] in *.
      destruct IH as (Hh & Hfrom & Hto & Hnone & Hstale & Hkeep & Hpend).
      repeat split; auto.
      * intros a [<-|Ha].
        -- exists k0, t0. repeat split; [now left | lia].
        -- destruct (Hfrom a Ha) as (k & t & Hin & Hlt & ->).
           exists k, t. repeat split; [now right | exact Hlt].
      * intros k t [Heq|Hin] Hlt.
        -- injection Heq as -> ->. now left.
        -- right. now apply Hto.
      * destruct H as [Heq|Hin]; [injection Heq as -> ->; lia|].
        now apply (Hstale k t).
      * destruct H as [Heq|Hin]; [injection Heq as -> ->; lia|].
        now apply (Hstale k t).
      * intros k Hk. apply Hkeep. intros t Hin. apply Hk. now right.
    + apply Z.ltb_ge in Live.
      set (w2 := setTimers _ (clearTimeout (t_timeoutId t0) w)).
      specialize (IH w2).
      destruct (statusLoop currentTime rest w2) as [acts w'].
      cbn [fst snd] in *.
      destruct IH as (Hh & Hfrom & Hto & Hnone & Hstale & Hkeep & Hpend).
      assert (Hp2 : forall id, In id (map to_id (pending w2)) ->
                               In id (map to_id (pending w)))
        by (intros id; subst w2; cbn [pending setTimers];
            apply clearTimeout_shrinks).
      repeat split; auto.
      * intros a Ha. destruct (Hfrom a Ha) as (k & t & Hin & Hlt & ->).
        exists k, t. repeat split; [now right | exact Hlt].
      * intros k t [Heq|Hin] Hlt; [injection Heq as -> ->; lia|].
        now apply Hto.
      * intros k Hk. apply Hnone. subst w2. wsimpl.
        now apply mapGet_mapDelete_none.
      * destruct H as [Heq|Hin]; [|now apply (Hstale k t)].
        injection Heq as -> ->. apply Hnone. subst w2. wsimpl.
        apply mapGet_mapDelete_same.
      * destruct H as [Heq|Hin]; [|now apply (Hstale k t)].
        injection Heq as -> ->. intros Hid. apply Hpend in Hid.
        subst w2. cbn [pending setTimers] in Hid.
        now apply clearTimeout_removes in Hid.
      * intros k Hk. rewrite Hkeep by (intros t Hin; apply Hk; now right).
        subst w2. wsimpl. apply mapGet_mapDelete_other.
        intros ->. specialize (Hk t0 (or_introl eq_refl)). lia.
Qed.

(** The string of [formatTimeRemaining] is the remaining-time string of
    the specification. *)
Lemma formatTimeRemaining_spec (ms : Z) :
  0 <= ms -> isRemainingTimeString ms (formatTimeRemaining ms).
Proof.
  intros Hms. unfold formatTimeRemaining.
  set (ts := ms / 1000).
  assert (Hts : 0 <= ts) by (apply Z.div_pos; lia).
  rewrite !Z.rem_mod_nonneg by lia.
  change (24 * 3600) with 86400.
  exists (ts / 86400), (ts mod 86400 / 3600), (ts mod 3600 / 60), (ts mod 60).
  assert (Hd : 0 <= ts / 86400) by (apply Z.div_pos; lia).
  assert (Hh : 0 <= ts mod 86400 / 3600 < 24)
    by (pose proof (Z.mod_pos_bound ts 86400 ltac:(lia));
        split; [apply Z.div_pos; lia | apply Z.div_lt_upper_bound; lia]).
  assert (Hm : 0 <= ts mod 3600 / 60 < 60)
    by (pose proof (Z.mod_pos_bound ts 3600 ltac:(lia));
        split; [apply Z.div_pos; lia | apply Z.div_lt_upper_bound; lia]).
  assert (Hs : 0 <= ts mod 60 < 60) by (apply Z.mod_pos_bound; lia).
  split; [tauto|]. split.
  - cbv zeta.
    assert (E : ((ts / 86400 * 24 + ts mod 86400 / 3600) * 60
                 + ts mod 3600 / 60) * 60 + ts mod 60 = ts)
      by (clear; Z.to_euclidean_division_equations; lia).
    rewrite E. unfold ts.
    pose proof (Z.div_mod ms 1000 ltac:(lia)).
    pose proof (Z.mod_pos_bound ms 1000 ltac:(lia)). lia.
  - unfold remainingTimeString.
    destruct (0 <? ts / 86400)%Z eqn:D.
    + apply Z.ltb_lt in D.
      replace (ts / 86400 =? 0)%Z with false
        by (symmetry; apply Z.eqb_neq; lia).
      reflexivity.
    + apply Z.ltb_ge in D.
      replace (ts / 86400 =? 0)%Z with true by (symmetry; apply Z.eqb_eq; lia).
      destruct (0 <? ts mod 86400 / 3600)%Z eqn:H.
      * apply Z.ltb_lt in H.
        replace (ts mod 86400 / 3600 =? 0)%Z with false
          by (symmetry; apply Z.eqb_neq; lia).
        reflexivity.
      * apply Z.ltb_ge in H.
        replace (ts mod 86400 / 3600 =? 0)%Z with true
          by (symmetry; apply Z.eqb_eq; lia).
        destruct (0 <? ts mod 3600 / 60)%Z eqn:M.
        -- apply Z.ltb_lt in M.
           replace (ts mod 3600 / 60 =? 0)%Z with false
             by (symmetry; apply Z.eqb_neq; lia).
           reflexivity.
        -- apply Z.ltb_ge in M.
           replace (ts mod 3600 / 60 =? 0)%Z with true
             by (symmetry; apply Z.eqb_eq; lia).
           reflexivity.
Qed.

(** C9: [getStudentModeStatus] always resolves; each registry entry whose
    [endTime] is not after the current time is left out of the returned
    list, is no longer in the registry afterwards, and its timeout is no
    longer pending; each entry with a positive remaining time is in the
    returned list with its URL, its duration, its start and end times,
    its remaining milliseconds and the remaining-time string of them
    ([{d}d {h}h {m}m {s}s] without the leading zero units), and stays in
    the registry.  The hosts file is not touched. *)
Theorem status_purges_stale_timers
        (w : World) (Huniq : NoDup (map fst (timers w))) :
  exists status w',
    getStudentModeStatus w = (Resolve status, w')
    /\ hosts w' = hosts w
    /\ ss_count status = List.length (ss_activeTimers status)
    /\ forall websiteUrl timerData,
        In (websiteUrl, timerData) (timers w) ->
        (t_endTime timerData <= now w ->
           ~ In websiteUrl (map a_websiteUrl (ss_activeTimers status))
           /\ mapGet websiteUrl (timers w') = None
           /\ ~ In (t_timeoutId timerData) (map to_id (pending w')))
        /\ (now w < t_endTime timerData ->
           (exists active,
               In active (ss_activeTimers status)
               /\ a_websiteUrl active = websiteUrl
               /\ a_duration active = t_duration timerData
               /\ a_startTime active = t_startTime timerData
               /\ a_endTime active = t_endTime timerData
               /\ a_remainingMs active = t_endTime timerData - now w
               /\ isRemainingTimeString (t_endTime timerData - now w)
                                        (a_remainingFormatted active))
           /\ mapGet websiteUrl (timers w') = Some timerData).
Proof.
  unfold getStudentModeStatus.
  pose proof (statusLoop_spec (now w) (timers w) w) as H. cbv zeta in H.
  destruct (statusLoop (now w) (timers w) w) as [acts w'].
  cbn [fst snd] in H.
  destruct H as (Hh & Hfrom & Hto & _ & Hstale & Hkeep & _).
  exists (mkStudentStatus acts (List.length acts)), w'.
  split; [reflexivity|]. split; [exact Hh|]. split; [reflexivity|].
  intros k t Hin. split.
  - intros Hold. destruct (Hstale k t Hin Hold) as [Hgone Hcleared].
    split; [|split; assumption].
    cbn [ss_activeTimers]. intros Hk. apply in_map_iff in Hk.
    destruct Hk as (a & <- & Ha).
    destruct (Hfrom a Ha) as (k' & t' & Hin' & Hlt & ->).
    cbn [annotate a_websiteUrl] in Hin.
    pose proof (mapGet_in _ _ _ Huniq Hin) as E1.
    pose proof (mapGet_in _ _ _ Huniq Hin') as E2.
    rewrite E1 in E2. injection E2 as ->. lia.
  - intros Hlive. split.
    + exists (annotate (now w) k t). cbn [ss_activeTimers].
      split; [now apply Hto|].
      cbn [annotate a_websiteUrl a_duration a_startTime a_endTime
           a_remainingMs a_remainingFormatted].
      repeat (split; [reflexivity|]).
      apply formatTimeRemaining_spec. lia.
    + rewrite Hkeep.
      * now apply mapGet_in.
      * intros t' Hin'.
        pose proof (mapGet_in _ _ _ Huniq Hin) as E1.
        pose proof (mapGet_in _ _ _ Huniq Hin') as E2.
        rewrite E1 in E2. now injection E2 as <-.
Qed.

(** *** The deep block and the student mode *)

Lemma mapGet_mapSet_same {V} (k : string) (v : V) (m : list (string * V)) :
  mapGet k (mapSet k v m) = Some v.
Proof.
  induction m as [|[k' v'] r IH]; simpl.
  - now rewrite String.eqb_refl.
  - destruct (String.eqb k k') eqn:E; simpl.
    + now rewrite String.eqb_refl.
    + now rewrite E.
Qed.

(** A basic block that succeeds was asked by an elevated process for a
    domain that is not empty. *)
Lemma blockWebsite_resolved (websiteUrl m : string) (w w1 : World) :
  blockWebsite websiteUrl w = (Resolve m, w1) ->
  isRunningAsAdmin w = true /\ websiteUrl <> "".
Proof.
  unfold blockWebsite.
  destruct (isRunningAsAdmin w); cbn [negb]; [|discriminate].
  destruct (String.eqb websiteUrl "") eqn:E; [discriminate|].
  apply String.eqb_neq in E. now split.
Qed.

(** The outcome of [blockWebsiteDeep] once the basic block succeeded. *)
Lemma blockWebsiteDeep_after_basic (websiteUrl m : string) (w w1 : World) :
  blockWebsite (cleanUrlOf websiteUrl) w = (Resolve m, w1) ->
  let domain := cleanUrlOf websiteUrl in
  blockWebsiteDeep websiteUrl w
  = match fsCall w1 with
    | (Some _, w2) => (Resolve (msgBasicLevel domain), w2)
    | (None, w2) =>
        if deepBlockExists domain (hosts w2)
        then (Resolve (msgDeepBlocked domain),
              fold_left (fun acc c => exec c acc) dnsCommands w2)
        else
          match fsCall w2 with
          | (Some _, w3) => (Resolve (msgBasicLevel domain), w3)
          | (None, w3) =>
              (Resolve (msgDeepBlocked domain),
               fold_left (fun acc c => exec c acc) dnsCommands
                 (setHosts
                    (hosts w2
                       ++ (nl ++ nl ++ "# Student Mode Deep Blocking Entries" ++ nl)
                       ++ join nl (additionalBlocks domain) ++ nl) w3))
          end
    end.
Proof.
  intros Hbasic. cbv zeta.
  destruct (blockWebsite_resolved _ _ _ _ Hbasic) as [Hadmin Hne].
  apply String.eqb_neq in Hne.
  unfold blockWebsiteDeep. rewrite Hadmin, Hne, Hbasic. cbn [negb].
  destruct (fsCall w1) as [[e|] w2]; [reflexivity|].
  destruct (deepBlockExists _ (hosts w2)); [reflexivity|].
  destruct (fsCall w2) as [[e|] w3]; reflexivity.
Qed.

(** C10: whenever the basic block of the cleaned domain succeeds,
    [blockWebsiteDeep] resolves with a success: when reading the hosts
    file again fails, or writing the additional entries fails, the
    success is the one of the basic level, the hosts file staying as the
    basic block left it; the commands of the DNS sequence cannot fail the
    call.  Consequently [blockWebsiteStudentMode], for a valid duration,
    resolves with a success and registers its timer and its timeout
    whatever the deep block did. *)
Theorem deep_block_never_fails_after_basic
        (w w1 : World) (websiteUrl m : string)
        (Hbasic : blockWebsite (cleanUrlOf websiteUrl) w = (Resolve m, w1)) :
  let domain := cleanUrlOf websiteUrl in
  (exists m' w2,
      blockWebsiteDeep websiteUrl w = (Resolve m', w2)
      /\ (m' = msgDeepBlocked domain \/ m' = msgBasicLevel domain))
  /\ (forall e rest,
         faults w1 = Some e :: rest ->
         blockWebsiteDeep websiteUrl w
         = (Resolve (msgBasicLevel domain), setFaults rest w1))
  /\ (forall e rest,
         faults w1 = None :: Some e :: rest ->
         deepBlockExists domain (hosts w1) = false ->
         blockWebsiteDeep websiteUrl w
         = (Resolve (msgBasicLevel domain), setFaults rest w1))
  /\ (forall duration,
         parseDuration duration <> 0 ->
         exists m' w2 r w3,
           blockWebsiteDeep websiteUrl w = (Resolve m', w2)
           /\ blockWebsiteStudentMode websiteUrl duration w = (Resolve r, w3)
           /\ hosts w3 = hosts w2
           /\ sb_endTime r = now w2 + parseDuration duration
           /\ mapGet websiteUrl (timers w3)
              = Some (mkTimer websiteUrl duration (sb_endTime r) (now w2)
                        (nextTimeoutId w2))
           /\ In (mkTimeout (nextTimeoutId w2) websiteUrl (sb_endTime r))
                 (pending w3)).
Proof.
  cbv zeta.
  pose proof (blockWebsiteDeep_after_basic _ _ _ _ Hbasic) as Hdeep.
  cbv zeta in Hdeep.
  assert (Hres : exists m' w2,
             blockWebsiteDeep websiteUrl w = (Resolve m', w2)
             /\ (m' = msgDeepBlocked (cleanUrlOf websiteUrl)
                 \/ m' = msgBasicLevel (cleanUrlOf websiteUrl))).
  { rewrite Hdeep.
    destruct (fsCall w1) as [[e|] w2]; [now eauto|].
    destruct (deepBlockExists _ (hosts w2)); [now eauto|].
    destruct (fsCall w2) as [[e|] w3]; now eauto. }
  split; [exact Hres|]. split; [|split].
  - intros e rest Hf. rewrite Hdeep. unfold fsCall. now rewrite Hf.
  - intros e rest Hf Hnodeep. rewrite Hdeep. unfold fsCall. rewrite Hf.
    wsimpl. rewrite Hnodeep. reflexivity.
  - intros duration Hdur.
    destruct Hres as (m' & w2 & Hd & _).
    destruct (blockWebsite_resolved _ _ _ _ Hbasic) as [Hadmin _].
    assert (Hadmin' : isRunningAsAdmin w = true).
    { revert Hd. unfold blockWebsiteDeep.
      destruct (isRunningAsAdmin w); [reflexivity | discriminate]. }
    apply Z.eqb_neq in Hdur.
    unfold blockWebsiteStudentMode. rewrite Hadmin', Hdur, Hd.
    cbn [negb setTimeout].
    eexists m', w2, _, _. split; [reflexivity|]. split; [reflexivity|].
    wsimpl. cbn [sb_endTime].
    split; [reflexivity|]. split; [reflexivity|].
    split; [apply mapGet_mapSet_same|].
    apply in_or_app. right. now left.
Qed.

(** *** The expiry of a timer *)

(** The callback of a timer stored under a canonical domain is stopped
    by the guard of [unblockWebsite], which still finds the entry of the
    timer that expires: nothing is unblocked, removed or sent. *)
Lemma onTimerExpired_stopped_by_guard
      (w : World) (websiteUrl : string) (timerData : Timer) :
  isRunningAsAdmin w = true ->
  cleanUrlOf websiteUrl = websiteUrl -> websiteUrl <> "" ->
  mapGet websiteUrl (timers w) = Some timerData ->
  onTimerExpired websiteUrl w = w.
Proof.
  intros Hadmin Hcanon Hne Htimer.
  unfold onTimerExpired, unblockWebsite.
  apply String.eqb_neq in Hne.
  now rewrite Hadmin, Hcanon, Hne, Htimer.
Qed.

(** The test of [blockWebsite] for a website that is blocked already
    looks for the binding anywhere in the hosts file: the binding of a
    longer name that starts with the domain passes for it. *)
Lemma blockWebsite_takes_longer_name (w : World) (websiteUrl rest : string) :
  isRunningAsAdmin w = true -> healthy w -> cleanUrlOf websiteUrl <> "" ->
  includes ("127.0.0.1 " ++ cleanUrlOf websiteUrl ++ rest) (hosts w) = true ->
  blockWebsite websiteUrl w
  = (Resolve (msgAlreadyBlocked (cleanUrlOf websiteUrl)), snd (fsCall w))
  /\ hosts (snd (fsCall w)) = hosts w.
Proof.
  intros Hadmin Hfs Hurl Hlong.
  rewrite (blockWebsite_healthy w websiteUrl Hadmin Hfs Hurl).
  apply includes_elim in Hlong. destruct Hlong as (u & v & E).
  assert (I : includes ("127.0.0.1 " ++ cleanUrlOf websiteUrl) (hosts w) = true).
  { rewrite E.
    replace (u ++ ("127.0.0.1 " ++ cleanUrlOf websiteUrl ++ rest) ++ v)
      with (u ++ ("127.0.0.1 " ++ cleanUrlOf websiteUrl) ++ (rest ++ v))
      by (rewrite !append_assoc; reflexivity).
    apply includes_intro. }
  rewrite I. cbn [orb]. split; [reflexivity|].
  now destruct (fsCall_healthy w Hfs) as (_ & _ & H & _).
Qed.

(** C8 fails once google.com.au is blocked: two calls of [blockWebsite]
    for google.com then both answer that the website is blocked already
    and write nothing, so that none of the four lines of google.com is
    in the hosts file; and [unblockWebsite] for google.com, which has no
    line of its own and no timer, removes the four lines of
    google.com.au instead of finding nothing. *)
Theorem block_takes_longer_domain_for_blocked :
  let first := blockWebsite "google.com.au" freshWorld in
  let second := blockWebsite "google.com" (snd first) in
  let third := blockWebsite "google.com" (snd second) in
  let unblocked := unblockWebsite "google.com" (snd third) in
  fst first = Resolve (msgBlocked "google.com.au")
  /\ fst second = Resolve (msgAlreadyBlocked "google.com")
  /\ fst third = Resolve (msgAlreadyBlocked "google.com")
  /\ hosts (snd third) = hosts (snd first)
  /\ map (count_occ string_dec (split LF (hosts (snd third))))
         (blockLines "google.com") = [0; 0; 0; 0]%nat
  /\ map (count_occ string_dec (split LF (hosts (snd third))))
         (blockLines "google.com.au") = [1; 1; 1; 1]%nat
  /\ mapGet "google.com" (timers (snd third)) = None
  /\ fst unblocked = Resolve (msgUnblocked "google.com" 4)
  /\ map (count_occ string_dec (split LF (hosts (snd unblocked))))
         (blockLines "google.com.au") = [0; 0; 0; 0]%nat.
Proof. vm_compute. repeat split. Qed.

(** C1 on the input of the specification: y.com is blocked for ten
    seconds on an elevated process with two windows; ten seconds later
    the timeout is due and its callback runs.  The callback asks
    [unblockWebsite], which rejects because the timer of y.com is still
    registered: the bindings stay in the hosts file, the entry stays in
    the registry and no window is notified. *)
Theorem expiry_leaves_canonical_domain_blocked :
  let started := blockWebsiteStudentMode "y.com" "10sec" freshWorld in
  let due := elapse 10000 (snd started) in
  let after := fireTimeout 0 due in
  isResolved (fst started) = true
  /\ pending due = [mkTimeout 0 "y.com" (now due)]
  /\ pending after = []
  /\ fst (unblockWebsite "y.com" (clearTimeout 0 due))
     = Reject (msgTimerActive "y.com" "0s")
  /\ hosts after = hosts (snd started)
  /\ includes "127.0.0.1 y.com" (hosts after) = true
  /\ mapGet "y.com" (timers after)
     = Some (mkTimer "y.com" "10sec" 11000 1000 0)
  /\ sent after = [].
Proof. vm_compute. repeat split. Qed.

(** C3 on the input of the claim: the timer of
    https://www.example.com/x is stored under that string, not under
    example.com, so the guard of [unblockWebsite], which looks the
    canonical domain up, lets a manual unblock through; a second call
    with the same string replaces the entry but leaves the first timeout
    pending, and a second call with another spelling of the domain adds
    a second entry. *)
Theorem student_timer_keyed_by_raw_url :
  let url := "https://www.example.com/x" in
  let first := blockWebsiteStudentMode url "1d" freshWorld in
  let second := blockWebsiteStudentMode url "10sec" (snd first) in
  let other := blockWebsiteStudentMode "example.com" "10sec" (snd first) in
  isResolved (fst first) = true
  /\ cleanUrlOf url = "example.com"
  /\ map fst (timers (snd first)) = [url]
  /\ mapGet "example.com" (timers (snd first)) = None
  /\ fst (unblockWebsite "example.com" (snd first))
     = Resolve (msgUnblocked "example.com" 4)
  /\ isResolved (fst second) = true
  /\ map (fun e => (fst e, t_duration (snd e), t_timeoutId (snd e)))
         (timers (snd second)) = [(url, "10sec", 1%nat)]
  /\ map to_id (pending (snd second)) = [0%nat; 1%nat]
  /\ isResolved (fst other) = true
  /\ map fst (timers (snd other)) = [url; "example.com"].
Proof. vm_compute. repeat split. Qed.

(** *** Instances of the theorems *)


Lemma block_unblock_idempotent_witness :
  exists m1 w1 w2,
    blockWebsite "x.com" freshWorld = (Resolve m1, w1)
    /\ blockWebsite "x.com" w1 = (Resolve (msgAlreadyBlocked "x.com"), w2)
    /\ hosts w2 = hosts w1
    /\ count_occ string_dec (split LF (hosts w2)) "127.0.0.1 x.com" = 1%nat.
Proof.
  assert (Hfs : healthy freshWorld) by constructor.
  assert (Hurl : cleanUrlOf "x.com" <> "") by (vm_compute; discriminate).
  destruct (proj1 (block_unblock_idempotent freshWorld "x.com" eq_refl Hfs Hurl))
    as (m1 & w1 & w2 & H1 & H2 & H3 & H4).
  exists m1, w1, w2. repeat split; try assumption.
  apply H4; [reflexivity | reflexivity | now left].
Defined.

(** Ten seconds after a block of ten seconds and a block of one day: the
    first timer is purged, the second is returned with the string of
    the 86390 seconds it has left. *)
Lemma status_purges_stale_timers_witness :
  exists status w',
    getStudentModeStatus staleAndLiveWorld = (Resolve status, w')
    /\ mapGet "a.com" (timers w') = None
    /\ ~ In 0%nat (map to_id (pending w'))
    /\ (exists active,
           In active (ss_activeTimers status)
           /\ a_websiteUrl active = "b.com"
           /\ a_remainingMs active = 86390000
           /\ isRemainingTimeString 86390000 (a_remainingFormatted active))
    /\ map a_remainingFormatted (ss_activeTimers status) = ["23h 59m 50s"].
Proof.
  assert (Huniq : NoDup (map fst (timers staleAndLiveWorld))).
  { vm_compute. repeat constructor.
    - intros [H|[]]. discriminate H.
    - intros []. }
  destruct (status_purges_stale_timers staleAndLiveWorld Huniq)
    as (status & w' & H1 & _ & _ & H2).
  destruct (H2 "a.com" (mkTimer "a.com" "10sec" 11000 1000 0))
    as [Hstale _]; [vm_compute; now left|].
  destruct Hstale as (_ & Hgone & Hcleared); [vm_compute; discriminate|].
  destruct (H2 "b.com" (mkTimer "b.com" "1d" 86401000 1000 1))
    as [_ Hlive]; [vm_compute; right; now left|].
  destruct Hlive as [(active & Ha & Hurl & _ & _ & _ & Hms & Hstr) _];
    [vm_compute; reflexivity|].
  exists status, w'. split; [exact H1|]. split; [exact Hgone|].
  split; [exact Hcleared|]. split.
  - exists active. split; [exact Ha|]. split; [exact Hurl|].
    split; [exact Hms | exact Hstr].
  - assert (E : fst (getStudentModeStatus staleAndLiveWorld)
                = Resolve status) by now rewrite H1.
    vm_compute in E. injection E as <-. reflexivity.
Defined.

(** The read of the deep block fails after the basic block of y.com
    succeeded: the deep block and the student mode both report a success,
    and the hosts file holds the basic block only. *)
Lemma deep_block_never_fails_after_basic_witness :
  blockWebsiteDeep "y.com" faultyWorld
  = (Resolve (msgBasicLevel "y.com"),
     setFaults [] (snd (blockWebsite "y.com" faultyWorld)))
  /\ isResolved (fst (blockWebsiteStudentMode "y.com" "10sec" faultyWorld)) = true
  /\ hosts (snd (blockWebsiteStudentMode "y.com" "10sec" faultyWorld))
     = hosts (snd (blockWebsite "y.com" faultyWorld))
  /\ map fst (timers (snd (blockWebsiteStudentMode "y.com" "10sec" faultyWorld)))
     = ["y.com"].
Proof.
  split; [|vm_compute; repeat split].
  refine (proj1 (proj2 (deep_block_never_fails_after_basic
                          faultyWorld (snd (blockWebsite "y.com" faultyWorld))
                          "y.com" (msgBlocked "y.com") _))
                "EPERM: operation not permitted" [] _);
    vm_compute; reflexivity.
Defined.

End BlockerFacts.

(** ** More on strings *)

Module StringMore.

Import JsStrSpec StringFacts.
Local Open Scope string_scope.

Lemma forallChars_append (p : ascii -> bool) (a b : string) :
  forallChars p (a ++ b) = forallChars p a && forallChars p b.
Proof.
  induction a as [|x a IH]; cbn; [reflexivity|].
  now rewrite IH, andb_assoc.
Qed.

(** A part of a string has the characters of the string. *)
Lemma forallChars_part (p : ascii -> bool) (u l v : string) :
  forallChars p (u ++ l ++ v) = true -> forallChars p l = true.
Proof.
  rewrite !forallChars_append. intros H.
  apply andb_true_iff in H. destruct H as [_ H].
  apply andb_true_iff in H. tauto.
Qed.

Lemma includes_trans (a b c : string) :
  includes a b = true -> includes b c = true -> includes a c = true.
Proof.
  intros H1 H2. apply includes_elim in H1, H2.
  destruct H1 as (u & v & ->), H2 as (u' & v' & ->).
  rewrite !append_assoc, <- (append_assoc u' u). apply includes_intro.
Qed.

Lemma includes_refl (a : string) : includes a a = true.
Proof.
  rewrite <- (append_nil_r a) at 2. apply (includes_intro a "" "").
Qed.

(** An occurrence of [p ++ q] is one of [p]. *)
Lemma includes_prefix (p q s : string) :
  includes p s = false -> includes (p ++ q) s = false.
Proof.
  intros H. destruct (includes (p ++ q) s) eqn:E; [|reflexivity].
  apply includes_elim in E. destruct E as (u & v & ->).
  rewrite append_assoc in H. now rewrite includes_intro in H.
Qed.

Lemma includes_empty (p : string) : p <> "" -> includes p "" = false.
Proof. destruct p; [contradiction | reflexivity]. Qed.

(** *** [trim] *)

Lemma trimEnd_part (s : string) : exists v, s = trimEnd s ++ v.
Proof.
  induction s as [|c s IH]; [now exists ""|].
  cbn. destruct IH as (v & Hv). destruct (trimEnd s) as [|c' r] eqn:E.
  - destruct (isWhiteSpace c).
    + now exists (String c s).
    + exists s. reflexivity.
  - exists v. cbn. now rewrite Hv at 1.
Qed.

Lemma trimStart_part (s : string) : exists u, s = u ++ trimStart s.
Proof.
  induction s as [|c s IH]; [now exists ""|].
  cbn. destruct (isWhiteSpace c).
  - destruct IH as (u & Hu). exists (String c u). cbn. now rewrite <- Hu.
  - now exists "".
Qed.

(** [trim s] is a part of [s]. *)
Lemma trim_part (s : string) : exists u v, s = u ++ trim s ++ v.
Proof.
  unfold trim. destruct (trimEnd_part s) as (v & Hv).
  destruct (trimStart_part (trimEnd s)) as (u & Hu).
  exists u, v. rewrite <- append_assoc, <- Hu. exact Hv.
Qed.

Lemma includes_trim (p s : string) :
  includes p (trim s) = true -> includes p s = true.
Proof.
  intros H. destruct (trim_part s) as (u & v & E). rewrite E.
  apply includes_trans with (trim s); [exact H | apply includes_intro].
Qed.

Lemma trimEnd_clean (s : string) : hasWhiteSpace s = false -> trimEnd s = s.
Proof.
  induction s as [|c s IH]; cbn; [reflexivity|].
  intros H. apply orb_false_iff in H. destruct H as [Hc Hs].
  rewrite (IH Hs), Hc. now destruct s.
Qed.

Lemma trimEnd_append (a b : string) :
  trimEnd b <> "" -> trimEnd (a ++ b) = a ++ trimEnd b.
Proof.
  intros Hb. induction a as [|c a IH]; cbn; [reflexivity|].
  rewrite IH. destruct (a ++ trimEnd b) eqn:E; [|reflexivity].
  destruct a; cbn in E; [contradiction | discriminate].
Qed.

(** A line made of a prefix that does not start with white space and of a
    word with no white space is its own [trim]. *)
Lemma trim_binding (c : ascii) (a d : string) :
  isWhiteSpace c = false -> d <> "" -> hasWhiteSpace d = false ->
  trim (String c a ++ d) = String c a ++ d.
Proof.
  intros Hc Hd Hws. unfold trim.
  rewrite trimEnd_append by (rewrite trimEnd_clean; assumption).
  rewrite trimEnd_clean by assumption. cbn. now rewrite Hc.
Qed.

Lemma hasWhiteSpace_LF (s : string) :
  hasWhiteSpace s = false -> hasChar LF s = false.
Proof.
  induction s as [|c s IH]; cbn [hasWhiteSpace hasChar]; [reflexivity|].
  intros H. apply orb_false_iff in H. destruct H as [Hc Hs].
  rewrite (IH Hs), orb_false_r.
  destruct (Ascii.eqb c LF) eqn:E; [|reflexivity].
  apply Ascii.eqb_eq in E. subst c. discriminate.
Qed.

(** *** [split] and [join] *)

Lemma join_cons (sep x : string) (r : list string) :
  r <> [] -> join sep (x :: r) = x ++ sep ++ join sep r.
Proof. destruct r; [contradiction | reflexivity]. Qed.

Lemma join_app (sep : string) (a b : list string) :
  a <> [] -> b <> [] ->
  join sep (a ++ b) = join sep a ++ sep ++ join sep b.
Proof.
  intros Ha Hb. induction a as [|x r IH]; [contradiction|].
  destruct r as [|y r].
  - cbn [app]. now rewrite join_cons.
  - change ((x :: y :: r) ++ b)%list with (x :: ((y :: r) ++ b))%list.
    rewrite join_cons by discriminate.
    rewrite IH by discriminate.
    rewrite (join_cons sep x (y :: r)) by discriminate.
    now rewrite !append_assoc.
Qed.

(** Joining the lines of a text gives the text back. *)
Lemma join_split (s : string) : join nl (split LF s) = s.
Proof.
  induction s as [|c s IH]; [reflexivity|].
  cbn [split]. destruct (Ascii.eqb c LF) eqn:E.
  - apply Ascii.eqb_eq in E. subst c.
    rewrite join_cons by apply split_nonempty. now rewrite IH.
  - pose proof (split_nonempty LF s) as Hne.
    destruct (split LF s) as [|h t]; [contradiction|].
    destruct t as [|h' t'].
    + cbn in *. now rewrite IH.
    + change (join nl (String c h :: h' :: t'))
        with (String c (join nl (h :: h' :: t'))).
      now rewrite IH.
Qed.

Lemma split_piece_clean (c : ascii) (s l : string) :
  In l (split c s) -> hasChar c l = false.
Proof.
  revert l. induction s as [|x s IH]; intros l; cbn.
  - now intros [<-|[]].
  - destruct (Ascii.eqb x c) eqn:E.
    + intros [<-|H]; [reflexivity | now apply IH].
    + pose proof (split_nonempty c s) as Hne.
      destruct (split c s) as [|h t]; [contradiction|].
      intros [<-|H].
      * cbn. rewrite E. apply IH. now left.
      * apply IH. now right.
Qed.

(** Splitting the join of lines gives the lines back. *)
Lemma split_join (lines : list string) :
  lines <> [] -> Forall (fun l => hasChar LF l = false) lines ->
  split LF (join nl lines) = lines.
Proof.
  induction lines as [|x r IH]; [contradiction|].
  intros _ H. inversion H as [|? ? Hx Hr]; subst.
  destruct r as [|y r]; [now apply split_whole|].
  rewrite join_cons by discriminate.
  change (x ++ nl ++ join nl (y :: r)) with (x ++ String LF (join nl (y :: r))).
  rewrite split_append, split_whole by exact Hx.
  rewrite IH by (discriminate || exact Hr). reflexivity.
Qed.


(** *** [toLowerCase] *)

Lemma lowerChar_idem (c : ascii) : lowerChar (lowerChar c) = lowerChar c.
Proof. destruct c as [[] [] [] [] [] [] [] []]; reflexivity. Qed.

Lemma toLowerCase_lowered (s : string) :
  forallChars isLowered (toLowerCase s) = true.
Proof.
  induction s as [|c s IH]; cbn; [reflexivity|].
  unfold isLowered at 1. now rewrite lowerChar_idem, Ascii.eqb_refl, IH.
Qed.

Lemma lowered_fixed (s : string) :
  forallChars isLowered s = true -> toLowerCase s = s.
Proof.
  induction s as [|c s IH]; cbn; [reflexivity|].
  intros H. apply andb_true_iff in H. destruct H as [Hc Hs].
  apply Ascii.eqb_eq in Hc. now rewrite Hc, IH.
Qed.

End StringMore.

(** ** The blocker: frames, invariants and compositions *)

Module BlockerMore.

Import JsStrSpec Blocker BlockerSpec StringFacts StringMore BlockerFacts.
Local Open Scope Z_scope.
Local Open Scope string_scope.

(** *** Frames *)

Lemma sameProcess_refl (w : World) : sameProcess w w.
Proof. unfold sameProcess. repeat split. Qed.

Lemma sameProcess_trans (w1 w2 w3 : World) :
  sameProcess w1 w2 -> sameProcess w2 w3 -> sameProcess w1 w3.
Proof. unfold sameProcess. intuition congruence. Qed.

Lemma fsCall_same (w : World) :
  sameProcess w (snd (fsCall w)) /\ hosts (snd (fsCall w)) = hosts w.
Proof.
  unfold fsCall, sameProcess. destruct (faults w); cbn; repeat split.
Qed.

Lemma setHosts_same (h : string) (w : World) : sameProcess w (setHosts h w).
Proof. unfold sameProcess. repeat split. Qed.

Lemma exec_same (c : string) (w : World) :
  sameProcess w (exec c w) /\ hosts (exec c w) = hosts w.
Proof. unfold sameProcess. repeat split. Qed.

Lemma dnsCommands_same (w : World) :
  sameProcess w (fold_left (fun acc c => exec c acc) dnsCommands w)
  /\ hosts (fold_left (fun acc c => exec c acc) dnsCommands w) = hosts w.
Proof. unfold sameProcess. repeat split. Qed.

(** [blockWebsite] touches neither the registry nor the timeouts, and a
    rejection of it leaves the hosts file as it was. *)
Lemma blockWebsite_frame (websiteUrl : string) (w : World) :
  sameProcess w (snd (blockWebsite websiteUrl w))
  /\ (isResolved (fst (blockWebsite websiteUrl w)) = false ->
      hosts (snd (blockWebsite websiteUrl w)) = hosts w).
Proof.
  unfold blockWebsite.
  destruct (negb (isRunningAsAdmin w));
    [split; [apply sameProcess_refl | reflexivity]|].
  destruct (String.eqb websiteUrl "");
    [split; [apply sameProcess_refl | reflexivity]|].
  destruct (String.eqb (cleanUrlOf websiteUrl) "");
    [split; [apply sameProcess_refl | reflexivity]|].
  destruct (fsCall_same w) as [S1 H1].
  destruct (fsCall w) as [r1 w1]. cbn [snd] in S1, H1.
  destruct (includes _ _ || includes _ _); [split; [exact S1 | now intros _]|].
  destruct (fsCall_same w1) as [S2 H2].
  destruct (fsCall w1) as [[m|] w2]; cbn [snd fst isResolved] in *.
  - split; [now apply sameProcess_trans with w1 | intros _; congruence].
  - split; [|discriminate].
    apply sameProcess_trans with w2; [now apply sameProcess_trans with w1|].
    unfold sameProcess. repeat split.
Qed.

Lemma blockWebsiteDeep_frame (websiteUrl : string) (w : World) :
  sameProcess w (snd (blockWebsiteDeep websiteUrl w))
  /\ (isResolved (fst (blockWebsiteDeep websiteUrl w)) = false ->
      hosts (snd (blockWebsiteDeep websiteUrl w)) = hosts w).
Proof.
  unfold blockWebsiteDeep.
  destruct (negb (isRunningAsAdmin w));
    [split; [apply sameProcess_refl | reflexivity]|].
  destruct (String.eqb (cleanUrlOf websiteUrl) "");
    [split; [apply sameProcess_refl | reflexivity]|].
  destruct (blockWebsite_frame (cleanUrlOf websiteUrl) w) as [S1 R1].
  destruct (blockWebsite (cleanUrlOf websiteUrl) w) as [[m|m] w1];
    cbn [fst snd isResolved] in *; [|split; [exact S1 | intros _; now apply R1]].
  destruct (fsCall_same w1) as [S2 _].
  destruct (fsCall w1) as [[e|] w2]; cbn [snd] in S2.
  - split; [now apply sameProcess_trans with w1 | discriminate].
  - destruct (deepBlockExists _ _).
    + split; [|discriminate].
      apply sameProcess_trans with w2; [now apply sameProcess_trans with w1|].
      apply dnsCommands_same.
    + destruct (fsCall_same w2) as [S3 _].
      destruct (fsCall w2) as [[e|] w3]; cbn [snd] in S3.
      * split; [|discriminate].
        apply sameProcess_trans with w2; [now apply sameProcess_trans with w1|].
        exact S3.
      * split; [|discriminate].
        apply sameProcess_trans with w3;
          [apply sameProcess_trans with w2;
           [now apply sameProcess_trans with w1 | exact S3]|].
        unfold sameProcess. repeat split.
Qed.

(** X2: a [blockWebsiteStudentMode] that rejects, for whatever reason (no
    elevation, unknown duration, invalid URL, failed write), has changed
    neither the hosts file nor the registry, and has scheduled nothing. *)
Theorem student_block_rejection_is_atomic
        (w w' : World) (websiteUrl duration m : string)
        (Hrej : blockWebsiteStudentMode websiteUrl duration w = (Reject m, w')) :
  hosts w' = hosts w /\ timers w' = timers w /\ pending w' = pending w
  /\ nextTimeoutId w' = nextTimeoutId w /\ sent w' = sent w.
Proof.
  revert Hrej. unfold blockWebsiteStudentMode.
  destruct (negb (isRunningAsAdmin w)); [now intros [= _ <-]|].
  destruct (parseDuration duration =? 0)%Z; [now intros [= _ <-]|].
  destruct (blockWebsiteDeep_frame websiteUrl w) as [S R].
  destruct (blockWebsiteDeep websiteUrl w) as [[m0|m0] w1];
    cbn [fst snd isResolved setTimeout] in *; [discriminate|].
  intros [= _ <-]. unfold sameProcess in S.
  split; [now apply R | tauto].
Qed.

(** A student block whose write of the hosts file fails. *)
Lemma student_block_rejection_is_atomic_witness :
  hosts (snd (blockWebsiteStudentMode "example.com" "1d"
                (setFaults [None; Some "EPERM: operation not permitted"]
                   freshWorld))) = ""
  /\ pending (snd (blockWebsiteStudentMode "example.com" "1d"
                     (setFaults [None; Some "EPERM: operation not permitted"]
                        freshWorld))) = [].
Proof.
  destruct (student_block_rejection_is_atomic
              (setFaults [None; Some "EPERM: operation not permitted"]
                 freshWorld)
              (snd (blockWebsiteStudentMode "example.com" "1d"
                      (setFaults [None; Some "EPERM: operation not permitted"]
                         freshWorld)))
              "example.com" "1d"
              "Failed to block website in student mode: Failed to deep block website: Failed to modify hosts file: EPERM: operation not permitted. Make sure the application is running as administrator.")
    as (H1 & _ & H3 & _).
  - vm_compute. reflexivity.
  - split; [exact H1 | exact H3].
Defined.

(** *** Timeouts *)

Lemma find_cleared (id : nat) (l : list Timeout) :
  find (fun t => Nat.eqb (to_id t) id)
       (filter (fun t => negb (Nat.eqb (to_id t) id)) l) = None.
Proof.
  induction l as [|t r IH]; cbn; [reflexivity|].
  destruct (Nat.eqb (to_id t) id) eqn:E; cbn; [exact IH|].
  now rewrite E.
Qed.

Lemma find_absent (id : nat) (l : list Timeout) :
  ~ In id (map to_id l) -> find (fun t => Nat.eqb (to_id t) id) l = None.
Proof.
  induction l as [|t r IH]; cbn; [reflexivity|].
  intros H. destruct (Nat.eqb (to_id t) id) eqn:E.
  - apply Nat.eqb_eq in E. tauto.
  - apply IH. tauto.
Qed.

Lemma onTimerExpired_pending (websiteUrl : string) (w : World) :
  pending (onTimerExpired websiteUrl w) = pending w
  /\ nextTimeoutId (onTimerExpired websiteUrl w) = nextTimeoutId w.
Proof.
  unfold onTimerExpired.
  pose proof (unblockWebsite_frame websiteUrl w) as (_ & _ & _ & Hp & _).
  assert (Hn : nextTimeoutId (snd (unblockWebsite websiteUrl w))
               = nextTimeoutId w).
  { unfold unblockWebsite, fsCall.
    destruct (negb (isRunningAsAdmin w)); [reflexivity|].
    destruct (String.eqb (cleanUrlOf websiteUrl) ""); [reflexivity|].
    destruct (mapGet (cleanUrlOf websiteUrl) (timers w)); [reflexivity|].
    destruct (faults w) as [|[e|] r]; wsimpl; try reflexivity;
      destruct (filterLines _ _) as [filtered [|n]]; wsimpl; try reflexivity;
      try (destruct r as [|[e|] r']; reflexivity).
    destruct (faults w) as [|[e|] r]; reflexivity. }
  destruct (unblockWebsite websiteUrl w) as [[m|m] w1]; cbn [snd] in *;
    now split.
Qed.

(** X6: a timeout runs at most once: when the event loop is asked to run
    the callback of the same id again, nothing happens. *)
Theorem timeout_fires_at_most_once (id : nat) (w : World) :
  fireTimeout id (fireTimeout id w) = fireTimeout id w.
Proof.
  unfold fireTimeout at 2.
  destruct (find (fun t => Nat.eqb (to_id t) id) (pending w)) as [t|] eqn:F.
  - destruct (to_due t <=? now w)%Z eqn:D.
    + unfold fireTimeout.
      rewrite (proj1 (onTimerExpired_pending _ _)).
      unfold clearTimeout. cbn [pending setPending].
      rewrite find_cleared. now rewrite F, D.
    + unfold fireTimeout. now rewrite F, D.
  - unfold fireTimeout. now rewrite F.
Qed.

(** X5: [cancelStudentMode] for a URL with a timer removes the entry and
    clears its timeout before it unblocks, and does not put them back: they
    are gone whether the call resolves or rejects (an [unblockWebsite] that
    fails leaves the website blocked with no timer), the timers of the
    other URLs stay, and the callback of the cancelled timer can no longer
    run.  For a URL with no timer the call rejects and changes nothing. *)
Theorem cancel_always_drops_the_timer
        (w : World) (websiteUrl : string) (timerData : Timer)
        (Htimer : mapGet websiteUrl (timers w) = Some timerData) :
  let w' := snd (cancelStudentMode websiteUrl w) in
  mapGet websiteUrl (timers w') = None
  /\ ~ In (t_timeoutId timerData) (map to_id (pending w'))
  /\ fireTimeout (t_timeoutId timerData) w' = w'
  /\ (forall other, other <> websiteUrl ->
        mapGet other (timers w') = mapGet other (timers w))
  /\ (forall other, mapGet other (timers w) = None ->
        cancelStudentMode other w = (Reject (msgNoTimer other), w)).
Proof.
  cbv zeta.
  assert (Hlast : forall other, mapGet other (timers w) = None ->
            cancelStudentMode other w = (Reject (msgNoTimer other), w))
    by (intros other Hnone; unfold cancelStudentMode; now rewrite Hnone).
  unfold cancelStudentMode. rewrite Htimer.
  set (w2 := setTimers _ (clearTimeout _ w)).
  pose proof (unblockWebsite_frame websiteUrl w2) as (Ht & _ & _ & Hp & _).
  assert (Ht2 : timers w2 = mapDelete websiteUrl (timers w)) by reflexivity.
  assert (Hp2 : ~ In (t_timeoutId timerData) (map to_id (pending w2)))
    by (subst w2; cbn [pending setTimers]; apply clearTimeout_removes).
  clearbody w2.
  destruct (unblockWebsite websiteUrl w2) as [[m|m] w3]; cbn [snd] in *;
    rewrite Ht, Hp, Ht2;
    (split; [apply mapGet_mapDelete_same|]);
    (split; [exact Hp2|]);
    (split; [unfold fireTimeout; rewrite find_absent by (now rewrite Hp);
             reflexivity|]);
    (split; [intros other Hne; now apply mapGet_mapDelete_other | exact Hlast]).
Qed.

Lemma cancel_always_drops_the_timer_witness :
  mapGet "example.com" (timers (snd (cancelStudentMode "example.com" timedWorld)))
  = None.
Proof.
  refine (proj1 (cancel_always_drops_the_timer timedWorld "example.com"
                   (mkTimer "example.com" "1d" 86401000 1000 0) _)).
  vm_compute. reflexivity.
Defined.

(** *** The invariant of the timer state *)

Lemma unblockWebsite_same (websiteUrl : string) (w : World) :
  sameProcess w (snd (unblockWebsite websiteUrl w)).
Proof.
  unfold unblockWebsite.
  destruct (negb (isRunningAsAdmin w)); [apply sameProcess_refl|].
  destruct (String.eqb (cleanUrlOf websiteUrl) ""); [apply sameProcess_refl|].
  destruct (mapGet (cleanUrlOf websiteUrl) (timers w)); [apply sameProcess_refl|].
  destruct (fsCall_same w) as [S1 _].
  destruct (fsCall w) as [[e|] w1]; cbn [snd] in S1; [exact S1|].
  destruct (filterLines _ _) as [filtered [|n]]; [exact S1|].
  destruct (fsCall_same w1) as [S2 _].
  destruct (fsCall w1) as [[e|] w2]; cbn [snd] in S2.
  - now apply sameProcess_trans with w1.
  - apply sameProcess_trans with w2; [now apply sameProcess_trans with w1|].
    unfold sameProcess. repeat split.
Qed.

Lemma wellFormed_same (w w' : World) :
  sameProcess w w' -> wellFormed w -> wellFormed w'.
Proof.
  unfold sameProcess, wellFormed. intros (-> & -> & -> & _). tauto.
Qed.

Lemma NoDup_map_filter {X Y} (f : X -> Y) (p : X -> bool) (l : list X) :
  NoDup (map f l) -> NoDup (map f (filter p l)).
Proof.
  induction l as [|x r IH]; cbn; [auto|].
  intros H. inversion H as [|? ? Hnotin Hnd]; subst.
  destruct (p x); cbn; [|now apply IH].
  constructor; [|now apply IH].
  intros Hin. apply Hnotin. apply in_map_iff in Hin.
  destruct Hin as (y & <- & Hy). apply filter_In in Hy.
  apply in_map. tauto.
Qed.

Lemma Forall_filter {X} (P : X -> Prop) (p : X -> bool) (l : list X) :
  Forall P l -> Forall P (filter p l).
Proof.
  intros H. apply Forall_forall. intros x Hx. apply filter_In in Hx.
  rewrite Forall_forall in H. apply H. tauto.
Qed.

(** Clearing a timeout and deleting an entry keep the state well formed. *)
Lemma wellFormed_drop (id : nat) (k : string) (w : World) :
  wellFormed w ->
  wellFormed (setTimers (mapDelete k (timers (clearTimeout id w)))
                        (clearTimeout id w)).
Proof.
  unfold wellFormed, clearTimeout. wsimpl. intros (H1 & H2 & H3).
  split; [now apply mapDelete_nodup|].
  split; [now apply NoDup_map_filter | now apply Forall_filter].
Qed.

Lemma wellFormed_delete (k : string) (w : World) :
  wellFormed w -> wellFormed (setTimers (mapDelete k (timers w)) w).
Proof.
  unfold wellFormed. wsimpl. intros (H1 & H2 & H3).
  split; [now apply mapDelete_nodup | tauto].
Qed.

Lemma wellFormed_statusLoop (currentTime : Z) (entries : list (string * Timer))
      (w : World) :
  wellFormed w -> wellFormed (snd (statusLoop currentTime entries w)).
Proof.
  revert w. induction entries as [|[k t] rest IH]; intros w H; [exact H|].
  cbn [statusLoop]. destruct (0 <? t_endTime t - currentTime)%Z.
  - specialize (IH w H).
    now destruct (statusLoop currentTime rest w) as [acts w'].
  - apply IH. now apply wellFormed_drop.
Qed.

Lemma wellFormed_onTimerExpired (websiteUrl : string) (w : World) :
  wellFormed w -> wellFormed (onTimerExpired websiteUrl w).
Proof.
  intros H. unfold onTimerExpired.
  pose proof (wellFormed_same _ _ (unblockWebsite_same websiteUrl w) H) as H1.
  destruct (unblockWebsite websiteUrl w) as [[m|m] w1]; cbn [snd] in H1;
    [|exact H1].
  apply (wellFormed_delete websiteUrl) in H1.
  unfold wellFormed in *. wsimpl.
  cbn [timers pending nextTimeoutId setTimers] in H1. exact H1.
Qed.

(** X7: every operation keeps the timer state well formed: the keys of the
    registry stay distinct, the pending timeouts keep distinct ids, and the
    ids stay below the next id [setTimeout] hands out. *)
Theorem timer_state_stays_well_formed (w : World) (Hwf : wellFormed w) :
  forall (websiteUrl duration : string) (id : nat) (ms : Z),
    wellFormed (snd (blockWebsite websiteUrl w))
    /\ wellFormed (snd (blockWebsiteDeep websiteUrl w))
    /\ wellFormed (snd (unblockWebsite websiteUrl w))
    /\ wellFormed (snd (blockWebsiteStudentMode websiteUrl duration w))
    /\ wellFormed (snd (cancelStudentMode websiteUrl w))
    /\ wellFormed (snd (getStudentModeStatus w))
    /\ wellFormed (fireTimeout id w)
    /\ wellFormed (elapse ms w).
Proof.
  intros websiteUrl duration id ms.
  split; [exact (wellFormed_same _ _ (proj1 (blockWebsite_frame _ _)) Hwf)|].
  split; [exact (wellFormed_same _ _ (proj1 (blockWebsiteDeep_frame _ _)) Hwf)|].
  split; [exact (wellFormed_same _ _ (unblockWebsite_same _ _) Hwf)|].
  split; [|split; [|split; [|split]]].
  - unfold blockWebsiteStudentMode.
    destruct (negb (isRunningAsAdmin w)); [exact Hwf|].
    destruct (parseDuration duration =? 0)%Z; [exact Hwf|].
    pose proof (wellFormed_same _ _ (proj1 (blockWebsiteDeep_frame websiteUrl w)) Hwf)
      as H1.
    destruct (blockWebsiteDeep websiteUrl w) as [[m|m] w1]; cbn [snd] in *;
      [|exact H1].
    destruct H1 as (H1 & H2 & H3). unfold wellFormed, setTimeout. wsimpl.
    split; [now apply mapSet_nodup|]. split.
    + rewrite map_app. cbn [map to_id].
      apply NoDup_app_remove_l with (l := []). cbn [app].
      apply Permutation_NoDup with (l := nextTimeoutId w1 :: map to_id (pending w1)).
      * apply Permutation_cons_append.
      * constructor; [|exact H2]. intros Hin. apply in_map_iff in Hin.
        destruct Hin as (t & E & Ht). rewrite Forall_forall in H3.
        specialize (H3 t Ht). lia.
    + apply Forall_app. split.
      * eapply Forall_impl; [|exact H3]. cbn. intros t Ht. lia.
      * repeat constructor.
  - unfold cancelStudentMode.
    destruct (mapGet websiteUrl (timers w)) as [t|]; [|exact Hwf].
    pose proof (wellFormed_drop (t_timeoutId t) websiteUrl w Hwf) as H1.
    set (w2 := setTimers _ (clearTimeout _ w)) in *.
    pose proof (wellFormed_same _ _ (unblockWebsite_same websiteUrl w2) H1) as H2.
    now destruct (unblockWebsite websiteUrl w2) as [[m|m] w3].
  - unfold getStudentModeStatus.
    pose proof (wellFormed_statusLoop (now w) (timers w) w Hwf) as H1.
    now destruct (statusLoop (now w) (timers w) w) as [acts w'].
  - unfold fireTimeout.
    destruct (find _ (pending w)) as [t|]; [|exact Hwf].
    destruct (to_due t <=? now w)%Z; [|exact Hwf].
    apply wellFormed_onTimerExpired.
    unfold wellFormed, clearTimeout in *. wsimpl.
    destruct Hwf as (H1 & H2 & H3).
    split; [exact H1|].
    split; [now apply NoDup_map_filter | now apply Forall_filter].
  - exact Hwf.
Qed.

(** The fresh world is well formed, and so is the world after a student
    block. *)
Lemma timer_state_stays_well_formed_witness : wellFormed timedWorld.
Proof.
  assert (H0 : wellFormed freshWorld).
  { unfold wellFormed. cbn. repeat constructor. }
  exact (proj1 (proj2 (proj2 (proj2
           (timer_state_stays_well_formed freshWorld H0
              "example.com" "1d" O 0%Z))))).
Defined.

(** *** The status query, exactly *)

Lemma mapDelete_absent {V} (k : string) (m : list (string * V)) :
  ~ In k (map fst m) -> mapDelete k m = m.
Proof.
  induction m as [|[k0 v] r IH]; cbn; [reflexivity|].
  intros H. destruct (String.eqb k k0) eqn:E.
  - apply String.eqb_eq in E. subst k0. tauto.
  - rewrite IH by tauto. reflexivity.
Qed.

Lemma mapDelete_app {V} (k : string) (a b : list (string * V)) :
  mapDelete k (a ++ b) = (mapDelete k a ++ mapDelete k b)%list.
Proof.
  induction a as [|[k0 v] r IH]; cbn; [reflexivity|].
  destruct (String.eqb k k0); [exact IH | now rewrite IH].
Qed.

(** The loop leaves a registry of the shape [pre ++ entries], where
    [entries] is what is left to visit, as [pre] and the live entries. *)
Lemma statusLoop_exact (currentTime : Z) (entries pre : list (string * Timer))
      (w : World) :
  timers w = (pre ++ entries)%list ->
  NoDup (map fst (pre ++ entries)) ->
  fst (statusLoop currentTime entries w)
  = map (annotateEntry currentTime) (filter (live currentTime) entries)
  /\ timers (snd (statusLoop currentTime entries w))
     = (pre ++ filter (live currentTime) entries)%list
  /\ hosts (snd (statusLoop currentTime entries w)) = hosts w
  /\ now (snd (statusLoop currentTime entries w)) = now w.
Proof.
  revert pre w. induction entries as [|[k t] rest IH]; intros pre w Ht Hnd.
  - cbn. now rewrite Ht.
  - cbn [statusLoop filter].
    change (0 <? t_endTime t - currentTime)%Z with (live currentTime (k, t)).
    destruct (live currentTime (k, t)).
    + specialize (IH (pre ++ [(k, t)])%list w).
      rewrite <- !app_assoc in IH. specialize (IH Ht Hnd).
      destruct (statusLoop currentTime rest w) as [acts w'].
      cbn [fst snd map] in *. destruct IH as (Ha & Hr & Hh & Hn).
      cbn [app] in Hr.
      split; [now rewrite Ha|]. repeat split; assumption.
    + set (w2 := setTimers _ (clearTimeout (t_timeoutId t) w)).
      assert (Ht2 : timers w2 = (pre ++ rest)%list).
      { subst w2. wsimpl. rewrite Ht, mapDelete_app. cbn [mapDelete].
        rewrite String.eqb_refl.
        rewrite map_app in Hnd. cbn [map fst] in Hnd.
        apply NoDup_remove in Hnd. destruct Hnd as [_ Hk].
        rewrite !mapDelete_absent; [reflexivity| |];
          intros Hin; apply Hk; apply in_or_app; tauto. }
      assert (Hnd2 : NoDup (map fst (pre ++ rest))).
      { rewrite map_app in *. cbn [map fst] in Hnd.
        now apply NoDup_remove_1 in Hnd. }
      destruct (IH pre w2 Ht2 Hnd2) as (H1 & H2 & H3 & H4).
      repeat split; assumption.
Qed.

Lemma statusLoop_all_live (currentTime : Z) (entries : list (string * Timer))
      (w : World) :
  forallb (live currentTime) entries = true ->
  statusLoop currentTime entries w
  = (map (annotateEntry currentTime) entries, w).
Proof.
  induction entries as [|[k t] rest IH]; cbn [statusLoop forallb map];
    [reflexivity|].
  intros H. apply andb_true_iff in H. destruct H as [H1 H2].
  unfold live in H1. cbn [snd] in H1. rewrite H1, (IH H2). reflexivity.
Qed.

Lemma forallb_filter {X} (p : X -> bool) (l : list X) :
  forallb p (filter p l) = true.
Proof.
  induction l as [|x r IH]; cbn; [reflexivity|].
  destruct (p x) eqn:E; cbn; [now rewrite E|exact IH].
Qed.

(** X8: [getStudentModeStatus] returns exactly the entries of the registry
    with time left, in the order of the registry and annotated with the
    time left, [count] being their number, and leaves exactly these
    entries in the registry; asked again at the same time it gives the same
    answer and changes nothing. *)
Theorem status_is_the_live_entries
        (w : World) (Huniq : NoDup (map fst (timers w))) :
  let liveEntries := filter (live (now w)) (timers w) in
  let status :=
    mkStudentStatus (map (annotateEntry (now w)) liveEntries)
                    (List.length liveEntries) in
  exists w',
    getStudentModeStatus w = (Resolve status, w')
    /\ timers w' = liveEntries
    /\ getStudentModeStatus w' = (Resolve status, w').
Proof.
  cbv zeta. unfold getStudentModeStatus at 1.
  destruct (statusLoop_exact (now w) (timers w) [] w eq_refl Huniq)
    as (H1 & H2 & _ & H4).
  destruct (statusLoop (now w) (timers w) w) as [acts w'].
  cbn [fst snd app] in *. subst acts.
  exists w'. rewrite length_map. split; [reflexivity|]. split; [exact H2|].
  unfold getStudentModeStatus. rewrite H2, H4.
  rewrite statusLoop_all_live by apply forallb_filter.
  rewrite length_map.
  reflexivity.
Qed.

(** A day and a second after its start the timer of [timedWorld] is not
    live: the status is empty and the registry too. *)
Lemma status_is_the_live_entries_witness :
  exists w',
    getStudentModeStatus (elapse 86401000 timedWorld)
    = (Resolve (mkStudentStatus [] O), w')
    /\ timers w' = [].
Proof.
  assert (Huniq : NoDup (map fst (timers (elapse 86401000 timedWorld)))).
  { vm_compute. repeat constructor. intros []. }
  destruct (status_is_the_live_entries (elapse 86401000 timedWorld) Huniq)
    as (w' & H1 & H2 & _).
  exists w'. split; [exact H1 | exact H2].
Defined.

(** *** The canonical domain *)

Lemma stripPrefix_lowered (p s r : string) :
  stripPrefix p s = Some r ->
  forallChars isLowered s = true -> forallChars isLowered r = true.
Proof.
  intros H Hs. apply stripPrefix_some in H. subst s.
  rewrite forallChars_append in Hs. apply andb_true_iff in Hs. tauto.
Qed.

(** What is left of a lowered URL once the scheme and [www.] are gone
    is lowered. *)
Lemma cleaned_lowered (websiteUrl : string) :
  forallChars isLowered
    (removeWww (removeScheme (toLowerCase (trim websiteUrl)))) = true.
Proof.
  unfold removeWww, removeScheme.
  pose proof (toLowerCase_lowered (trim websiteUrl)) as H0.
  set (x := toLowerCase (trim websiteUrl)) in *.
  assert (H1 : forallChars isLowered
                 match stripPrefix "http://" x with
                 | Some r => r
                 | None => match stripPrefix "https://" x with
                           | Some r => r
                           | None => x
                           end
                 end = true).
  { destruct (stripPrefix "http://" x) eqn:E1;
      [now apply stripPrefix_lowered with (1 := E1)|].
    destruct (stripPrefix "https://" x) eqn:E2;
      [now apply stripPrefix_lowered with (1 := E2) | exact H0]. }
  destruct (stripPrefix "www." _) eqn:E3;
    [now apply stripPrefix_lowered with (1 := E3) | exact H1].
Qed.

Lemma cleanUrlOf_lowered (websiteUrl : string) :
  forallChars isLowered (cleanUrlOf websiteUrl) = true.
Proof.
  unfold cleanUrlOf.
  pose proof (cleaned_lowered websiteUrl) as Hs.
  set (s := removeWww (removeScheme (toLowerCase (trim websiteUrl)))) in *.
  assert (Hin : In (hd "" (split "/" s)) (split "/" s)).
  { pose proof (split_nonempty "/" s). destruct (split "/" s);
      [contradiction | now left]. }
  apply split_in in Hin. destruct Hin as (u & v & E). rewrite E in Hs.
  now apply forallChars_part in Hs.
Qed.

(** X1: the domain the blocking functions work on has no slash and no
    upper-case letter, whatever the URL. *)
Theorem cleanUrlOf_is_lowered_and_has_no_slash (websiteUrl : string) :
  hasChar "/" (cleanUrlOf websiteUrl) = false
  /\ toLowerCase (cleanUrlOf websiteUrl) = cleanUrlOf websiteUrl.
Proof.
  split.
  - unfold cleanUrlOf.
    set (s := removeWww (removeScheme (toLowerCase (trim websiteUrl)))).
    apply split_piece_clean with (s := s).
    pose proof (split_nonempty "/" s). destruct (split "/" s);
      [contradiction | now left].
  - apply lowered_fixed, cleanUrlOf_lowered.
Qed.

(** *** Unblocking *)

Lemma filterLines_app (cleanUrl : string) (a b : list string) :
  filterLines cleanUrl (a ++ b)
  = ((fst (filterLines cleanUrl a) ++ fst (filterLines cleanUrl b))%list,
     (snd (filterLines cleanUrl a) + snd (filterLines cleanUrl b))%nat).
Proof.
  induction a as [|x r IH]; cbn [app filterLines fst snd plus].
  - now destruct (filterLines cleanUrl b).
  - rewrite IH. destruct (filterLines cleanUrl r) as [fa na].
    cbn [fst snd].
    destruct (blocksSite cleanUrl (trim x)); [reflexivity|].
    destruct (isDeepComment (trim x)); reflexivity.
Qed.

Lemma filterLines_kept (cleanUrl : string) (lines : list string) :
  (forall l, In l lines ->
     blocksSite cleanUrl (trim l) = false /\ isDeepComment (trim l) = false) ->
  filterLines cleanUrl lines = (lines, O).
Proof.
  induction lines as [|x r IH]; intros H; [reflexivity|].
  cbn [filterLines]. rewrite IH by (intros l Hl; apply H; now right).
  destruct (H x (or_introl eq_refl)) as [-> ->]. reflexivity.
Qed.

(** What the loop keeps it would keep again. *)
Lemma filterLines_fixed (cleanUrl : string) (lines : list string) :
  forall l, In l (fst (filterLines cleanUrl lines)) ->
    In l lines
    /\ blocksSite cleanUrl (trim l) = false /\ isDeepComment (trim l) = false.
Proof.
  induction lines as [|x r IH]; intros l; cbn [filterLines]; [intros []|].
  destruct (filterLines cleanUrl r) as [fr nr]. cbn [fst] in IH.
  destruct (blocksSite cleanUrl (trim x)) eqn:B.
  - cbn [fst]. intros H. destruct (IH l H). split; [now right | assumption].
  - destruct (isDeepComment (trim x)) eqn:D; cbn [fst].
    + intros H. destruct (IH l H). split; [now right | assumption].
    + intros [<-|H]; [split; [now left | now split]|].
      destruct (IH l H). split; [now right | assumption].
Qed.

(** A line that does not mention the domain does not block it. *)
Lemma blocksSite_needs_domain (cleanUrl line : string) :
  includes cleanUrl line = false -> blocksSite cleanUrl line = false.
Proof.
  intros H. unfold blocksSite.
  rewrite (includes_suffix "127.0.0.1 " _ _ H).
  change ("127.0.0.1 " ++ "www." ++ cleanUrl) with ("127.0.0.1 www." ++ cleanUrl).
  rewrite (includes_suffix "127.0.0.1 www." _ _ H).
  rewrite (includes_suffix "0.0.0.0 " _ _ H).
  change ("0.0.0.0 " ++ "www." ++ cleanUrl) with ("0.0.0.0 www." ++ cleanUrl).
  rewrite (includes_suffix "0.0.0.0 www." _ _ H).
  rewrite (includes_suffix "*." _ _ H).
  rewrite H, andb_false_r. reflexivity.
Qed.

Lemma isDeepComment_needs_marker (line : string) :
  includes "Student Mode Deep Block" line = false ->
  isDeepComment line = false.
Proof.
  intros H. unfold isDeepComment.
  change "Student Mode Deep Blocking Entries"
    with ("Student Mode Deep Block" ++ "ing Entries").
  rewrite (includes_prefix _ _ _ H), H, andb_false_r. reflexivity.
Qed.

Lemma blocksSite_empty (cleanUrl : string) :
  cleanUrl <> "" -> blocksSite cleanUrl "" = false.
Proof.
  intros H. apply blocksSite_needs_domain. now apply includes_empty.
Qed.

(** X4: an [unblockWebsite] that succeeded has nothing left to remove: as
    long as the file system does not fail, the same request again resolves
    with the not-found message and leaves the hosts file as it is. *)
Theorem unblock_twice_finds_nothing
        (w w1 : World) (websiteUrl m : string)
        (Hfirst : unblockWebsite websiteUrl w = (Resolve m, w1))
        (Hfs : healthy w1) :
  exists w2,
    unblockWebsite websiteUrl w1
    = (Resolve (msgNotFound (cleanUrlOf websiteUrl)), w2)
    /\ hosts w2 = hosts w1.
Proof.
  pose proof (unblockWebsite_frame websiteUrl w) as (Ht & Ha & _).
  rewrite Hfirst in Ht, Ha. cbn [snd] in Ht, Ha.
  revert Hfirst. unfold unblockWebsite at 1.
  destruct (isRunningAsAdmin w) eqn:A; cbn [negb]; [|discriminate].
  destruct (String.eqb (cleanUrlOf websiteUrl) "") eqn:U; [discriminate|].
  destruct (mapGet (cleanUrlOf websiteUrl) (timers w)) eqn:T; [discriminate|].
  pose proof U as Une. apply String.eqb_neq in Une.
  assert (Hlines :
            snd (filterLines (cleanUrlOf websiteUrl) (split LF (hosts w1))) = O ->
            exists w2, unblockWebsite websiteUrl w1
                       = (Resolve (msgNotFound (cleanUrlOf websiteUrl)), w2)
                       /\ hosts w2 = hosts w1).
  { intros Hz. unfold unblockWebsite, isRunningAsAdmin.
    rewrite Ha. unfold isRunningAsAdmin in A. rewrite A, U, Ht, T. cbn [negb].
    pose proof (fsCall_healthy w1 Hfs) as (Hr & _ & Hh0 & _).
    destruct (fsCall w1) as [r w2]. cbn [fst snd] in *. subst r.
    rewrite Hh0.
    destruct (filterLines _ _) as [filtered n]. cbn [snd] in Hz. subst n.
    exists w2. split; [reflexivity | exact Hh0]. }
  clear Ht Ha Hfs.
  destruct (fsCall w) as [[e|] wa] eqn:F1; [discriminate|].
  destruct (filterLines (cleanUrlOf websiteUrl) (split LF (hosts wa)))
    as [filtered [|n]] eqn:L.
  - intros [= _ <-]. apply Hlines. now rewrite L.
  - destruct (fsCall wa) as [[e|] wb] eqn:F2; [discriminate|].
    intros [= _ <-]. apply Hlines. wsimpl.
    pose proof (filterLines_fixed (cleanUrlOf websiteUrl) (split LF (hosts wa)))
      as Hfix. rewrite L in Hfix. cbn [fst] in Hfix.
    destruct filtered as [|x r].
    + cbn [join split]. cbn [filterLines].
      change (trim "") with "". rewrite blocksSite_empty by exact Une.
      reflexivity.
    + rewrite split_join.
      * rewrite filterLines_kept; [reflexivity|].
        intros l Hl. now destruct (Hfix l Hl).
      * discriminate.
      * apply Forall_forall. intros l Hl. destruct (Hfix l Hl) as [Hin _].
        now apply split_piece_clean with (s := hosts wa).
Qed.

Lemma unblock_twice_finds_nothing_witness :
  exists w2,
    unblockWebsite "x.com"
      (snd (unblockWebsite "x.com" (snd (blockWebsite "x.com" freshWorld))))
    = (Resolve (msgNotFound "x.com"), w2).
Proof.
  destruct (unblock_twice_finds_nothing
              (snd (blockWebsite "x.com" freshWorld))
              (snd (unblockWebsite "x.com" (snd (blockWebsite "x.com" freshWorld))))
              "x.com" (msgUnblocked "x.com" 4))
    as (w2 & H & _).
  - vm_compute. reflexivity.
  - vm_compute. constructor.
  - exists w2. exact H.
Defined.

(** *** Blocking, then unblocking *)

(** The four lines of the block are removed, the marker line and the empty
    line at the end are kept. *)
Lemma filterLines_block (cleanUrl : string) :
  cleanUrl <> "" -> hasWhiteSpace cleanUrl = false ->
  filterLines cleanUrl
    [ markerLine;
      "127.0.0.1 " ++ cleanUrl; "127.0.0.1 www." ++ cleanUrl;
      "0.0.0.0 " ++ cleanUrl; "0.0.0.0 www." ++ cleanUrl; "" ]
  = ([markerLine; ""], 4%nat).
Proof.
  intros Hne Hws.
  assert (T : forall c a, isWhiteSpace c = false ->
                trim (String c a ++ cleanUrl) = String c a ++ cleanUrl)
    by (intros; now apply trim_binding).
  cbn [filterLines].
  change (trim "") with "". rewrite blocksSite_empty by exact Hne.
  change (isDeepComment "") with false.
  change (trim markerLine) with markerLine.
  assert (M : blocksSite cleanUrl markerLine = false)
    by (unfold blocksSite; change (startsWith "#" markerLine) with true;
        apply andb_false_r).
  rewrite M. change (isDeepComment markerLine) with false.
  assert (B : forall line, includes ("127.0.0.1 " ++ cleanUrl) line
                           || includes ("127.0.0.1 " ++ "www." ++ cleanUrl) line
                           || includes ("0.0.0.0 " ++ cleanUrl) line
                           || includes ("0.0.0.0 " ++ "www." ++ cleanUrl) line
                           = true ->
                           startsWith "#" line = false ->
                           blocksSite cleanUrl line = true).
  { intros line H1 H2. unfold blocksSite. rewrite H2.
    cbn [negb]. rewrite andb_true_r.
    apply orb_true_iff. left. apply orb_true_iff. now left. }
  assert (B1 : blocksSite cleanUrl ("127.0.0.1 " ++ cleanUrl) = true).
  { apply B; [|reflexivity]. apply orb_true_iff. left. apply orb_true_iff. left.
    apply orb_true_iff. left. apply includes_refl. }
  assert (B2 : blocksSite cleanUrl ("127.0.0.1 www." ++ cleanUrl) = true).
  { apply B; [|reflexivity]. apply orb_true_iff. left. apply orb_true_iff. left.
    apply orb_true_iff. right. apply includes_refl. }
  assert (B3 : blocksSite cleanUrl ("0.0.0.0 " ++ cleanUrl) = true).
  { apply B; [|reflexivity]. apply orb_true_iff. left. apply orb_true_iff. right.
    apply includes_refl. }
  assert (B4 : blocksSite cleanUrl ("0.0.0.0 www." ++ cleanUrl) = true).
  { apply B; [|reflexivity]. apply orb_true_iff. right. apply includes_refl. }
  rewrite !T by reflexivity.
  rewrite B1, B2, B3, B4. reflexivity.
Qed.

(** A block and the unblock that follows it, step by step. *)
Lemma block_unblock_trace
      (w : World) (websiteUrl : string)
      (Hadmin : isRunningAsAdmin w = true)
      (Hfs : healthy w)
      (Hurl : cleanUrlOf websiteUrl <> "")
      (Hws : hasWhiteSpace (cleanUrlOf websiteUrl) = false)
      (Habs : includes (cleanUrlOf websiteUrl) (hosts w) = false)
      (Hdeep : includes "Student Mode Deep Block" (hosts w) = false)
      (Htimer : mapGet (cleanUrlOf websiteUrl) (timers w) = None) :
  let domain := cleanUrlOf websiteUrl in
  exists w1 w2,
    blockWebsite websiteUrl w = (Resolve (msgBlocked domain), w1)
    /\ unblockWebsite websiteUrl w1 = (Resolve (msgUnblocked domain 4), w2)
    /\ hosts w2 = hosts w ++ nl ++ markerLine ++ nl
    /\ healthy w1 /\ healthy w2
    /\ hosts w1 = hosts w ++ join nl (newEntries domain) ++ nl.
Proof.
  cbv zeta. set (domain := cleanUrlOf websiteUrl) in *.
  rewrite (blockWebsite_healthy w websiteUrl Hadmin Hfs Hurl). fold domain.
  rewrite (includes_suffix "127.0.0.1 " _ _ Habs).
  change ("127.0.0.1 " ++ "www." ++ domain) with ("127.0.0.1 www." ++ domain).
  rewrite (includes_suffix "127.0.0.1 www." _ _ Habs). cbn [orb].
  pose proof (fsCall_healthy w Hfs) as (_ & Hh1 & _ & Ht1 & Ha1).
  set (wa := snd (fsCall w)) in *.
  pose proof (fsCall_healthy wa Hh1) as (_ & Hh2 & _ & Ht2 & Ha2).
  set (wb := snd (fsCall wa)) in *.
  set (updated := hosts w ++ join nl (newEntries domain) ++ nl).
  set (w1 := exec "ipconfig /flushdns" (setHosts updated wb)).
  assert (Hh3 : healthy w1) by exact Hh2.
  pose proof (fsCall_healthy w1 Hh3) as (Hr3 & Hh4 & Hhosts3 & _).
  pose proof (fsCall_healthy (snd (fsCall w1)) Hh4) as (Hr4 & Hh5 & _).
  assert (Hlines : filterLines domain (split LF updated)
                   = ((split LF (hosts w) ++ [markerLine; ""])%list, 4%nat)).
  { subst updated. rewrite lines_after_block by now apply hasWhiteSpace_LF.
    rewrite filterLines_app, filterLines_block by assumption.
    rewrite filterLines_kept; [reflexivity|].
    intros l Hl. split.
    - apply blocksSite_needs_domain.
      destruct (includes domain (trim l)) eqn:E; [|reflexivity].
      apply includes_trim in E.
      apply (split_in_includes LF domain (hosts w) l Hl) in E. congruence.
    - apply isDeepComment_needs_marker.
      destruct (includes "Student Mode Deep Block" (trim l)) eqn:E;
        [|reflexivity].
      apply includes_trim in E.
      apply (split_in_includes LF _ (hosts w) l Hl) in E. congruence. }
  exists w1. eexists. split; [reflexivity|].
  unfold unblockWebsite, isRunningAsAdmin.
  assert (A1 : admin w1 = true)
    by (subst w1; wsimpl; rewrite Ha2, Ha1; exact Hadmin).
  assert (T1 : timers w1 = timers w)
    by (subst w1; wsimpl; now rewrite Ht2, Ht1).
  apply String.eqb_neq in Hurl. fold domain.
  rewrite A1, Hurl, T1, Htimer. cbn [negb].
  assert (F3 : fsCall w1 = (None, snd (fsCall w1)))
    by (rewrite <- Hr3; apply surjective_pairing).
  assert (F4 : fsCall (snd (fsCall w1)) = (None, snd (fsCall (snd (fsCall w1)))))
    by (rewrite <- Hr4; apply surjective_pairing).
  rewrite F3, Hhosts3.
  assert (Hu : hosts w1 = updated) by reflexivity.
  rewrite Hu, Hlines, F4.
  split; [reflexivity|]. wsimpl.
  split; [|split; [exact Hh3 | split; [exact Hh5 | reflexivity]]].
  rewrite join_app by (apply split_nonempty || discriminate).
  now rewrite join_split.
Qed.

(** X3: on an elevated process whose file system does not fail, for a
    domain without white space that has no timer and that the hosts file
    does not mention, in a hosts file with no deep-block marker: blocking
    and then unblocking removes the four bindings (the message counts 4)
    but not the comment line above them, so the hosts file is the one
    before, followed by that comment line. *)
Theorem block_then_unblock_leaves_the_marker
        (w : World) (websiteUrl : string)
        (Hadmin : isRunningAsAdmin w = true)
        (Hfs : healthy w)
        (Hurl : cleanUrlOf websiteUrl <> "")
        (Hws : hasWhiteSpace (cleanUrlOf websiteUrl) = false)
        (Habs : includes (cleanUrlOf websiteUrl) (hosts w) = false)
        (Hdeep : includes "Student Mode Deep Block" (hosts w) = false)
        (Htimer : mapGet (cleanUrlOf websiteUrl) (timers w) = None) :
  let domain := cleanUrlOf websiteUrl in
  exists w1 w2,
    blockWebsite websiteUrl w = (Resolve (msgBlocked domain), w1)
    /\ unblockWebsite websiteUrl w1 = (Resolve (msgUnblocked domain 4), w2)
    /\ hosts w2 = hosts w ++ nl ++ markerLine ++ nl.
Proof.
  cbv zeta.
  destruct (block_unblock_trace w websiteUrl Hadmin Hfs Hurl Hws Habs
              Hdeep Htimer) as (w1 & w2 & Hb & Hu & Hh & _).
  exists w1, w2. split; [exact Hb|]. split; [exact Hu | exact Hh].
Qed.

Lemma block_then_unblock_leaves_the_marker_witness :
  exists w1 w2,
    blockWebsite "x.com" freshWorld = (Resolve (msgBlocked "x.com"), w1)
    /\ unblockWebsite "x.com" w1 = (Resolve (msgUnblocked "x.com" 4), w2)
    /\ hosts w2 = nl ++ markerLine ++ nl.
Proof.
  apply (block_then_unblock_leaves_the_marker freshWorld "x.com");
    try reflexivity.
  - constructor.
  - vm_compute. discriminate.
Defined.

(** *** The deep block *)




(** *** A read that fails *)

(** X28: [blockWebsite] takes a hosts file it cannot read for an empty
    one: when the read fails and the write that follows succeeds, the
    call resolves as a success and the hosts file holds the new entries
    and nothing else, whatever it held before. *)
Theorem blockWebsite_overwrites_after_failed_read
        (w : World) (websiteUrl readError : string)
        (later : list (option string))
        (Hadmin : isRunningAsAdmin w = true)
        (Hurl : cleanUrlOf websiteUrl <> "")
        (Hfaults : faults w = Some readError :: None :: later) :
  let domain := cleanUrlOf websiteUrl in
  exists w1,
    blockWebsite websiteUrl w = (Resolve (msgBlocked domain), w1)
    /\ hosts w1 = join nl (newEntries domain) ++ nl
    /\ faults w1 = later.
Proof.
  cbv zeta. set (domain := cleanUrlOf websiteUrl) in *.
  assert (Hne : websiteUrl <> "") by (intros ->; now apply Hurl).
  unfold blockWebsite. rewrite Hadmin. cbn [negb].
  apply String.eqb_neq in Hne, Hurl. fold domain. rewrite Hne, Hurl.
  unfold fsCall at 1. rewrite Hfaults.
  rewrite !includes_empty by discriminate. cbn [orb].
  unfold fsCall. wsimpl.
  eexists. split; [reflexivity|]. wsimpl. now split.
Qed.

(** A hosts file with an entry of its own, lost by the block. *)
Lemma blockWebsite_overwrites_after_failed_read_witness :
  exists w1,
    blockWebsite "x.com"
      (setFaults [Some "EBUSY: resource busy or locked"; None]
         (setHosts "127.0.0.1 localhost" freshWorld))
    = (Resolve (msgBlocked "x.com"), w1)
    /\ hosts w1 = join nl (newEntries "x.com") ++ nl
    /\ faults w1 = [].
Proof.
  apply (blockWebsite_overwrites_after_failed_read
           (setFaults [Some "EBUSY: resource busy or locked"; None]
              (setHosts "127.0.0.1 localhost" freshWorld))
           "x.com" "EBUSY: resource busy or locked" []).
  - reflexivity.
  - vm_compute. discriminate.
  - reflexivity.
Defined.

(** *** What an unblock removes *)

Lemma filterLines_filter (cleanUrl : string) (lines : list string) :
  fst (filterLines cleanUrl lines)
  = filter (fun line => negb (blocksSite cleanUrl (trim line))
                        && negb (isDeepComment (trim line))) lines.
Proof.
  induction lines as [|x r IH]; [reflexivity|]. cbn [filterLines filter].
  destruct (filterLines cleanUrl r) as [fr nr]. cbn [fst] in IH.
  destruct (blocksSite cleanUrl (trim x)); [exact IH|].
  destruct (isDeepComment (trim x)); [exact IH|].
  cbn [negb andb fst]. now rewrite IH.
Qed.

(** X30: an [unblockWebsite] that resolves only removes lines: the hosts
    file is left as it is, or it is made of the lines of the old one, in
    their order and unchanged, without some lines that all mention the
    domain or the marker of the deep block. *)
Theorem unblock_only_removes_lines
        (w w' : World) (websiteUrl m : string)
        (Hunblock : unblockWebsite websiteUrl w = (Resolve m, w')) :
  hosts w' = hosts w
  \/ exists keep : string -> bool,
      hosts w' = join nl (filter keep (split LF (hosts w)))
      /\ forall line,
          keep line = false -> mentions (cleanUrlOf websiteUrl) line = true.
Proof.
  revert Hunblock. unfold unblockWebsite.
  destruct (negb (isRunningAsAdmin w)); [discriminate|].
  destruct (String.eqb (cleanUrlOf websiteUrl) ""); [discriminate|].
  destruct (mapGet (cleanUrlOf websiteUrl) (timers w)); [discriminate|].
  destruct (fsCall_same w) as [_ Hh].
  destruct (fsCall w) as [[e|] w1]; [discriminate|]. cbn [snd] in Hh.
  pose proof (filterLines_filter (cleanUrlOf websiteUrl)
                (split LF (hosts w1))) as F.
  destruct (filterLines _ _) as [filtered [|n]]; cbn [fst] in F.
  - intros [= _ <-]. now left.
  - destruct (fsCall w1) as [[e|] w2]; [discriminate|].
    intros [= _ <-]. right. eexists. wsimpl. rewrite F, Hh.
    split; [reflexivity|].
    intros line K. apply andb_false_iff in K. unfold mentions.
    destruct K as [K|K]; apply negb_false_iff in K.
    + destruct (includes (cleanUrlOf websiteUrl) (trim line)) eqn:I;
        [reflexivity|].
      rewrite (blocksSite_needs_domain _ _ I) in K. discriminate.
    + destruct (includes "Student Mode Deep Block" (trim line)) eqn:I;
        [apply orb_true_r|].
      rewrite (isDeepComment_needs_marker _ I) in K. discriminate.
Qed.

(** The unblock of [x.com] leaves the binding of another domain. *)
Lemma unblock_only_removes_lines_witness :
  let w := setHosts ("127.0.0.1 x.com" ++ nl ++ "127.0.0.1 other.org")
             freshWorld in
  let w' := snd (unblockWebsite "x.com" w) in
  hosts w' = hosts w
  \/ exists keep : string -> bool,
      hosts w' = join nl (filter keep (split LF (hosts w)))
      /\ forall line,
          keep line = false -> mentions (cleanUrlOf "x.com") line = true.
Proof.
  cbv zeta.
  apply (unblock_only_removes_lines _ _ "x.com" (msgUnblocked "x.com" 1)).
  vm_compute. reflexivity.
Defined.

End BlockerMore.

(** ** The prefetch analyzer: further properties *)

Module PrefetchMore.

Import JsStrSpec JsDate Prefetch PrefetchSpec StringFacts StringMore.
Import DateFacts PrefetchFacts.
Local Open Scope Z_scope.

(** *** FILETIME *)

(** X10: a FILETIME that converts to a date converts back to ticks that
    are at most 9999 ticks (less than a millisecond) below it, and the
    conversion keeps the order of the FILETIMEs. *)
Theorem filetime_conversion_truncates
        (tz : Z -> Z) (filetime d : Z)
        (Hconv : windowsFileTimeToDate tz filetime = Some d) :
  toFileTime d <= filetime < toFileTime d + 10000
  /\ forall filetime' d',
      windowsFileTimeToDate tz filetime' = Some d' ->
      filetime <= filetime' -> d <= d'.
Proof.
  assert (Hpos : forall ft x, windowsFileTimeToDate tz ft = Some x ->
                   0 <= ft /\ x = ft / 10000 - windowsEpochDiff).
  { intros ft x H. apply windowsFileTimeToDate_some in H.
    destruct H as (Hx & H0 & _).
    assert (0 <= ft).
    { destruct (Z.neg_nonneg_cases ft) as [Hneg|]; [|assumption].
      assert (Z.quot ft 10000 <= 0) by (apply Z.quot_le_upper_bound; lia).
      unfold windowsEpochDiff in *. lia. }
    split; [assumption|]. now rewrite <- Z.quot_div_nonneg by lia. }
  destruct (Hpos _ _ Hconv) as [H0 ->]. split.
  - unfold toFileTime, windowsEpochDiff.
    pose proof (Z.div_mod filetime 10000 ltac:(lia)).
    pose proof (Z.mod_pos_bound filetime 10000 ltac:(lia)). lia.
  - intros ft' d' H' Hle. destruct (Hpos _ _ H') as [_ ->].
    pose proof (Z.div_le_mono filetime ft' 10000 ltac:(lia) Hle). lia.
Qed.

Lemma filetime_conversion_truncates_witness :
  toFileTime 1600000000000 <= 132444736000009999
                           < toFileTime 1600000000000 + 10000.
Proof.
  refine (proj1 (filetime_conversion_truncates (fun _ => 0)
                   132444736000009999 1600000000000 _)).
  reflexivity.
Defined.

(** *** The parser *)

(** X11: [parsePrefetchFileBuffer] returns [null] exactly when the buffer
    has fewer than four bytes or [fileStats] is missing: every other
    buffer, however corrupt, gives a record. *)
Theorem parsePrefetchFileBuffer_null_iff
        (env : Env) (buffer : list Byte.byte) (filename : string)
        (fileStats : option Stats) :
  parsePrefetchFileBuffer env buffer filename fileStats = Ret None
  <-> (List.length buffer < 4)%nat \/ fileStats = None.
Proof.
  unfold parsePrefetchFileBuffer, getUint32 at 1, readLE.
  destruct (Nat.leb (0 + 4) (List.length buffer)) eqn:L.
  - apply Nat.leb_le in L. cbn [bindExc].
    destruct fileStats as [st|].
    + split; [|intros [H|H]; [cbn in L; lia | discriminate]].
      assert (P : exists p,
                 tryCatch (parseStructure env buffer
                             (leValue (firstn 4 (skipn 0 buffer)))
                             (executableNameOf filename) (Some st))
                          (fallbackStructure env (executableNameOf filename)
                             (Some st)) = Ret p).
      { unfold tryCatch. destruct (parseStructure _ _ _ _ _); [now eauto|].
        cbn. now eauto. }
      destruct P as ([[[rc lrt] fp] vi] & ->). cbn. discriminate.
    + split; [now right | intros _].
      assert (P : tryCatch (parseStructure env buffer
                              (leValue (firstn 4 (skipn 0 buffer)))
                              (executableNameOf filename) None)
                           (fallbackStructure env (executableNameOf filename)
                              None) = Throw).
      { unfold tryCatch, parseStructure.
        destruct (getUint32 buffer _); reflexivity. }
      rewrite P. reflexivity.
  - apply Nat.leb_gt in L. cbn [bindExc tryCatch].
    split; [intros _; left; cbn in L; lia | reflexivity].
Qed.

Lemma timestampAt_plausible env buffer offset t :
  In t (timestampAt env buffer offset) -> plausibleRunTime env t.
Proof.
  unfold timestampAt.
  destruct (getBigUint64 buffer offset) as [ts|]; [|intros []].
  destruct (0 <? ts); [|intros []].
  destruct (windowsFileTimeToDate _ ts) as [d|] eqn:W; [|intros []].
  apply windowsFileTimeToDate_some in W. destruct W as (_ & _ & y & Y & B).
  rewrite Y. destruct (1970 <? y) eqn:L; [|intros []].
  apply Z.ltb_lt in L. intros [<-|[]]. exists y. split; [exact Y | lia].
Qed.

Lemma readRunTimes_plausible env buffer version runCount :
  Forall (plausibleRunTime env) (readRunTimes env buffer version runCount).
Proof.
  apply Forall_forall. intros t. unfold readRunTimes.
  destruct (26 <=? version).
  - intros H. apply in_flat_map in H. destruct H as (i & _ & H).
    destruct (Nat.leb _ _); [|destruct H].
    now apply timestampAt_plausible in H.
  - apply timestampAt_plausible.
Qed.

(** What both the inner [try] block and its [catch] leave. *)
Lemma structure_shape env buffer version name st rc lrt fp vi :
  tryCatch (parseStructure env buffer version name (Some st))
           (fallbackStructure env name (Some st)) = Ret (rc, lrt, fp, vi) ->
  (List.length lrt <= 8)%nat
  /\ (lrt = [mtimeOrNow env st] \/ Forall (plausibleRunTime env) lrt)
  /\ (1 <= List.length fp)%nat
  /\ exists serial,
      vi = [mkVolume "C:\" serial (orElse (birthtime st) (mtime st))].
Proof.
  unfold tryCatch, parseStructure, fallbackStructure.
  destruct (getUint32 buffer _) as [n|]; cbn [bindExc statsOf tryCatch].
  - pose proof (readRunTimes_length env buffer version n) as Hlen.
    pose proof (readRunTimes_plausible env buffer version n) as Hpl.
    assert (Hfp : (1 <= List.length
                          match pathMatches env buffer with
                          | [] => commonPaths name
                          | m :: ms => dedup [] (m :: ms)
                          end)%nat).
    { destruct (pathMatches env buffer) as [|m ms]; cbn; lia. }
    destruct (readRunTimes env buffer version n) as [|t l];
      cbn [bindExc]; intros H; inversion H; subst; clear H.
    + split; [cbn; lia|]. split; [now left|]. split; [exact Hfp|].
      now eexists.
    + split; [exact Hlen|]. split; [now right|]. split; [exact Hfp|].
      now eexists.
  - intros H; inversion H; subst; clear H.
    split; [cbn; lia|]. split; [now left|]. split; [cbn; lia|].
    now eexists.
Qed.

(** X12: the shape of every record [parsePrefetchFileBuffer] returns: at
    most eight run times, the latest first, which are either the single
    fallback (the file's modification time, or now) or all of a local year
    from 1971 to 2050; between one and twenty file paths; one volume, on
    [C:\], created when the file was; the size of the buffer and the name
    of the file. *)
Theorem parsed_record_shape
        (env : Env) (buffer : list Byte.byte) (filename : string)
        (st : Stats) (r : PrefetchRecord)
        (Hparse : parsePrefetchFileBuffer env buffer filename (Some st)
                  = Ret (Some r)) :
  StronglySorted notBefore (lastRunTimes r)
  /\ (List.length (lastRunTimes r) <= 8)%nat
  /\ (lastRunTimes r = [mtimeOrNow env st]
      \/ Forall (plausibleRunTime env) (lastRunTimes r))
  /\ (1 <= List.length (filePaths r) <= 20)%nat
  /\ (exists serial,
         volumeInfo r
         = [mkVolume "C:\" serial (orElse (birthtime st) (mtime st))])
  /\ size r = List.length buffer
  /\ prefetchPath r = filename
  /\ fileCreated r = orElse (birthtime st) (mtime st)
  /\ fileModified r = mtime st.
Proof.
  revert Hparse. unfold parsePrefetchFileBuffer.
  destruct (getUint32 buffer 0) as [v|];
    cbn [bindExc tryCatch]; [|discriminate].
  destruct (tryCatch (parseStructure _ _ _ _ _) _)
    as [[[[rc lrt] fp] vi]|] eqn:P; cbn [bindExc tryCatch statsOf];
    [|discriminate].
  apply structure_shape in P. destruct P as (L & Hl & F & V).
  intros H; injection H as <-.
  cbn [lastRunTimes filePaths volumeInfo size prefetchPath fileCreated
       fileModified].
  split; [|split; [|split; [|split; [|split]]]].
  - apply StronglySorted_weaken
      with (R := before (fun a b : Z => a <? b)).
    + intros a b _ _ Hab. unfold before in Hab. apply Z.ltb_ge in Hab.
      exact Hab.
    + apply sortBy_sorted.
      * intros a b Hab. apply Z.ltb_lt in Hab. apply Z.ltb_ge. lia.
      * unfold before. intros a b c. rewrite !Z.ltb_ge. lia.
  - now rewrite sortBy_length.
  - destruct Hl as [->|Hl]; [now left | right].
    eapply Permutation_Forall; [apply sortBy_perm | exact Hl].
  - assert (C : forall l : list string,
               (1 <= List.length l)%nat ->
               (1 <= List.length (firstn 20 l) <= 20)%nat)
      by (intros l Hl'; rewrite length_firstn; lia).
    exact (C fp F).
  - exact V.
  - repeat split.
Qed.

Lemma parsed_record_shape_witness :
  lastRunTimes
    (mkRecord "A" 1 [1600000000000] ["C:\Windows\System32\A.EXE.exe"%string]
       [mkVolume "C:\" "Unknown" (Some 1600000000000)] 4
       "A.EXE-0000000A.pf" "0000000A" (Some 1600000000000)
       (Some 1600000000000) 17 false)
  = [mtimeOrNow utcEnv (mkStats (Some 1600000000000) (Some 1600000000000))]
  \/ Forall (plausibleRunTime utcEnv) [1600000000000].
Proof.
  refine (proj1 (proj2 (proj2
            (parsed_record_shape utcEnv headerOnly "A.EXE-0000000A.pf"
               (mkStats (Some 1600000000000) (Some 1600000000000)) _ _)))).
  vm_compute. reflexivity.
Defined.

(** *** The batch *)

Lemma processFiles_first env files acc count :
  (count < 100)%nat ->
  processFiles env files acc count
  = ((acc ++ firstn (100 - count) (recordsOf env files))%list,
     (count + List.length (firstn (100 - count) (recordsOf env files)))%nat).
Proof.
  revert acc count. induction files as [|f rest IH]; intros acc count Hc.
  - cbn [processFiles recordsOf flat_map]. rewrite firstn_nil.
    now rewrite app_nil_r, Nat.add_0_r.
  - cbn [processFiles recordsOf flat_map]. fold (recordsOf env rest).
    destruct (processFile env f) as [[rec|]|].
    + destruct (Nat.leb 100 (S count)) eqn:L.
      * apply Nat.leb_le in L. replace (100 - count)%nat with 1%nat by lia.
        cbn [app firstn List.length]. f_equal. lia.
      * apply Nat.leb_gt in L. rewrite IH by lia.
        replace (100 - count)%nat with (S (100 - S count)) by lia.
        cbn [app firstn List.length]. rewrite <- app_assoc.
        cbn [app]. f_equal. lia.
    + destruct (Nat.leb 100 count) eqn:L;
        [apply Nat.leb_le in L; lia|].
      cbn [app]. now apply IH.
    + cbn [app]. now apply IH.
Qed.

(** X13: whatever the number of [.pf] files, [getPrefetchFiles] returns
    the records of the first 100 parseable ones, in the listing order, and
    of no other: [processedFiles] counts them and never exceeds 100, while
    [totalFiles] counts every [.pf] file. *)
Theorem getPrefetchFiles_keeps_first_hundred
        (env : Env) (entries : list PfFile)
        (Hsome : filter isPf entries <> []) :
  let files := filter isPf entries in
  let kept := firstn 100 (recordsOf env files) in
  exists data,
    getPrefetchFiles env (Listing entries)
    = Success data (List.length files) (List.length kept)
    /\ Permutation kept data
    /\ (List.length data <= 100)%nat
    /\ (List.length data <= List.length files)%nat.
Proof.
  cbv zeta.
  exists (sortBy laterFirst
            (firstn 100 (recordsOf env (filter isPf entries)))).
  split; [|split; [|split]].
  - unfold getPrefetchFiles.
    destruct (filter isPf entries) as [|f r] eqn:F; [contradiction|].
    rewrite processFiles_first by lia. now cbn [app plus Nat.sub].
  - apply sortBy_perm.
  - rewrite sortBy_length, length_firstn. lia.
  - rewrite sortBy_length, length_firstn, recordsOf_length.
    pose proof (filter_length_le (parseable env) (filter isPf entries)). lia.
Qed.

Lemma getPrefetchFiles_keeps_first_hundred_witness :
  exists data,
    getPrefetchFiles utcEnv (Listing sampleFiles) = Success data 4 2.
Proof.
  destruct (getPrefetchFiles_keeps_first_hundred utcEnv sampleFiles)
    as (data & H & _).
  - vm_compute. discriminate.
  - exists data. exact H.
Defined.

(** *** File names *)

Local Open Scope string_scope.

Lemma substring_zero (s : string) : substring 0 0 s = "".
Proof. now destruct s. Qed.

Lemma substring_prefix (a b : string) :
  substring 0 (String.length a) (a ++ b) = a.
Proof.
  induction a as [|x a IH]; cbn [String.length append substring].
  - apply substring_zero.
  - now rewrite IH.
Qed.

Lemma substring_whole (a : string) : substring 0 (String.length a) a = a.
Proof.
  rewrite <- (append_nil_r a) at 2. apply substring_prefix.
Qed.

Lemma substring_skip (a b : string) (k n : nat) :
  substring (String.length a + k) n (a ++ b) = substring k n b.
Proof. induction a as [|x a IH]; [reflexivity | exact IH]. Qed.

Lemma substring_left (a b : string) (n : nat) :
  String.length a = n -> substring 0 n (a ++ b) = a.
Proof. intros <-. apply substring_prefix. Qed.

Lemma substring_right (a b : string) (n m : nat) :
  String.length a = n -> String.length b = m ->
  substring n m (a ++ b) = b.
Proof.
  intros <- <-. rewrite <- (Nat.add_0_r (String.length a)).
  rewrite substring_skip. apply substring_whole.
Qed.

Lemma toLowerCase_length (s : string) :
  String.length (toLowerCase s) = String.length s.
Proof. induction s as [|c s IH]; cbn; [reflexivity | now rewrite IH]. Qed.

(** X14: a prefetch file name made of a program name (not empty, on one
    line), a dash, eight hexadecimal digits and the extension [.pf] in any
    case is taken apart into exactly the program name and the digits. *)
Theorem prefetch_file_name_round_trip
        (name digits ext : string)
        (Hname : name <> "")
        (Hline : allChars (fun c => negb (isLineTerminator c)) name = true)
        (Hlen : String.length digits = 8%nat)
        (Hhex : allChars isHexDigit digits = true)
        (Hext : toLowerCase ext = ".pf") :
  executableNameOf (name ++ "-" ++ digits ++ ext) = name
  /\ hashMatch (name ++ "-" ++ digits ++ ext) = Some digits.
Proof.
  assert (Le : String.length ext = 3%nat)
    by (rewrite <- toLowerCase_length, Hext; reflexivity).
  assert (Lt : String.length ("-" ++ digits ++ ext) = 12%nat)
    by (cbn [append String.length]; rewrite length_append; lia).
  assert (Lf : String.length (name ++ "-" ++ digits ++ ext)
               = (String.length name + 12)%nat)
    by (rewrite length_append, Lt; reflexivity).
  assert (Hh : hashMatch (name ++ "-" ++ digits ++ ext) = Some digits).
  { unfold hashMatch. rewrite Lf.
    replace (Nat.leb 12 (String.length name + 12)) with true
      by (symmetry; apply Nat.leb_le; lia).
    replace (String.length name + 12 - 12)%nat
      with (String.length name + 0)%nat by lia.
    rewrite substring_skip.
    assert (T : substring 0 12 ("-" ++ digits ++ ext)
                = "-" ++ digits ++ ext).
    { rewrite <- (append_nil_r ("-" ++ digits ++ ext)) at 1.
      now apply substring_left. }
    rewrite T.
    change (substring 0 1 ("-" ++ digits ++ ext))
      with (String "-" (substring 0 0 (digits ++ ext))).
    rewrite substring_zero.
    change (substring 1 8 ("-" ++ digits ++ ext))
      with (substring 0 8 (digits ++ ext)).
    change (substring 9 3 ("-" ++ digits ++ ext))
      with (substring 8 3 (digits ++ ext)).
    rewrite (substring_left digits ext 8 Hlen).
    rewrite (substring_right digits ext 8 3 Hlen Le), Hext, Hhex.
    reflexivity. }
  split; [|exact Hh].
  unfold executableNameOf, execMatch. rewrite Hh, Lf.
  replace (String.length name + 12 - 12)%nat with (String.length name) by lia.
  rewrite (substring_left name _ _ eq_refl), Hline.
  destruct (String.eqb name "") eqn:E; [|reflexivity].
  apply String.eqb_eq in E. contradiction.
Qed.

Lemma prefetch_file_name_round_trip_witness :
  executableNameOf "CHROME.EXE-5A1B2C3D.PF" = "CHROME.EXE"
  /\ hashMatch "CHROME.EXE-5A1B2C3D.PF" = Some "5A1B2C3D".
Proof.
  apply (prefetch_file_name_round_trip "CHROME.EXE" "5A1B2C3D" ".PF");
    vm_compute; (reflexivity || discriminate).
Defined.

(** *** The volume serial *)

Lemma hexDigit_upper (d : Z) :
  0 <= d < 16 -> isUpperHexDigit (hexDigit d) = true.
Proof.
  intros H.
  assert (I : In d [0; 1; 2; 3; 4; 5; 6; 7; 8; 9; 10; 11; 12; 13; 14; 15])
    by (cbn [In]; lia).
  cbn [In] in I.
  repeat (destruct I as [<-|I]; [reflexivity|]). destruct I.
Qed.

Lemma hexDigits_shape (n : nat) (v : Z) (acc : string) :
  String.length (hexDigits n v acc) = (n + String.length acc)%nat
  /\ (allChars isUpperHexDigit acc = true ->
      allChars isUpperHexDigit (hexDigits n v acc) = true).
Proof.
  revert v acc. induction n as [|n IH]; intros v acc.
  - now split.
  - cbn [hexDigits].
    destruct (IH (v / 16) (String (hexDigit (v mod 16)) acc)) as [L C].
    split.
    + rewrite L. cbn [String.length]. lia.
    + intros Hacc. apply C. cbn [allChars].
      rewrite hexDigit_upper by (apply Z.mod_pos_bound; lia). exact Hacc.
Qed.

Lemma serialOffsets_in (buffer : list Byte.byte) (i : nat) :
  In i (serialOffsets buffer)
  <-> (i mod 4 = 0 /\ i < 200 /\ i + 4 < List.length buffer)%nat.
Proof.
  unfold serialOffsets. rewrite filter_In, in_map_iff, Z.ltb_lt.
  split.
  - intros [(k & <- & Hk) Hlt]. apply in_seq in Hk.
    split; [|lia].
    rewrite Nat.mul_comm. apply Nat.Div0.mod_mul.
  - intros (Hm & H2 & Hl). split; [|lia].
    exists (i / 4)%nat. split.
    + pose proof (Nat.div_mod_eq i 4). lia.
    + apply in_seq. split; [lia|].
      cbn [plus]. apply Nat.Div0.div_lt_upper_bound. lia.
Qed.

Lemma offsets_sorted (a n : nat) :
  StronglySorted lt (map (fun k => (4 * k)%nat) (seq a n)).
Proof.
  revert a. induction n as [|n IH]; intros a; cbn [seq map].
  - constructor.
  - constructor; [apply IH|].
    apply Forall_forall. intros x Hx. apply in_map_iff in Hx.
    destruct Hx as (k & <- & Hk). apply in_seq in Hk. lia.
Qed.

Lemma filter_sorted {X} (R : X -> X -> Prop) (p : X -> bool) (l : list X) :
  StronglySorted R l -> StronglySorted R (filter p l).
Proof.
  induction 1 as [|a l Hl IH Ha]; cbn [filter]; [constructor|].
  destruct (p a); [|exact IH]. constructor; [exact IH|].
  rewrite Forall_forall in *. intros x Hx. apply filter_In in Hx.
  now apply Ha.
Qed.

Lemma find_first (p : nat -> bool) (l : list nat) (x : nat) :
  StronglySorted lt l -> find p l = Some x ->
  forall y, In y l -> (y < x)%nat -> p y = false.
Proof.
  induction 1 as [|a l Hl IH Ha]; cbn [find]; [discriminate|].
  rewrite Forall_forall in Ha.
  destruct (p a) eqn:P.
  - intros [= <-] y [<-|Hy] Hlt; [lia|]. apply Ha in Hy. lia.
  - intros F y [<-|Hy] Hlt; [exact P|]. now apply IH.
Qed.

(** X15: the volume serial [extractVolumeSerial] finds is the first 32-bit
    word, read at a multiple of four below 200 and strictly before the last
    four bytes of the buffer, that lies strictly between 0x10000000 and
    0xFFFFFFFF, written as eight digits of 0-9 and A-F; it returns [null]
    exactly when no such word exists. *)
Theorem extractVolumeSerial_finds_first_word (buffer : list Byte.byte) :
  match extractVolumeSerial buffer with
  | Some serial =>
      String.length serial = 8%nat
      /\ allChars isUpperHexDigit serial = true
      /\ exists (i : nat) (value : Z),
          (i mod 4 = 0 /\ i < 200 /\ i + 4 < List.length buffer)%nat
          /\ getUint32 buffer i = Ret value
          /\ 268435456 < value < 4294967295
          /\ serial = hex8 value
          /\ forall j : nat,
              (j mod 4 = 0)%nat -> (j < i)%nat ->
              looksLikeSerial buffer j = false
  | None =>
      forall i : nat,
        (i mod 4 = 0 /\ i < 200 /\ i + 4 < List.length buffer)%nat ->
        looksLikeSerial buffer i = false
  end.
Proof.
  unfold extractVolumeSerial. fold (looksLikeSerial buffer).
  destruct (find (looksLikeSerial buffer) (serialOffsets buffer))
    as [i|] eqn:F.
  - pose proof (find_some _ _ F) as [Hin Hp].
    pose proof Hin as Hi. apply serialOffsets_in in Hi.
    unfold looksLikeSerial in Hp.
    destruct (getUint32 buffer i) as [value|] eqn:G; [|discriminate].
    apply andb_prop in Hp. destruct Hp as [H1 H2].
    apply Z.ltb_lt in H1, H2.
    destruct (hexDigits_shape 8 value "") as [L C].
    split; [exact L|]. split; [now apply C|].
    exists i, value. repeat split; try tauto; try assumption.
    intros j Hj Hlt. eapply find_first; [| exact F | | exact Hlt].
    + apply filter_sorted, offsets_sorted.
    + apply serialOffsets_in. lia.
  - intros i Hi. apply serialOffsets_in in Hi.
    exact (find_none _ _ F i Hi).
Qed.

End PrefetchMore.

(** ** The validators of the firewall rules: properties *)

Module FirewallFacts.

Import JsStr JsStrSpec Firewall FirewallSpec StringFacts StringMore.
Local Open Scope string_scope.

(** *** [trim] *)

Lemma trimStart_idem (s : string) : trimStart (trimStart s) = trimStart s.
Proof.
  induction s as [|c s IH]; [reflexivity|]. cbn [trimStart].
  destruct (isWhiteSpace c) eqn:E; [exact IH|]. cbn [trimStart]. now rewrite E.
Qed.

Lemma trimEnd_idem (s : string) : trimEnd (trimEnd s) = trimEnd s.
Proof.
  induction s as [|c s IH]; [reflexivity|]. cbn [trimEnd].
  destruct (trimEnd s) as [|c' r] eqn:E.
  - destruct (isWhiteSpace c) eqn:W; [reflexivity|]. cbn. now rewrite W.
  - cbn [trimEnd]. cbn [trimEnd] in IH. now rewrite IH.
Qed.

Lemma trim_commute (s : string) : trimEnd (trimStart s) = trimStart (trimEnd s).
Proof.
  induction s as [|c s IH]; [reflexivity|]. cbn [trimStart trimEnd].
  destruct (isWhiteSpace c) eqn:W.
  - rewrite IH. destruct (trimEnd s) as [|c' r] eqn:E; [reflexivity|].
    cbn [trimStart]. now rewrite W.
  - cbn [trimEnd]. destruct (trimEnd s) as [|c' r] eqn:E;
      cbn [trimStart]; now rewrite ?W.
Qed.

Lemma trim_idem (s : string) : trim (trim s) = trim s.
Proof.
  unfold trim. now rewrite trim_commute, trimStart_idem, trimEnd_idem.
Qed.

Lemma removeDangerous_harmless (s : string) :
  forallChars isHarmless (removeDangerous s) = true.
Proof.
  induction s as [|c s IH]; [reflexivity|]. cbn [removeDangerous].
  destruct (isDangerous c) eqn:E; [exact IH|].
  cbn [forallChars]. unfold isHarmless at 1. now rewrite E, IH.
Qed.

Lemma removeDangerous_fixed (s : string) :
  forallChars isHarmless s = true -> removeDangerous s = s.
Proof.
  induction s as [|c s IH]; [reflexivity|]. cbn [forallChars removeDangerous].
  intros H. apply andb_true_iff in H. destruct H as [Hc Hs].
  unfold isHarmless in Hc. apply negb_true_iff in Hc.
  now rewrite Hc, IH.
Qed.

Lemma removeDangerous_length (s : string) :
  String.length (removeDangerous s) <= String.length s.
Proof.
  induction s as [|c s IH]; [reflexivity|]. cbn [removeDangerous].
  destruct (isDangerous c); cbn [String.length]; lia.
Qed.

Lemma trim_length (s : string) : String.length (trim s) <= String.length s.
Proof.
  destruct (trim_part s) as (u & v & E). rewrite E at 2.
  rewrite !length_append. lia.
Qed.

Lemma trim_forall (p : ascii -> bool) (s : string) :
  forallChars p s = true -> forallChars p (trim s) = true.
Proof.
  destruct (trim_part s) as (u & v & E). rewrite E at 1.
  apply forallChars_part.
Qed.

Lemma sanitizeInput_fixed (s : string) :
  sanitizeInput (Some (sanitizeInput (Some s))) = sanitizeInput (Some s).
Proof.
  cbn [sanitizeInput].
  rewrite (removeDangerous_fixed (trim (removeDangerous s)))
    by apply trim_forall, removeDangerous_harmless.
  apply trim_idem.
Qed.

(** X16: whatever the input, the result of [sanitizeInput] has none of
    the characters [& | ; $ ` \ < >] and no white space at either end, is
    not longer than the input, and is left as it is by a second pass; the
    strings [sanitizeInput] leaves as they are are exactly the strings
    with none of the eight characters and no white space at either end
    (a double quote, for one, is kept). *)
Theorem sanitizeInput_result (input : string) :
  forallChars isHarmless (sanitizeInput (Some input)) = true
  /\ trim (sanitizeInput (Some input)) = sanitizeInput (Some input)
  /\ String.length (sanitizeInput (Some input)) <= String.length input
  /\ sanitizeInput (Some (sanitizeInput (Some input)))
     = sanitizeInput (Some input)
  /\ (sanitizeInput (Some input) = input
      <-> forallChars isHarmless input = true /\ trim input = input).
Proof.
  cbn [sanitizeInput].
  assert (H1 : forallChars isHarmless (trim (removeDangerous input)) = true)
    by apply trim_forall, removeDangerous_harmless.
  split; [exact H1|]. split; [apply trim_idem|]. split.
  - eapply Nat.le_trans; [apply trim_length | apply removeDangerous_length].
  - split.
    + rewrite (removeDangerous_fixed _ H1). apply trim_idem.
    + split.
      * intros E. rewrite <- E at 1 2. rewrite E.
        split; [rewrite <- E; exact H1|].
        rewrite <- E at 1. rewrite trim_idem. exact E.
      * intros [Hh Ht]. now rewrite (removeDangerous_fixed _ Hh).
Qed.

(** X17: a rule name [validateRuleName] accepts is the sanitized input,
    has between 1 and 255 characters, none of them one of the eight
    removed, and is accepted unchanged when it is validated again; the
    name is refused exactly when the sanitized input is empty or longer
    than 255 characters. *)
Theorem validateRuleName_accepts (name : option string) :
  match validateRuleName name with
  | Valid ruleName =>
      ruleName = sanitizeInput name
      /\ 1 <= String.length ruleName <= 255
      /\ forallChars isHarmless ruleName = true
      /\ validateRuleName (Some ruleName) = Valid ruleName
  | Invalid _ =>
      sanitizeInput name = "" \/ 255 < String.length (sanitizeInput name)
  end.
Proof.
  unfold validateRuleName at 1.
  destruct (String.eqb (sanitizeInput name) "") eqn:E.
  - left. now apply String.eqb_eq.
  - destruct (Nat.ltb 255 (String.length (sanitizeInput name))) eqn:L.
    + right. now apply Nat.ltb_lt.
    + apply Nat.ltb_ge in L. apply String.eqb_neq in E.
      assert (Hs : sanitizeInput (Some (sanitizeInput name))
                   = sanitizeInput name).
      { destruct name as [s|]; [apply sanitizeInput_fixed|reflexivity]. }
      split; [reflexivity|]. split; [|split].
      * split; [|exact L]. destruct (sanitizeInput name); [contradiction|].
        cbn. lia.
      * destruct name as [s|]; [|reflexivity].
        apply trim_forall, removeDangerous_harmless.
      * unfold validateRuleName. rewrite Hs.
        apply String.eqb_neq in E. rewrite E.
        apply Nat.ltb_ge in L. now rewrite L.
Qed.

(** *** [validateIP] *)

Lemma spanDigits_spec (s : string) :
  s = fst (spanDigits s) ++ snd (spanDigits s)
  /\ forallChars isDigit (fst (spanDigits s)) = true
  /\ noLeadingDigit (snd (spanDigits s)) = true.
Proof.
  induction s as [|c s IH]; [now repeat split|]. cbn [spanDigits].
  destruct (isDigit c) eqn:D.
  - destruct (spanDigits s) as [ds rest]. cbn [fst snd] in *.
    destruct IH as (E & F & N). repeat split.
    + cbn [append]. now rewrite <- E.
    + cbn [forallChars]. now rewrite D, F.
    + exact N.
  - cbn [fst snd forallChars noLeadingDigit append]. now rewrite D.
Qed.

(** The digits of a run that a non-digit follows are found again. *)
Lemma spanDigits_append (ds rest : string) :
  forallChars isDigit ds = true -> noLeadingDigit rest = true ->
  spanDigits (ds ++ rest) = (ds, rest).
Proof.
  intros Hd Hr. induction ds as [|c ds IH].
  - cbn [append]. destruct rest as [|x r]; [reflexivity|].
    cbn in *. apply negb_true_iff in Hr. now rewrite Hr.
  - cbn [forallChars] in Hd. apply andb_true_iff in Hd.
    destruct Hd as [Hc Hd]. cbn [append spanDigits]. now rewrite Hc, IH.
Qed.

Lemma digitRun_spec (max : nat) (s rest : string) :
  digitRun max s = Some rest ->
  exists ds, s = ds ++ rest /\ forallChars isDigit ds = true
             /\ 1 <= String.length ds <= max.
Proof.
  unfold digitRun. destruct (spanDigits_spec s) as (E & F & _).
  destruct (spanDigits s) as [ds r]. cbn [fst snd] in *.
  destruct (Nat.leb 1 (String.length ds)) eqn:L1; [|discriminate].
  destruct (Nat.leb (String.length ds) max) eqn:L2; [|discriminate].
  cbn. intros [= <-]. exists ds.
  apply Nat.leb_le in L1, L2. auto.
Qed.

Lemma digitRun_append (max : nat) (ds rest : string) :
  forallChars isDigit ds = true -> 1 <= String.length ds <= max ->
  noLeadingDigit rest = true ->
  digitRun max (ds ++ rest) = Some rest.
Proof.
  intros Hd [L1 L2] Hr. unfold digitRun. rewrite spanDigits_append by assumption.
  apply Nat.leb_le in L1, L2. now rewrite L1, L2.
Qed.

Lemma expectChar_spec (c : ascii) (s rest : string) :
  expectChar c s = Some rest -> s = String c rest.
Proof.
  destruct s as [|x r]; [discriminate|]. cbn.
  destruct (Ascii.eqb x c) eqn:E; [|discriminate].
  apply Ascii.eqb_eq in E. now intros [= <-]; subst.
Qed.

Lemma digits_address (ds : string) :
  forallChars isDigit ds = true -> forallChars isAddressChar ds = true.
Proof.
  induction ds as [|c ds IH]; [reflexivity|]. cbn [forallChars].
  intros H. apply andb_true_iff in H. destruct H as [Hc Hd].
  unfold isAddressChar at 1. now rewrite Hc, IH.
Qed.

Lemma dottedQuad_spec (s rest : string) :
  dottedQuad s = Some rest ->
  exists q, s = q ++ rest /\ forallChars isAddressChar q = true
            /\ 7 <= String.length q <= 15.
Proof.
  unfold dottedQuad, andThen.
  destruct (digitRun 3 s) as [s1|] eqn:D1; [|discriminate].
  destruct (expectChar "." s1) as [s2|] eqn:E1; [|discriminate].
  destruct (digitRun 3 s2) as [s3|] eqn:D2; [|discriminate].
  destruct (expectChar "." s3) as [s4|] eqn:E2; [|discriminate].
  destruct (digitRun 3 s4) as [s5|] eqn:D3; [|discriminate].
  destruct (expectChar "." s5) as [s6|] eqn:E3; [|discriminate].
  intros D4.
  apply digitRun_spec in D1, D2, D3, D4.
  apply expectChar_spec in E1, E2, E3.
  destruct D1 as (a & -> & Fa & La), D2 as (b & -> & Fb & Lb),
           D3 as (c & -> & Fc & Lc), D4 as (d & -> & Fd & Ld).
  subst s1 s3 s5.
  exists (a ++ "." ++ b ++ "." ++ c ++ "." ++ d). split; [|split].
  - now rewrite !append_assoc.
  - rewrite !forallChars_append, (digits_address a), (digits_address b),
      (digits_address c), (digits_address d) by assumption.
    reflexivity.
  - rewrite !length_append. cbn [String.length]. lia.
Qed.

(** X18: an address [validateIP] accepts is the sanitized input and is
    made of digits, dots, slashes and dashes only, between 7 and 31 of
    them: nothing else reaches the command line through it. *)
Theorem validateIP_accepts_address_characters_only
        (ip : option string) (address : string)
        (Hvalid : validateIP ip = Valid address) :
  address = sanitizeInput ip
  /\ forallChars isAddressChar address = true
  /\ 7 <= String.length address <= 31.
Proof.
  revert Hvalid. unfold validateIP, ipRegexTest.
  destruct (dottedQuad (sanitizeInput ip)) as [rest|] eqn:Q; [|discriminate].
  apply dottedQuad_spec in Q. destruct Q as (q & E & Fq & Lq).
  destruct rest as [|c rest].
  - intros [= <-]. split; [reflexivity|]. rewrite E, append_nil_r.
    split; [exact Fq | lia].
  - destruct (Ascii.eqb c "/") eqn:C1.
    + apply Ascii.eqb_eq in C1. subst c.
      destruct (digitRun 2 rest) as [[|x r]|] eqn:D; try discriminate.
      apply digitRun_spec in D. destruct D as (m & -> & Fm & Lm).
      intros [= <-]. split; [reflexivity|]. rewrite E. split.
      * rewrite forallChars_append, Fq. cbn [forallChars andb].
        rewrite forallChars_append, digits_address by assumption.
        reflexivity.
      * rewrite length_append. cbn [String.length].
        rewrite length_append. cbn [String.length]. lia.
    + destruct (Ascii.eqb c "-") eqn:C2; [|discriminate].
      apply Ascii.eqb_eq in C2. subst c.
      destruct (dottedQuad rest) as [[|x r]|] eqn:Q2; try discriminate.
      apply dottedQuad_spec in Q2. destruct Q2 as (q2 & -> & Fq2 & Lq2).
      intros [= <-]. split; [reflexivity|]. rewrite E. split.
      * rewrite forallChars_append, Fq. cbn [forallChars andb].
        rewrite forallChars_append, Fq2. reflexivity.
      * rewrite length_append. cbn [String.length].
        rewrite length_append. cbn [String.length]. lia.
Qed.

Lemma validateIP_accepts_address_characters_only_witness :
  "10.0.0.0/8" = sanitizeInput (Some " 10.0.0.0/8 ")
  /\ forallChars isAddressChar "10.0.0.0/8" = true
  /\ 7 <= String.length "10.0.0.0/8" <= 31.
Proof.
  apply (validateIP_accepts_address_characters_only
           (Some " 10.0.0.0/8 ") "10.0.0.0/8").
  vm_compute. reflexivity.
Defined.

Lemma digits_harmless (ds : string) :
  forallChars isAddressChar ds = true -> forallChars isHarmless ds = true.
Proof.
  induction ds as [|c ds IH]; [reflexivity|]. cbn [forallChars].
  intros H. apply andb_true_iff in H. destruct H as [Hc Hd].
  rewrite (IH Hd), andb_true_r. revert Hc.
  destruct c as [[] [] [] [] [] [] [] []]; vm_compute; congruence.
Qed.

Lemma address_no_space (ds : string) :
  forallChars isAddressChar ds = true -> hasWhiteSpace ds = false.
Proof.
  induction ds as [|c ds IH]; [reflexivity|]. cbn [forallChars hasWhiteSpace].
  intros H. apply andb_true_iff in H. destruct H as [Hc Hd].
  rewrite (IH Hd), orb_false_r. revert Hc.
  destruct c as [[] [] [] [] [] [] [] []]; vm_compute; congruence.
Qed.

Lemma trimStart_clean (s : string) : hasWhiteSpace s = false -> trimStart s = s.
Proof.
  destruct s as [|c s]; [reflexivity|]. cbn [hasWhiteSpace trimStart].
  intros H. apply orb_false_iff in H. destruct H as [Hc _]. now rewrite Hc.
Qed.

Lemma trim_clean (s : string) : hasWhiteSpace s = false -> trim s = s.
Proof.
  intros H. unfold trim. rewrite trimEnd_clean by exact H.
  now apply trimStart_clean.
Qed.

(** X19: [validateIP] checks the shape of an address and not its range:
    four runs of one to three digits with dots between them are accepted
    unchanged, whatever the numbers they spell. *)
Theorem validateIP_accepts_every_dotted_quad
        (a b c d : string)
        (Ha : forallChars isDigit a = true /\ 1 <= String.length a <= 3)
        (Hb : forallChars isDigit b = true /\ 1 <= String.length b <= 3)
        (Hc : forallChars isDigit c = true /\ 1 <= String.length c <= 3)
        (Hd : forallChars isDigit d = true /\ 1 <= String.length d <= 3) :
  validateIP (Some (a ++ "." ++ b ++ "." ++ c ++ "." ++ d))
  = Valid (a ++ "." ++ b ++ "." ++ c ++ "." ++ d).
Proof.
  destruct Ha as [Fa La], Hb as [Fb Lb], Hc as [Fc Lc], Hd as [Fd Ld].
  assert (F : forallChars isAddressChar
                (a ++ "." ++ b ++ "." ++ c ++ "." ++ d) = true).
  { rewrite !forallChars_append, (digits_address a), (digits_address b),
      (digits_address c), (digits_address d) by assumption.
    reflexivity. }
  assert (S : sanitizeInput (Some (a ++ "." ++ b ++ "." ++ c ++ "." ++ d))
              = a ++ "." ++ b ++ "." ++ c ++ "." ++ d).
  { cbn [sanitizeInput].
    rewrite removeDangerous_fixed by now apply digits_harmless.
    now apply trim_clean, address_no_space. }
  unfold validateIP. rewrite S.
  assert (Q : dottedQuad (a ++ "." ++ b ++ "." ++ c ++ "." ++ d) = Some "").
  { unfold dottedQuad.
    rewrite (digitRun_append 3 a) by (auto; reflexivity).
    cbn [andThen append expectChar]. rewrite Ascii.eqb_refl. cbn [andThen].
    rewrite (digitRun_append 3 b) by (auto; reflexivity).
    cbn [andThen append expectChar]. rewrite Ascii.eqb_refl. cbn [andThen].
    rewrite (digitRun_append 3 c) by (auto; reflexivity).
    cbn [andThen append expectChar]. rewrite Ascii.eqb_refl. cbn [andThen].
    rewrite <- (append_nil_r d). now apply digitRun_append. }
  unfold ipRegexTest. now rewrite Q.
Qed.

Lemma validateIP_accepts_every_dotted_quad_witness :
  validateIP (Some "999.999.999.999") = Valid "999.999.999.999".
Proof.
  apply (validateIP_accepts_every_dotted_quad "999" "999" "999" "999");
    (split; [reflexivity | cbn; lia]).
Defined.

(** *** [parseInt] and [validatePort] *)

Local Open Scope Z_scope.

Lemma digit_facts (c : ascii) :
  isDigit c = true ->
  isWhiteSpace c = false /\ isLowered c = true
  /\ Ascii.eqb c "-" = false /\ Ascii.eqb c "," = false
  /\ Ascii.eqb c "+" = false /\ Ascii.eqb c "x" = false
  /\ Ascii.eqb c "X" = false /\ Ascii.eqb c "a" = false
  /\ exists d, digitValue c = Some d /\ 0 <= d < 10.
Proof.
  destruct c as [[] [] [] [] [] [] [] []]; intros H;
    try (vm_compute in H; discriminate H);
    repeat (split; [reflexivity|]);
    (eexists; split; [vm_compute; reflexivity | lia]).
Qed.

Lemma nondigit_facts (c : ascii) :
  isDigit c = false ->
  match digitValue c with Some d => 10 <= d | None => True end.
Proof.
  destruct c as [[] [] [] [] [] [] [] []]; intros H;
    try (vm_compute in H; discriminate H); vm_compute;
    try exact I; discriminate.
Qed.

Lemma forallChars_impl (p q : ascii -> bool) (s : string) :
  (forall c, p c = true -> q c = true) ->
  forallChars p s = true -> forallChars q s = true.
Proof.
  intros Hpq. induction s as [|c s IH]; [reflexivity|]. cbn [forallChars].
  intros H. apply andb_true_iff in H. destruct H as [Hc Hs].
  now rewrite (Hpq c Hc), IH.
Qed.

Lemma forallChars_hasChar (p : ascii -> bool) (x : ascii) (s : string) :
  (forall c, p c = true -> Ascii.eqb c x = false) ->
  forallChars p s = true -> hasChar x s = false.
Proof.
  intros Hp. induction s as [|c s IH]; [reflexivity|].
  cbn [forallChars hasChar].
  intros H. apply andb_true_iff in H. destruct H as [Hc Hs].
  now rewrite (Hp c Hc), IH.
Qed.

Lemma forallChars_noSpace (p : ascii -> bool) (s : string) :
  (forall c, p c = true -> isWhiteSpace c = false) ->
  forallChars p s = true -> hasWhiteSpace s = false.
Proof.
  intros Hp. induction s as [|c s IH]; [reflexivity|].
  cbn [forallChars hasWhiteSpace].
  intros H. apply andb_true_iff in H. destruct H as [Hc Hs].
  now rewrite (Hp c Hc), IH.
Qed.

Lemma includes_char (c : ascii) (s : string) :
  includes (String c "") s = hasChar c s.
Proof.
  induction s as [|x s IH]; [reflexivity|].
  cbn [includes hasChar]. rewrite IH. unfold startsWith. cbn [stripPrefix].
  rewrite (Ascii.eqb_sym c x). now destruct (Ascii.eqb x c).
Qed.

(** Digits are read up to the first character that is none. *)
Lemma parseDigits_append (ds tail : string) (acc : option Z) :
  forallChars isDigit ds = true -> noLeadingDigit tail = true ->
  parseDigits 10 (ds ++ tail) acc = parseDigits 10 ds acc.
Proof.
  intros Hd Ht. revert acc. induction ds as [|c ds IH]; intros acc.
  - cbn [append]. destruct tail as [|x r]; [reflexivity|].
    cbn [noLeadingDigit] in Ht. apply negb_true_iff in Ht.
    apply nondigit_facts in Ht. cbn [parseDigits].
    destruct (digitValue x) as [d|]; [|reflexivity].
    replace (d <? 10) with false by (symmetry; apply Z.ltb_ge; lia).
    reflexivity.
  - cbn [forallChars] in Hd. apply andb_true_iff in Hd.
    destruct Hd as [Hc Hd]. cbn [append parseDigits].
    destruct (digitValue c) as [d|]; [|reflexivity].
    destruct (d <? 10); [|reflexivity]. now apply IH.
Qed.

(** A string that starts with a digit is read in base ten, unless it
    starts with [0x] or [0X]. *)
Lemma parseInt_decimal (c : ascii) (s : string) :
  isDigit c = true ->
  match s with
  | String x _ =>
      c = "0"%char -> Ascii.eqb x "x" || Ascii.eqb x "X" = false
  | "" => True
  end ->
  parseInt (String c s) = parseDigits 10 (String c s) None.
Proof.
  intros Hc Hs. unfold parseInt. cbn [trimStart].
  destruct (digit_facts c Hc) as (W & _ & M & _ & P & _).
  rewrite W.
  assert (Sg : (let (sign, s0) :=
                  match String c s with
                  | String "-" r => (-1, r)
                  | String "+" r => (1, r)
                  | _ => (1, String c s)
                  end in
                (sign, s0)) = (1, String c s)).
  { destruct c as [[] [] [] [] [] [] [] []]; try reflexivity;
      vm_compute in M, P; discriminate. }
  destruct c as [[] [] [] [] [] [] [] []];
    try (vm_compute in Hc; discriminate Hc);
    try (destruct (parseDigits 10 _ None) as [n|];
         [f_equal; destruct n; reflexivity | reflexivity]).
  destruct s as [|x r].
  - reflexivity.
  - rewrite (Hs eq_refl).
    destruct (parseDigits 10 _ None) as [n|];
      [f_equal; destruct n; reflexivity | reflexivity].
Qed.

Lemma string_of_uint_digits (d : Decimal.uint) :
  forallChars isDigit (NilEmpty.string_of_uint d) = true.
Proof. induction d; cbn; auto. Qed.

Lemma parseDigits_uint_acc (d : Decimal.uint) (acc : positive) :
  parseDigits 10 (NilEmpty.string_of_uint d) (Some (Z.pos acc))
  = Some (Z.pos (Pos.of_uint_acc d acc)).
Proof.
  revert acc. induction d; intros acc; cbn [NilEmpty.string_of_uint];
    [reflexivity | ..];
    cbn [parseDigits]; match goal with
    | |- context [digitValue ?c] =>
        let v := eval vm_compute in (digitValue c) in
        change (digitValue c) with v
    end; cbn [Z.ltb Z.compare Pos.compare Pos.compare_cont];
    cbn [Pos.of_uint_acc]; rewrite <- IHd; f_equal; f_equal; lia.
Qed.

Lemma parseDigits_uint (d : Decimal.uint) :
  parseDigits 10 (NilEmpty.string_of_uint d) (Some 0)
  = Some (Z.of_N (Pos.of_uint d)).
Proof.
  induction d; cbn [NilEmpty.string_of_uint];
    [reflexivity | ..];
    cbn [parseDigits]; match goal with
    | |- context [digitValue ?c] =>
        let v := eval vm_compute in (digitValue c) in
        change (digitValue c) with v
    end; cbn [Z.ltb Z.compare Pos.compare Pos.compare_cont];
    cbn [Pos.of_uint Z.of_N]; try exact IHd;
    rewrite <- parseDigits_uint_acc; reflexivity.
Qed.

(** The decimal numeral of a positive number is read back. *)
Lemma parseInt_numeral (p : positive) :
  parseInt (ofZ (Z.pos p)) = Some (Z.pos p).
Proof.
  unfold ofZ. cbn [Z.to_int NilZero.string_of_int].
  pose proof (Unsigned.to_uint_nonnil p) as Hnil.
  pose proof (DecimalPos.Unsigned.of_to p) as Hof.
  pose proof (Unsigned.to_uint_nonzero p) as Hnz.
  destruct (Pos.to_uint p) as [|d|d|d|d|d|d|d|d|d|d] eqn:E;
    [contradiction | ..];
    cbn [NilZero.string_of_uint NilEmpty.string_of_uint];
    (rewrite parseInt_decimal;
     [| reflexivity
      | pose proof (string_of_uint_digits d) as Hd;
        destruct (NilEmpty.string_of_uint d) as [|x r] eqn:Ed; [exact I|];
        cbn [forallChars] in Hd; apply andb_true_iff in Hd;
        destruct Hd as [Hx _];
        destruct (digit_facts x Hx) as (_ & _ & _ & _ & _ & X1 & X2 & _);
        intros _; now rewrite X1, X2 ]);
    cbn [parseDigits];
    match goal with
    | |- context [digitValue ?c] =>
        let v := eval vm_compute in (digitValue c) in
        change (digitValue c) with v
    end; cbn [Z.ltb Z.compare Pos.compare Pos.compare_cont Z.mul Z.add];
    cbn [Pos.of_uint] in Hof.
  - rewrite parseDigits_uint, Hof. reflexivity.
  - rewrite parseDigits_uint_acc. now injection Hof as ->.
  - rewrite parseDigits_uint_acc. now injection Hof as ->.
  - rewrite parseDigits_uint_acc. now injection Hof as ->.
  - rewrite parseDigits_uint_acc. now injection Hof as ->.
  - rewrite parseDigits_uint_acc. now injection Hof as ->.
  - rewrite parseDigits_uint_acc. now injection Hof as ->.
  - rewrite parseDigits_uint_acc. now injection Hof as ->.
  - rewrite parseDigits_uint_acc. now injection Hof as ->.
  - rewrite parseDigits_uint_acc. now injection Hof as ->.
Qed.

Lemma toLowerCase_append (a b : string) :
  toLowerCase (a ++ b) = toLowerCase a ++ toLowerCase b.
Proof. induction a as [|c a IH]; cbn; [reflexivity | now rewrite IH]. Qed.

(** The last branch of [validatePort], for a string that needs no
    clean-up and is neither [any], a range nor a list. *)
Lemma validatePort_plain (s : string) :
  s <> "" -> trim s = s -> toLowerCase s = s -> s <> "any" ->
  hasChar "-" s = false -> hasChar "," s = false ->
  validatePort (Some s)
  = if isPortNumber (parseInt s) then Valid s else Invalid msgPortNumber.
Proof.
  intros Hne Ht Hl Hany Hd Hc. unfold validatePort.
  apply String.eqb_neq in Hne, Hany. rewrite Hne, Ht, Hl, Hany.
  now rewrite !includes_char, Hd, Hc.
Qed.

Lemma digits_plain (c : ascii) (s : string) :
  forallChars isDigit (String c s) = true ->
  trim (String c s) = String c s
  /\ toLowerCase (String c s) = String c s
  /\ String c s <> "any"
  /\ hasChar "-" (String c s) = false
  /\ hasChar "," (String c s) = false.
Proof.
  intros H. split; [|split; [|split; [|split]]].
  - apply trim_clean. revert H. apply forallChars_noSpace.
    intros x Hx. now destruct (digit_facts x Hx).
  - apply lowered_fixed. revert H. apply forallChars_impl.
    intros x Hx. now destruct (digit_facts x Hx) as (_ & L & _).
  - cbn [forallChars] in H. apply andb_true_iff in H. destruct H as [H _].
    destruct (digit_facts c H) as (_ & _ & _ & _ & _ & _ & _ & A & _).
    intros [= -> _]. discriminate A.
  - revert H. apply forallChars_hasChar.
    intros x Hx. now destruct (digit_facts x Hx) as (_ & _ & M & _).
  - revert H. apply forallChars_hasChar.
    intros x Hx. now destruct (digit_facts x Hx) as (_ & _ & _ & M & _).
Qed.

(** X20: on the decimal numeral of an integer, [validatePort] accepts
    exactly the ports 1 to 65535, and returns the numeral as it is. *)
Theorem validatePort_accepts_the_ports (n : Z) :
  validatePort (Some (ofZ n)) = Valid (ofZ n) <-> 1 <= n <= 65535.
Proof.
  destruct n as [|p|p].
  - split; [discriminate | lia].
  - assert (D : forallChars isDigit (ofZ (Z.pos p)) = true).
    { unfold ofZ. cbn [Z.to_int NilZero.string_of_int].
      unfold NilZero.string_of_uint.
      destruct (Pos.to_uint p); try apply string_of_uint_digits.
      reflexivity. }
    pose proof (parseInt_numeral p) as P.
    destruct (ofZ (Z.pos p)) as [|c s] eqn:E; [discriminate P|].
    destruct (digits_plain c s D) as (Ht & Hl & Hany & Hd & Hc).
    rewrite validatePort_plain by (assumption || discriminate).
    rewrite P. cbn [isPortNumber].
    destruct (Z.pos p <? 1) eqn:L1; [apply Z.ltb_lt in L1; lia|].
    destruct (65535 <? Z.pos p) eqn:L2; cbn [orb negb].
    + apply Z.ltb_lt in L2. split; [discriminate | lia].
    + apply Z.ltb_ge in L2. split; [lia | reflexivity].
  - split; [|lia]. intros H. exfalso. revert H.
    unfold ofZ. cbn [Z.to_int NilZero.string_of_int].
    set (ds := NilZero.string_of_uint (Pos.to_uint p)).
    assert (D : forallChars isDigit ds = true).
    { unfold ds, NilZero.string_of_uint.
      destruct (Pos.to_uint p); try apply string_of_uint_digits.
      reflexivity. }
    assert (Ht : trim (String "-" ds) = String "-" ds).
    { apply trim_clean. cbn [hasWhiteSpace]. cbn [isWhiteSpace].
      change (isWhiteSpace "-") with false. cbn [orb].
      revert D. apply forallChars_noSpace.
      intros x Hx. now destruct (digit_facts x Hx). }
    assert (Hl : toLowerCase (String "-" ds) = String "-" ds).
    { cbn [toLowerCase]. change (lowerChar "-") with "-"%char. f_equal.
      apply lowered_fixed. revert D. apply forallChars_impl.
      intros x Hx. now destruct (digit_facts x Hx) as (_ & L & _). }
    unfold validatePort. cbn [String.eqb Ascii.eqb Bool.eqb].
    rewrite Ht, Hl. cbn [String.eqb Ascii.eqb Bool.eqb].
    rewrite includes_char. cbn [hasChar Ascii.eqb Bool.eqb orb].
    cbn [split Ascii.eqb Bool.eqb map nth].
    change (parseInt (trim "")) with (@None Z). discriminate.
Qed.

(** X21: [validatePort] reads the leading number only: a valid port
    followed by anything that starts with no digit, has no dash and no
    comma, no capital letter and no white space at its end is accepted,
    and returned with what follows it. *)
Theorem validatePort_ignores_what_follows
        (digits tail : string)
        (Hdigits : forallChars isDigit digits = true)
        (Hvalid : validatePort (Some digits) = Valid digits)
        (Hstart : noLeadingDigit tail = true)
        (Hdash : hasChar "-" tail = false)
        (Hcomma : hasChar "," tail = false)
        (Hlower : forallChars isLowered tail = true)
        (Hend : trimEnd tail = tail) :
  validatePort (Some (digits ++ tail)) = Valid (digits ++ tail).
Proof.
  destruct digits as [|c r]; [discriminate Hvalid|].
  destruct (digits_plain c r Hdigits) as (Ht & Hl & Hany & Hd & Hc).
  rewrite validatePort_plain in Hvalid by (assumption || discriminate).
  destruct (isPortNumber (parseInt (String c r))) eqn:P; [|discriminate].
  pose proof Hdigits as Hc0. cbn [forallChars] in Hc0.
  apply andb_true_iff in Hc0. destruct Hc0 as [Hc0 Hr].
  destruct (digit_facts c Hc0) as (W & _ & _ & _ & _ & _ & _ & A & _).
  assert (PI : parseInt (String c r ++ tail) = parseInt (String c r)).
  { cbn [append]. rewrite !parseInt_decimal; try assumption.
    - change (String c (r ++ tail)) with (String c r ++ tail).
      now apply parseDigits_append.
    - destruct r as [|x r']; [exact I|]. intros _.
      cbn [forallChars] in Hr. apply andb_true_iff in Hr.
      destruct Hr as [Hx _].
      destruct (digit_facts x Hx) as (_ & _ & _ & _ & _ & X1 & X2 & _).
      now rewrite X1, X2.
    - destruct r as [|x r'].
      + cbn [append]. destruct tail as [|y t]; [exact I|].
        intros ->. exfalso. revert P. vm_compute. discriminate.
      + cbn [append]. intros _.
        cbn [forallChars] in Hr. apply andb_true_iff in Hr.
        destruct Hr as [Hx _].
        destruct (digit_facts x Hx) as (_ & _ & _ & _ & _ & X1 & X2 & _).
        now rewrite X1, X2. }
  rewrite validatePort_plain.
  - now rewrite PI, P.
  - discriminate.
  - unfold trim. destruct tail as [|y t].
    + rewrite append_nil_r. exact Ht.
    + rewrite trimEnd_append.
      * rewrite Hend. cbn [append trimStart]. now rewrite W.
      * rewrite Hend. discriminate.
  - rewrite toLowerCase_append, Hl. f_equal. now apply lowered_fixed.
  - cbn [append]. intros [= -> _]. discriminate A.
  - now rewrite hasChar_append, Hd, Hdash.
  - now rewrite hasChar_append, Hc, Hcomma.
Qed.

Lemma validatePort_ignores_what_follows_witness :
  validatePort (Some "80 remoteip=any") = Valid "80 remoteip=any".
Proof.
  apply (validatePort_ignores_what_follows "80" " remoteip=any");
    vm_compute; reflexivity.
Defined.

End FirewallFacts.

(** ** The list of the blocked websites: properties *)

Module BlockedListFacts.

Import JsStr JsStrSpec Blocker BlockerSpec BlockedList BlockedListSpec.
Import StringFacts StringMore BlockerFacts BlockerMore PrefetchMore.
Import FirewallFacts.
Local Open Scope string_scope.

(** *** The order of the strings *)

Lemma ascii_compare_refl (a : ascii) : Ascii.compare a a = Eq.
Proof. unfold Ascii.compare. apply N.compare_refl. Qed.

Lemma compare_lt_trans (a b c : string) :
  String.compare a b = Lt -> String.compare b c = Lt ->
  String.compare a c = Lt.
Proof.
  revert b c. induction a as [|x a IH]; intros [|y b] [|z c]; cbn;
    try discriminate; try reflexivity.
  destruct (Ascii.compare x y) eqn:XY; try discriminate;
    destruct (Ascii.compare y z) eqn:YZ; try discriminate; intros H1 H2.
  - apply Ascii.compare_eq_iff in XY, YZ. subst.
    rewrite ascii_compare_refl. now apply IH with b.
  - apply Ascii.compare_eq_iff in XY. subst. now rewrite YZ.
  - apply Ascii.compare_eq_iff in YZ. subst. now rewrite XY.
  - unfold Ascii.compare in *.
    replace (N_of_ascii x ?= N_of_ascii z)%N with Lt; [reflexivity|].
    symmetry. exact (N.lt_trans _ _ _ XY YZ).
Qed.

Lemma compare_refl (a : string) : String.compare a a = Eq.
Proof.
  induction a as [|x a IH]; cbn; [reflexivity|].
  now rewrite ascii_compare_refl.
Qed.

Lemma ltb_asym (a b : string) :
  String.ltb a b = true -> String.ltb b a = false.
Proof.
  unfold String.ltb. rewrite (String.compare_antisym a b).
  now destruct (String.compare b a).
Qed.

Lemma not_after_trans (a b c : string) :
  String.ltb b a = false -> String.ltb c b = false -> String.ltb c a = false.
Proof.
  unfold String.ltb. intros H1 H2.
  destruct (String.compare c a) eqn:CA; try reflexivity. exfalso.
  destruct (String.compare b a) eqn:BA; try discriminate;
    destruct (String.compare c b) eqn:CB; try discriminate.
  - apply String.compare_eq_iff in BA, CB. subst.
    rewrite compare_refl in CA. discriminate.
  - apply String.compare_eq_iff in BA. subst. congruence.
  - apply String.compare_eq_iff in CB. subst. congruence.
  - rewrite String.compare_antisym in BA, CB.
    destruct (String.compare a b) eqn:AB; try discriminate.
    destruct (String.compare b c) eqn:BC; try discriminate.
    pose proof (compare_lt_trans _ _ _ AB BC) as AC.
    rewrite String.compare_antisym, AC in CA. discriminate.
Qed.

Lemma sortStrings_strict (l : list string) :
  NoDup l -> StronglySorted strictlyBefore (sortStrings l).
Proof.
  intros Hnd. unfold sortStrings.
  assert (Hnd' : NoDup (sortBy (fun a b => String.ltb b a) l))
    by (eapply Permutation_NoDup; [apply sortBy_perm | exact Hnd]).
  pose proof (sortBy_sorted (fun a b => String.ltb b a)
                (fun a b => ltb_asym b a)
                (fun a b c => not_after_trans a b c) l) as Hs.
  induction Hs as [|a r Hr IH Ha]; [constructor|].
  inversion Hnd' as [|? ? Hin Hnd'']; subst.
  constructor; [now apply IH|].
  rewrite Forall_forall in *. intros b Hb. specialize (Ha b Hb).
  unfold before in Ha. unfold strictlyBefore, String.ltb in *.
  rewrite String.compare_antisym in Ha.
  destruct (String.compare a b) eqn:AB; try reflexivity; try discriminate.
  apply String.compare_eq_iff in AB. subst. contradiction.
Qed.

(** *** The set of the domains *)

Lemma setAdd_in (x y : string) (set : list string) :
  In y (setAdd x set) <-> y = x \/ In y set.
Proof.
  unfold setAdd. destruct (existsb (String.eqb x) set) eqn:E.
  - split; [now right|]. intros [->|H]; [|exact H].
    apply existsb_exists in E. destruct E as (z & Hz & Ez).
    apply String.eqb_eq in Ez. now subst.
  - rewrite in_app_iff. cbn. split.
    + intros [H|[<-|[]]]; auto.
    + intros [->|H]; auto.
Qed.

Lemma setAdd_nodup (x : string) (set : list string) :
  NoDup set -> NoDup (setAdd x set).
Proof.
  intros H. unfold setAdd. destruct (existsb (String.eqb x) set) eqn:E;
    [exact H|].
  apply NoDup_app; [exact H | repeat constructor; intros [] |].
  intros y Hy [<-|[]].
  assert (existsb (String.eqb x) set = true); [|congruence].
  apply existsb_exists. exists x. split; [exact Hy | apply String.eqb_refl].
Qed.

Lemma collect_spec (lines set : list string) :
  let result :=
    fold_left
      (fun set line =>
         match blockedDomainOf line with
         | Some domain => setAdd domain set
         | None => set
         end) lines set in
  (NoDup set -> NoDup result)
  /\ forall d, In d result
               <-> In d set
                   \/ exists line, In line lines /\ blockedDomainOf line = Some d.
Proof.
  cbv zeta. revert set. induction lines as [|l r IH]; intros set.
  - cbn. split; [auto|]. intros d. split; [auto|].
    intros [H|(line & [] & _)]. exact H.
  - cbn [fold_left]. destruct (IH (match blockedDomainOf l with
                                   | Some domain => setAdd domain set
                                   | None => set
                                   end)) as [Hn Hi].
    split.
    + intros H. apply Hn. destruct (blockedDomainOf l); [|exact H].
      now apply setAdd_nodup.
    + intros d. rewrite Hi. split.
      * intros [H|(line & Hl & Hd)].
        -- destruct (blockedDomainOf l) as [x|] eqn:B; [|now left].
           apply setAdd_in in H. destruct H as [->|H]; [|now left].
           right. exists l. split; [now left | exact B].
        -- right. exists line. split; [now right | exact Hd].
      * intros [H|(line & [<-|Hl] & Hd)].
        -- left. destruct (blockedDomainOf l); [|exact H].
           apply setAdd_in. now right.
        -- left. rewrite Hd. apply setAdd_in. now left.
        -- right. now exists line.
Qed.

(** *** The domain of a line *)

Lemma lowerChar_space (c : ascii) : isWhiteSpace (lowerChar c) = isWhiteSpace c.
Proof. destruct c as [[] [] [] [] [] [] [] []]; reflexivity. Qed.

Lemma toLowerCase_space (s : string) :
  hasWhiteSpace (toLowerCase s) = hasWhiteSpace s.
Proof.
  induction s as [|c s IH]; [reflexivity|]. cbn [toLowerCase hasWhiteSpace].
  now rewrite lowerChar_space, IH.
Qed.

Lemma noSpace_forall (s : string) :
  hasWhiteSpace s = false ->
  forallChars (fun c => negb (isWhiteSpace c)) s = true.
Proof.
  induction s as [|c s IH]; [reflexivity|]. cbn [hasWhiteSpace forallChars].
  intros H. apply orb_false_iff in H. destruct H as [Hc Hs].
  now rewrite Hc, IH.
Qed.

Lemma substring_forall (p : ascii -> bool) (n m : nat) (s : string) :
  forallChars p s = true -> forallChars p (substring n m s) = true.
Proof.
  revert n m. induction s as [|c s IH]; intros n m H.
  - now destruct n, m.
  - cbn [forallChars] in H. apply andb_true_iff in H. destruct H as [Hc Hs].
    destruct n as [|n]; cbn [substring].
    + destruct m as [|m]; [reflexivity|]. cbn [forallChars].
      now rewrite Hc, IH.
    + now apply IH.
Qed.

Lemma splitSpaces_clean (inSpace : bool) (s piece : string) :
  In piece (splitSpaces inSpace s) -> hasWhiteSpace piece = false.
Proof.
  revert inSpace piece. induction s as [|c s IH]; intros inSpace piece.
  - cbn. now intros [<-|[]].
  - cbn [splitSpaces]. destruct (isWhiteSpace c) eqn:W.
    + destruct inSpace; [apply IH|].
      intros [<-|H]; [reflexivity | now apply IH in H].
    + destruct (splitSpaces false s) as [|h t] eqn:E.
      * intros [<-|[]]. cbn. now rewrite W.
      * intros [<-|H].
        -- cbn [hasWhiteSpace]. rewrite W. apply (IH false). rewrite E.
           now left.
        -- apply (IH false). rewrite E. now right.
Qed.

(** What the loop requires of a line, and what it makes of it. *)
Lemma blockedDomainOf_spec (line d : string) :
  blockedDomainOf line = Some d ->
  d <> "" /\ d <> "localhost" /\ hasChar "." d = true
  /\ hasWhiteSpace d = false /\ toLowerCase d = d
  /\ looksLikeIPv4 d = false.
Proof.
  unfold blockedDomainOf.
  destruct (_ && _ && Nat.ltb 10 _); [|discriminate].
  set (parts := splitSpaces false (trim line)).
  destruct (Nat.leb 2 (List.length parts)) eqn:L; [|discriminate].
  apply Nat.leb_le in L.
  assert (Hw : hasWhiteSpace (nth 1 parts "") = false).
  { apply splitSpaces_clean with (inSpace := false) (s := trim line).
    apply nth_In. fold parts. lia. }
  set (word := toLowerCase (nth 1 parts "")).
  assert (Hw1 : hasWhiteSpace word = false)
    by (unfold word; now rewrite toLowerCase_space).
  assert (Hl1 : forallChars isLowered word = true)
    by apply toLowerCase_lowered.
  set (domain := if startsWith "www." word
                 then substring 4 (String.length word - 4) word else word).
  assert (Hw2 : hasWhiteSpace domain = false).
  { unfold domain. destruct (startsWith "www." word); [|exact Hw1].
    apply forallChars_noSpace
      with (p := fun c => negb (isWhiteSpace c)).
    - intros c Hc. now apply negb_true_iff in Hc.
    - now apply substring_forall, noSpace_forall. }
  assert (Hl2 : forallChars isLowered domain = true).
  { unfold domain. destruct (startsWith "www." word); [|exact Hl1].
    now apply substring_forall. }
  destruct (String.eqb domain "") eqn:E1; [discriminate|].
  destruct (String.eqb domain "localhost") eqn:E2; [discriminate|].
  destruct (includes "." domain) eqn:E3; [|discriminate].
  destruct (looksLikeIPv4 domain) eqn:E4; [discriminate|].
  cbn [negb andb]. intros [= <-].
  apply String.eqb_neq in E1, E2. rewrite includes_char in E3.
  repeat split; try assumption. now apply lowered_fixed.
Qed.

(** X22: [getBlockedWebsites] always resolves, whatever the elevation,
    and changes nothing; after a failed read it reports the failure;
    otherwise its list is in strictly ascending order (so without
    duplicates) and holds exactly the domains the lines of the hosts file
    give, each of them lowered, with a dot and no white space, and
    neither [localhost] nor four numbers with dots. *)
Theorem getBlockedWebsites_lists_each_domain_once (w : World) :
  exists result w',
    getBlockedWebsites w = (Resolve result, w')
    /\ hosts w' = hosts w /\ sameProcess w w'
    /\ match result with
       | ReadFailed _ => fst (fsCall w) <> None
       | Websites websites =>
           fst (fsCall w) = None
           /\ StronglySorted strictlyBefore websites
           /\ (forall d,
                  In d websites
                  <-> exists line,
                      In line (split LF (hosts w))
                      /\ blockedDomainOf line = Some d)
           /\ forall d,
               In d websites ->
               d <> "localhost" /\ hasChar "." d = true
               /\ hasWhiteSpace d = false /\ toLowerCase d = d
               /\ looksLikeIPv4 d = false
       end.
Proof.
  unfold getBlockedWebsites.
  destruct (fsCall_same w) as [Hs Hh].
  destruct (fsCall w) as [[e|] w1] eqn:F; cbn [fst snd] in *.
  - exists (ReadFailed msgReadFailed), w1.
    split; [reflexivity|]. split; [exact Hh|]. split; [exact Hs|].
    discriminate.
  - eexists. exists w1. split; [reflexivity|].
    split; [exact Hh|]. split; [exact Hs|]. rewrite Hh.
    destruct (collect_spec (split LF (hosts w)) []) as [Hn Hi].
    fold (collectDomains (split LF (hosts w))) in Hn, Hi.
    assert (Hmem : forall d,
               In d (sortStrings (collectDomains (split LF (hosts w))))
               <-> exists line,
                   In line (split LF (hosts w))
                   /\ blockedDomainOf line = Some d).
    { intros d. split.
      - intros H.
        apply Permutation_in
          with (l' := collectDomains (split LF (hosts w))) in H;
          [|apply Permutation_sym, sortBy_perm].
        apply Hi in H. destruct H as [[]|H]. exact H.
      - intros H. apply Permutation_in
          with (l := collectDomains (split LF (hosts w)));
          [apply sortBy_perm|].
        apply Hi. now right. }
    split; [reflexivity|]. split; [|split; [exact Hmem|]].
    + apply sortStrings_strict, Hn. constructor.
    + intros d Hd. apply Hmem in Hd. destruct Hd as (line & _ & Hd).
      apply blockedDomainOf_spec in Hd. tauto.
Qed.

(** *** The list and the blocking functions *)

Lemma splitSpaces_piece (inSpace : bool) (s : string) :
  hasWhiteSpace s = false -> splitSpaces inSpace s = [s].
Proof.
  revert inSpace. induction s as [|c s IH]; intros inSpace; [reflexivity|].
  cbn [hasWhiteSpace splitSpaces].
  intros H. apply orb_false_iff in H. destruct H as [Hc Hs].
  now rewrite Hc, (IH false Hs).
Qed.

Lemma splitSpaces_words (a b : string) :
  hasWhiteSpace a = false -> hasWhiteSpace b = false ->
  splitSpaces false (a ++ String " " b) = [a; b].
Proof.
  intros Ha Hb. induction a as [|c a IH].
  - cbn [append splitSpaces]. change (isWhiteSpace " ") with true.
    cbn iota. now rewrite splitSpaces_piece.
  - cbn [hasWhiteSpace] in Ha. apply orb_false_iff in Ha.
    destruct Ha as [Hc Ha]. cbn [append splitSpaces].
    now rewrite Hc, (IH Ha).
Qed.

Lemma listable_spec (d : string) :
  listable d = true ->
  includes "." d = true /\ hasWhiteSpace d = false
  /\ startsWith "www." d = false /\ String.eqb d "localhost" = false
  /\ looksLikeIPv4 d = false /\ d <> "".
Proof.
  unfold listable. intros H.
  repeat (apply andb_true_iff in H; destruct H as [H ?]).
  repeat match goal with
         | X : negb _ = true |- _ => apply negb_true_iff in X
         end.
  repeat split; try assumption.
  intros ->. discriminate H.
Qed.

(** The domain a binding line of [blockWebsite] adds to the list. *)
Lemma blockedDomainOf_binding (ip host d : string) :
  ip = "127.0.0.1" \/ ip = "0.0.0.0" ->
  host = d \/ host = "www." ++ d ->
  listable d = true -> toLowerCase d = d ->
  blockedDomainOf (ip ++ String " " host)
  = if Nat.ltb 10 (String.length (ip ++ String " " host))
    then Some d else None.
Proof.
  intros Hip Hhost Hl Hlow.
  destruct (listable_spec d Hl) as (Hdot & Hws & Hwww & Hloc & Hnum & Hne).
  assert (Hhw : hasWhiteSpace host = false)
    by (destruct Hhost as [->| ->]; [exact Hws | exact Hws]).
  assert (Hhne : host <> "")
    by (destruct Hhost as [->| ->]; [exact Hne | discriminate]).
  assert (Hhl : toLowerCase host = host).
  { destruct Hhost as [->| ->]; [exact Hlow|].
    cbn [append toLowerCase]. now rewrite Hlow. }
  assert (Hstrip : (if startsWith "www." host
                    then substring 4 (String.length host - 4) host
                    else host) = d).
  { destruct Hhost as [->| ->]; [now rewrite Hwww|].
    change (startsWith "www." ("www." ++ d)) with true. cbn iota.
    cbn [append String.length Nat.sub substring].
    rewrite Nat.sub_0_r. apply substring_whole. }
  assert (Hip' : hasWhiteSpace ip = false)
    by (destruct Hip as [->| ->]; reflexivity).
  unfold blockedDomainOf.
  assert (T : trim (ip ++ String " " host) = ip ++ String " " host).
  { destruct Hip as [->| ->]; cbn [append];
      repeat match goal with
      | |- context [String ?c (String " " host)] =>
          change (String c (String " " host))
            with (String c " " ++ host)
      end.
    - apply (trim_binding "1" ("27.0.0.1 ")); [reflexivity | assumption..].
    - apply (trim_binding "0" (".0.0.0 ")); [reflexivity | assumption..]. }
  rewrite T.
  assert (S1 : (startsWith "127.0.0.1 " (ip ++ String " " host)
                || startsWith "0.0.0.0 " (ip ++ String " " host))
               && negb (startsWith "#" (ip ++ String " " host)) = true)
    by (destruct Hip as [->| ->]; reflexivity).
  rewrite S1. cbn [andb].
  destruct (Nat.ltb 10 (String.length (ip ++ String " " host)));
    [|reflexivity].
  rewrite splitSpaces_words by assumption.
  cbn [List.length Nat.leb nth]. rewrite Hhl, Hstrip.
  apply String.eqb_neq in Hne. now rewrite Hne, Hloc, Hdot, Hnum.
Qed.

Lemma guarded_some (b : bool) (d x : string) :
  (if b then Some d else None) = Some x -> x = d.
Proof. destruct b; [now intros [= ->] | discriminate]. Qed.

Lemma fold_collect (lines set : list string) (x : string) :
  In x (fold_left
          (fun set line =>
             match blockedDomainOf line with
             | Some domain => setAdd domain set
             | None => set
             end) lines set)
  <-> In x set
      \/ exists line, In line lines /\ blockedDomainOf line = Some x.
Proof. apply (collect_spec lines set). Qed.

Lemma collectDomains_app (a b : list string) (x : string) :
  In x (collectDomains (a ++ b))
  <-> In x (collectDomains a)
      \/ exists line, In line b /\ blockedDomainOf line = Some x.
Proof.
  unfold collectDomains. rewrite fold_left_app. apply fold_collect.
Qed.

(** The list of a process whose file system does not fail. *)
Lemma websitesOf_healthy (w : World) :
  healthy w ->
  websitesOf (getBlockedWebsites w)
  = sortStrings (collectDomains (split LF (hosts w))).
Proof.
  intros H. destruct (fsCall_healthy w H) as (Hr & _ & Hh & _).
  unfold websitesOf, getBlockedWebsites.
  destruct (fsCall w) as [e w1]. cbn [fst snd] in *. subst e.
  cbn [fst]. now rewrite Hh.
Qed.

Lemma sortStrings_in (l : list string) (x : string) :
  In x (sortStrings l) <-> In x l.
Proof.
  split; apply Permutation_in;
    [apply Permutation_sym|]; apply sortBy_perm.
Qed.

(** X23: on an elevated process whose file system does not fail, once
    [blockWebsite] has written the bindings of a domain that can be
    listed, [getBlockedWebsites] lists that domain, once, beside exactly
    the websites it listed before. *)
Theorem blocked_website_joins_the_list
        (w : World) (websiteUrl : string)
        (Hadmin : isRunningAsAdmin w = true)
        (Hfs : healthy w)
        (Hlist : listable (cleanUrlOf websiteUrl) = true)
        (Habs : includes (cleanUrlOf websiteUrl) (hosts w) = false) :
  let domain := cleanUrlOf websiteUrl in
  exists w1,
    blockWebsite websiteUrl w = (Resolve (msgBlocked domain), w1)
    /\ forall x,
        In x (websitesOf (getBlockedWebsites w1))
        <-> x = domain \/ In x (websitesOf (getBlockedWebsites w)).
Proof.
  cbv zeta. set (domain := cleanUrlOf websiteUrl) in *.
  destruct (listable_spec domain Hlist)
    as (Hdot & Hws & Hwww & Hloc & Hnum & Hne).
  rewrite (blockWebsite_healthy w websiteUrl Hadmin Hfs Hne). fold domain.
  rewrite (includes_suffix "127.0.0.1 " _ _ Habs).
  change ("127.0.0.1 " ++ "www." ++ domain) with ("127.0.0.1 www." ++ domain).
  rewrite (includes_suffix "127.0.0.1 www." _ _ Habs). cbn [orb].
  pose proof (fsCall_healthy w Hfs) as (_ & Hh1 & _).
  pose proof (fsCall_healthy (snd (fsCall w)) Hh1) as (_ & Hh2 & _).
  eexists. split; [reflexivity|]. intros x.
  rewrite !websitesOf_healthy by assumption. rewrite !sortStrings_in.
  wsimpl. rewrite lines_after_block by now apply hasWhiteSpace_LF.
  rewrite collectDomains_app.
  assert (Hlow : toLowerCase domain = domain)
    by apply lowered_fixed, cleanUrlOf_lowered.
  pose proof (blockedDomainOf_binding "127.0.0.1" domain domain
                (or_introl eq_refl) (or_introl eq_refl) Hlist Hlow) as B1.
  pose proof (blockedDomainOf_binding "127.0.0.1" ("www." ++ domain) domain
                (or_introl eq_refl) (or_intror eq_refl) Hlist Hlow) as B2.
  pose proof (blockedDomainOf_binding "0.0.0.0" domain domain
                (or_intror eq_refl) (or_introl eq_refl) Hlist Hlow) as B3.
  pose proof (blockedDomainOf_binding "0.0.0.0" ("www." ++ domain) domain
                (or_intror eq_refl) (or_intror eq_refl) Hlist Hlow) as B4.
  cbn [append] in B1, B2, B3, B4.
  assert (L1 : Nat.ltb 10 (String.length ("127.0.0.1 " ++ domain)) = true).
  { apply Nat.ltb_lt. cbn [append String.length].
    destruct domain; [contradiction | cbn [String.length]; lia]. }
  cbn [append] in L1. rewrite L1 in B1.
  split.
  - intros [H|(line & Hin & Hd)]; [now right|]. left.
    cbn [In append] in Hin.
    destruct Hin as [<-|[<-|[<-|[<-|[<-|[<-|[]]]]]]].
    + discriminate Hd.
    + rewrite B1 in Hd. now injection Hd.
    + rewrite B2 in Hd. now apply guarded_some in Hd.
    + rewrite B3 in Hd. now apply guarded_some in Hd.
    + rewrite B4 in Hd. now apply guarded_some in Hd.
    + discriminate Hd.
  - intros [->|H]; [|now left]. right.
    exists ("127.0.0.1 " ++ domain). split; [|exact B1].
    cbn [In append]. right. now left.
Qed.

Lemma blocked_website_joins_the_list_witness :
  exists w1,
    blockWebsite "https://www.Example.com/page" freshWorld
    = (Resolve (msgBlocked "example.com"), w1)
    /\ forall x,
        In x (websitesOf (getBlockedWebsites w1))
        <-> x = "example.com" \/ In x (websitesOf (getBlockedWebsites freshWorld)).
Proof.
  apply (blocked_website_joins_the_list freshWorld
           "https://www.Example.com/page"); try reflexivity.
  constructor.
Defined.

(** X24: under the conditions of a block that is followed by its
    unblock, the list of the blocked websites is afterwards what it was
    before the block: the comment line the pair leaves behind adds no
    website. *)
Theorem block_then_unblock_restores_the_list
        (w : World) (websiteUrl : string)
        (Hadmin : isRunningAsAdmin w = true)
        (Hfs : healthy w)
        (Hurl : cleanUrlOf websiteUrl <> "")
        (Hws : hasWhiteSpace (cleanUrlOf websiteUrl) = false)
        (Habs : includes (cleanUrlOf websiteUrl) (hosts w) = false)
        (Hdeep : includes "Student Mode Deep Block" (hosts w) = false)
        (Htimer : mapGet (cleanUrlOf websiteUrl) (timers w) = None) :
  exists m1 m2 w1 w2,
    blockWebsite websiteUrl w = (Resolve m1, w1)
    /\ unblockWebsite websiteUrl w1 = (Resolve m2, w2)
    /\ websitesOf (getBlockedWebsites w2)
       = websitesOf (getBlockedWebsites w).
Proof.
  destruct (block_unblock_trace w websiteUrl Hadmin Hfs Hurl Hws Habs
              Hdeep Htimer) as (w1 & w2 & Hb & Hu & Hh & _ & Hh2 & _).
  do 2 eexists. exists w1, w2. split; [exact Hb|]. split; [exact Hu|].
  rewrite !websitesOf_healthy by assumption. rewrite Hh. f_equal.
  change (hosts w ++ nl ++ markerLine ++ nl)
    with (hosts w ++ String LF (markerLine ++ String LF "")).
  rewrite split_append.
  change (split LF (markerLine ++ String LF ""))
    with [markerLine; ""].
  unfold collectDomains. rewrite fold_left_app. reflexivity.
Qed.

Lemma block_then_unblock_restores_the_list_witness :
  exists m1 m2 w1 w2,
    blockWebsite "x.com" freshWorld = (Resolve m1, w1)
    /\ unblockWebsite "x.com" w1 = (Resolve m2, w2)
    /\ websitesOf (getBlockedWebsites w2)
       = websitesOf (getBlockedWebsites freshWorld).
Proof.
  apply (block_then_unblock_restores_the_list freshWorld "x.com");
    try reflexivity.
  - constructor.
  - vm_compute. discriminate.
Defined.

End BlockedListFacts.

(** ** The commands of the firewall rules: properties *)

Module FirewallRulesFacts.

Import JsStr JsStrSpec Firewall FirewallSpec FirewallRules FirewallRulesSpec.
Import StringFacts StringMore FirewallFacts.
Local Open Scope string_scope.

Lemma exec_log (command : string) (sh : Shell) :
  commands (snd (exec command sh)) = (commands sh ++ [command])%list
  /\ elevated (snd (exec command sh)) = elevated sh.
Proof. unfold exec. now destruct (replies sh). Qed.

Lemma sanitizeInput_harmless (input : option string) :
  forallChars isHarmless (sanitizeInput input) = true.
Proof.
  destruct input as [s|]; [|reflexivity].
  apply trim_forall, removeDangerous_harmless.
Qed.

Lemma validateRuleName_harmless (name : option string) (ruleName : string) :
  validateRuleName name = Valid ruleName ->
  forallChars isHarmless ruleName = true.
Proof.
  unfold validateRuleName.
  destruct (String.eqb _ ""); [discriminate|].
  destruct (Nat.ltb 255 _); [discriminate|].
  intros [= <-]. apply sanitizeInput_harmless.
Qed.

Lemma validateIP_harmless (ip : option string) (address : string) :
  validateIP ip = Valid address -> forallChars isHarmless address = true.
Proof.
  unfold validateIP. destruct (ipRegexTest _); [|discriminate].
  intros [= <-]. apply sanitizeInput_harmless.
Qed.

Lemma lowerChar_harmless (c : ascii) :
  isHarmless c = true -> isHarmless (lowerChar c) = true.
Proof. destruct c as [[] [] [] [] [] [] [] []]; vm_compute; congruence. Qed.

Lemma toLowerCase_harmless (s : string) :
  forallChars isHarmless s = true ->
  forallChars isHarmless (toLowerCase s) = true.
Proof.
  induction s as [|c s IH]; [reflexivity|]. cbn [forallChars toLowerCase].
  intros H. apply andb_true_iff in H. destruct H as [Hc Hs].
  now rewrite (lowerChar_harmless c Hc), IH.
Qed.

(** [validatePort] returns its argument trimmed and lowered. *)
Lemma validatePort_value (port : option string) (value : string) :
  validatePort port = Valid value ->
  exists p, port = Some p /\ value = toLowerCase (trim p).
Proof.
  destruct port as [p|]; [|discriminate]. cbn [validatePort].
  destruct (String.eqb p ""); [discriminate|].
  intros H. exists p. split; [reflexivity|]. revert H.
  set (t := toLowerCase (trim p)).
  destruct (String.eqb t "any"); [now intros [= <-]|].
  destruct (includes "-" t).
  - destruct (parseInt _) as [a|]; [|discriminate].
    destruct (parseInt _) as [b|]; [|discriminate].
    destruct (_ || _); [discriminate | now intros [= <-]].
  - destruct (includes "," t).
    + destruct (find _ _); [discriminate | now intros [= <-]].
    + destruct (isPortNumber _); [now intros [= <-] | discriminate].
Qed.

Lemma validatePort_harmless (p value : string) :
  forallChars isHarmless p = true ->
  validatePort (Some p) = Valid value ->
  forallChars isHarmless value = true.
Proof.
  intros Hp H. apply validatePort_value in H.
  destruct H as (q & [= <-] & ->).
  now apply toLowerCase_harmless, trim_forall.
Qed.

Lemma given_some (field : option string) (s : string) :
  given field = Some s -> field = Some s.
Proof.
  destruct field as [x|]; [|discriminate]. cbn.
  destruct (String.eqb (trim x) ""); [discriminate | now intros [= <-]].
Qed.

Lemma pick_harmless (b : bool) (x y : string) :
  forallChars isHarmless x = true -> forallChars isHarmless y = true ->
  forallChars isHarmless (if b then x else y) = true.
Proof. now destruct b. Qed.

Lemma extend_harmless (c k v : string) :
  forallChars isHarmless c = true -> forallChars isHarmless k = true ->
  forallChars isHarmless v = true ->
  forallChars isHarmless (c ++ k ++ v) = true.
Proof. intros Hc Hk Hv. now rewrite !forallChars_append, Hc, Hk, Hv. Qed.

(** X25: the command [addFirewallRule] builds holds none of the
    characters [& | ; $ ` \ < >], whatever the name, the program, the
    address and the other fields hold, as long as the two port fields
    hold none: the ports are the only fields that reach the command line
    without passing [sanitizeInput]. *)
Theorem addCommand_is_harmless
        (ruleData : RuleData) (command : string)
        (Hlocal : harmlessField (rd_localPort ruleData) = true)
        (Hremote : harmlessField (rd_remotePort ruleData) = true)
        (Hcommand : addCommand ruleData = Valid command) :
  forallChars isHarmless command = true.
Proof.
  revert Hcommand. unfold addCommand.
  destruct (validateRuleName (rd_name ruleData)) as [ruleName|m] eqn:N;
    [|discriminate].
  apply validateRuleName_harmless in N.
  set (action := if fieldIs "allow" _ then "allow" else "block").
  set (direction := if fieldIs "out" _ then "out" else "in").
  set (protocol := if fieldIs "tcp" _ then "tcp"
                   else if fieldIs "udp" _ then "udp" else "any").
  assert (Ha : forallChars isHarmless action = true)
    by (apply pick_harmless; reflexivity).
  assert (Hd : forallChars isHarmless direction = true)
    by (apply pick_harmless; reflexivity).
  assert (Hp : forallChars isHarmless protocol = true)
    by (repeat apply pick_harmless; reflexivity).
  set (base := "netsh advfirewall firewall add rule name=" ++ dq ++ ruleName
                 ++ dq ++ " action=" ++ action ++ " dir=" ++ direction
                 ++ " protocol=" ++ protocol).
  assert (Hb : forallChars isHarmless base = true).
  { unfold base. rewrite !forallChars_append, N, Ha, Hd, Hp. reflexivity. }
  set (c1 := match given (rd_program ruleData) with
             | Some p =>
                 if String.eqb (sanitizeInput (Some p)) "" then base
                 else base ++ " program=" ++ dq ++ sanitizeInput (Some p) ++ dq
             | None => base
             end).
  assert (H1 : forallChars isHarmless c1 = true).
  { unfold c1. destruct (given (rd_program ruleData)) as [p|]; [|exact Hb].
    destruct (String.eqb _ ""); [exact Hb|].
    rewrite !forallChars_append, Hb, (sanitizeInput_harmless (Some p)).
    reflexivity. }
  clearbody c1.
  set (c2 := match given (rd_localPort ruleData) with
             | Some p =>
                 match validatePort (Some p) with
                 | Valid validatedPort =>
                     Valid (c1 ++ " localport=" ++ validatedPort)
                 | Invalid m => Invalid ("Local port error: " ++ m)
                 end
             | None => Valid c1
             end).
  assert (H2 : forall c, c2 = Valid c -> forallChars isHarmless c = true).
  { unfold c2. intros c.
    destruct (given (rd_localPort ruleData)) as [lp|] eqn:G;
      [|now intros [= <-]].
    apply given_some in G. rewrite G in Hlocal. cbn in Hlocal.
    destruct (validatePort (Some lp)) as [v|] eqn:V; [|discriminate].
    apply (validatePort_harmless lp v Hlocal) in V. intros E.
    injection E as <-.
    exact (extend_harmless c1 " localport=" v H1 eq_refl V). }
  clearbody c2. destruct c2 as [c2|]; [|discriminate].
  specialize (H2 c2 eq_refl).
  set (c3 := match given (rd_remotePort ruleData) with
             | Some p =>
                 match validatePort (Some p) with
                 | Valid validatedPort =>
                     Valid (c2 ++ " remoteport=" ++ validatedPort)
                 | Invalid m => Invalid ("Remote port error: " ++ m)
                 end
             | None => Valid c2
             end).
  assert (H3 : forall c, c3 = Valid c -> forallChars isHarmless c = true).
  { unfold c3. intros c.
    destruct (given (rd_remotePort ruleData)) as [rp|] eqn:G;
      [|now intros [= <-]].
    apply given_some in G. rewrite G in Hremote. cbn in Hremote.
    destruct (validatePort (Some rp)) as [v|] eqn:V; [|discriminate].
    apply (validatePort_harmless rp v Hremote) in V. intros E.
    injection E as <-.
    exact (extend_harmless c2 " remoteport=" v H2 eq_refl V). }
  clearbody c3. destruct c3 as [c3|]; [|discriminate].
  specialize (H3 c3 eq_refl).
  destruct (given (rd_remoteIP ruleData)) as [ip|]; [|now intros [= <-]].
  destruct (validateIP (Some ip)) as [a|] eqn:I; [|discriminate].
  apply validateIP_harmless in I. intros E. injection E as <-.
  exact (extend_harmless c3 " remoteip=" a H3 eq_refl I).
Qed.

Lemma addCommand_is_harmless_witness :
  forallChars isHarmless
    ("netsh advfirewall firewall add rule name=" ++ dq ++ "Block  calc" ++ dq
       ++ " action=block dir=out protocol=tcp program=" ++ dq
       ++ "C:WindowsSystem32calc.exe" ++ dq
       ++ " localport=80,443 remoteip=10.0.0.0/8") = true.
Proof.
  apply (addCommand_is_harmless
           (mkRuleData (Some "Block & calc |") (Some "deny") (Some "out")
              (Some "tcp") (Some "C:\Windows\System32\calc.exe")
              (Some "80,443") None (Some " 10.0.0.0/8; ")));
    vm_compute; reflexivity.
Defined.

(** *** The commands that are run *)

Lemma removeFirewallRule_log (ruleName : string) (sh : Shell) :
  elevated sh = true ->
  commands (snd (removeFirewallRule ruleName sh))
  = (commands sh ++ [removeCommand ruleName])%list
  /\ elevated (snd (removeFirewallRule ruleName sh)) = true.
Proof.
  intros He. unfold removeFirewallRule. rewrite He. cbn [negb].
  destruct (exec_log (removeCommand ruleName) sh) as [Hc Hel].
  destruct (exec (removeCommand ruleName) sh) as [reply sh1].
  cbn [snd] in Hc, Hel. rewrite He in Hel.
  destruct (error reply); [now split|].
  destruct (_ || _); [now split|].
  destruct (includes "No rules match" _); now split.
Qed.

Lemma addFirewallRule_log (ruleData : RuleData) (sh : Shell) :
  elevated sh = true ->
  commands (snd (addFirewallRule ruleData sh))
  = (commands sh
       ++ match addCommand ruleData with
          | Valid command => [command]
          | Invalid _ => []
          end)%list
  /\ match addCommand ruleData with
     | Valid _ => True
     | Invalid m => fst (addFirewallRule ruleData sh) = Reject m
     end.
Proof.
  intros He. unfold addFirewallRule. rewrite He. cbn [negb].
  destruct (addCommand ruleData) as [command|m].
  - destruct (exec_log command sh) as [Hc _].
    destruct (exec command sh) as [reply sh1]. cbn [snd] in Hc.
    destruct (error reply); [now split|].
    destruct (_ || _); now split.
  - cbn [snd fst]. now rewrite app_nil_r.
Qed.

(** X26: on an elevated process [editFirewallRule] runs the deletion of
    the old rule before it looks at the new one, and settles as the
    addition does whatever the deletion answered: when the new rule is
    refused by the validation, the promise rejects and the deletion is
    the only command that was run. *)
Theorem editFirewallRule_deletes_before_it_validates
        (oldRuleName : string) (newRuleData : RuleData) (sh : Shell)
        (Helevated : elevated sh = true) :
  let removal := removeFirewallRule oldRuleName sh in
  let addition := addFirewallRule newRuleData (snd removal) in
  exists settled sh',
    editFirewallRule oldRuleName newRuleData sh = (settled, sh')
    /\ sh' = snd addition
    /\ isResolved settled = isResolved (fst addition)
    /\ (exists rest,
           commands sh'
           = (commands sh ++ removeCommand oldRuleName :: rest)%list)
    /\ forall m,
        addCommand newRuleData = Invalid m ->
        settled = Reject ("Failed to add updated rule: " ++ m)
        /\ commands sh' = (commands sh ++ [removeCommand oldRuleName])%list.
Proof.
  cbv zeta. unfold editFirewallRule. rewrite Helevated. cbn [negb].
  destruct (removeFirewallRule_log oldRuleName sh Helevated) as [Hc He].
  destruct (removeFirewallRule oldRuleName sh) as [removed sh1].
  cbn [snd] in *.
  destruct (addFirewallRule_log newRuleData sh1 He) as [Hc2 Hm].
  destruct (addFirewallRule newRuleData sh1) as [[v|m0] sh2];
    cbn [fst snd] in *.
  - eexists. exists sh2. split; [reflexivity|]. split; [reflexivity|].
    split; [reflexivity|]. split.
    + rewrite Hc2, Hc, <- app_assoc. now eexists.
    + intros m E. rewrite E in Hm. discriminate Hm.
  - eexists. exists sh2. split; [reflexivity|]. split; [reflexivity|].
    split; [reflexivity|]. split.
    + rewrite Hc2, Hc, <- app_assoc. now eexists.
    + intros m E. rewrite E in Hm, Hc2. injection Hm as ->.
      split; [reflexivity|]. now rewrite Hc2, Hc, app_nil_r.
Qed.

(** An edit whose new name is empty, on a system that deletes the rule. *)
Lemma editFirewallRule_deletes_before_it_validates_witness :
  exists settled sh',
    editFirewallRule "Old rule"
      (mkRuleData (Some " ") None None None None None None None)
      (mkShell true [mkExecResult None "Deleted 1 rule(s)." ""] [])
    = (settled, sh')
    /\ isResolved settled = false
    /\ commands sh' = [removeCommand "Old rule"].
Proof.
  destruct (editFirewallRule_deletes_before_it_validates "Old rule"
              (mkRuleData (Some " ") None None None None None None None)
              (mkShell true [mkExecResult None "Deleted 1 rule(s)." ""] [])
              eq_refl) as (settled & sh' & H1 & _ & _ & _ & H5).
  exists settled, sh'. split; [exact H1|].
  destruct (H5 "Rule name cannot be empty" eq_refl) as [-> H6].
  split; [reflexivity | exact H6].
Defined.

(** X27: [killProcess] hands to the shell nothing of [pid] but the
    number [parseInt] reads in it: it runs no command unless that number
    is positive, and then exactly one, [taskkill /F /PID] followed by
    the number, which below 2^53 is written with decimal digits only. *)
Theorem killProcess_runs_taskkill_on_a_number
        (bigNumber : Z -> string) (pid : string) (sh : Shell) :
  let settled := fst (killProcess bigNumber pid sh) in
  let sh' := snd (killProcess bigNumber pid sh) in
  (settled = Reject "Invalid process ID" /\ sh' = sh
   /\ forall n, parseInt pid = Some n -> (n <= 0)%Z)
  \/ exists n,
      parseInt pid = Some n /\ (0 < n)%Z
      /\ commands sh'
         = (commands sh
              ++ [("taskkill /F /PID " ++ numberText bigNumber n)%string])%list
      /\ ((n < 2 ^ 53)%Z ->
          numberText bigNumber n = ofZ n
          /\ forallChars isDigit (ofZ n) = true).
Proof.
  cbv zeta. unfold killProcess.
  destruct (parseInt pid) as [n|]; [|left; now repeat split].
  destruct (n <=? 0)%Z eqn:L.
  - apply Z.leb_le in L. left. repeat split. now intros ? [= <-].
  - apply Z.leb_gt in L. right. exists n.
    split; [reflexivity|]. split; [exact L|]. split.
    + destruct (exec_log ("taskkill /F /PID " ++ numberText bigNumber n) sh)
        as [Hc _].
      destruct (exec _ sh) as [reply sh1]. cbn [snd] in Hc.
      destruct (error reply) as [m|].
      * destruct (_ || _); [exact Hc|]. destruct (_ || _); exact Hc.
      * destruct (_ || _); [exact Hc|]. destruct (_ && _); exact Hc.
    + intros Hn. unfold numberText.
      apply Z.ltb_lt in Hn. rewrite Hn. split; [reflexivity|].
      destruct n as [|p|p]; try lia.
      unfold ofZ. cbn [Z.to_int NilZero.string_of_int].
      unfold NilZero.string_of_uint.
      destruct (Pos.to_uint p); try apply string_of_uint_digits.
      reflexivity.
Qed.

End FirewallRulesFacts.

(** ** The parser of the renderer: properties *)

Module RendererParserFacts.

Import JsStr JsDate Prefetch PrefetchSpec RendererParser PrefetchFacts.
Local Open Scope Z_scope.





End RendererParserFacts.

(** ** The model on sample inputs *)

Module Examples.

Import Blocker JsDate Prefetch.
Local Open Scope Z_scope.
Local Open Scope string_scope.

Example trim_sample : trim "  a b  " = "a b".
Proof. reflexivity. Qed.

Example split_samples :
  split "/" "a/b" = ["a"; "b"] /\ split "/" "" = [""]
  /\ split "/" "a/" = ["a"; ""].
Proof. repeat split. Qed.

Example cleanUrlOf_samples :
  cleanUrlOf "https://www.Example.com/x" = "example.com"
  /\ cleanUrlOf "  HTTP://example.com  " = "example.com"
  /\ cleanUrlOf "www.www.a.com" = "www.a.com"
  /\ cleanUrlOf "https://" = "".
Proof. repeat split. Qed.

Example formatTimeRemaining_samples :
  formatTimeRemaining 86400000 = "1d 0h 0m 0s"
  /\ formatTimeRemaining 3661000 = "1h 1m 1s"
  /\ formatTimeRemaining 61999 = "1m 1s"
  /\ formatTimeRemaining 5000 = "5s"
  /\ formatTimeRemaining (-1) = "-1s".
Proof. repeat split. Qed.

Example parseDuration_samples :
  parseDuration "10sec" = 10000 /\ parseDuration "7d" = 604800000
  /\ parseDuration "1h" = 0.
Proof. repeat split. Qed.

(** The hosts file after the first block of x.com. *)
Example blockWebsite_sample :
  split LF (hosts (snd (blockWebsite "x.com" freshWorld)))
  = [ ""; "# # Blocked by Technician App"; "127.0.0.1 x.com";
      "127.0.0.1 www.x.com"; "0.0.0.0 x.com"; "0.0.0.0 www.x.com"; "" ].
Proof. reflexivity. Qed.

(** After the basic block the deep block finds the domain in the hosts
    file and adds nothing. *)
Example blockWebsiteDeep_sample :
  blockWebsiteDeep "x.com" freshWorld
  = (Resolve (msgDeepBlocked "x.com"),
     fold_left (fun acc c => exec c acc) dnsCommands
               (snd (blockWebsite "x.com" freshWorld))).
Proof. vm_compute. reflexivity. Qed.

(** A timer stored under a URL that is not canonical does expire: the
    guard looks up another key. *)
Example expiry_of_raw_url_sample :
  let started :=
    blockWebsiteStudentMode "https://www.example.com/x" "10sec" freshWorld in
  let after := fireTimeout 0 (elapse 10000 (snd started)) in
  includes "example.com" (hosts after) = false
  /\ timers after = []
  /\ map s_window (sent after) = [1%nat; 2%nat].
Proof. vm_compute. repeat split. Qed.

Example YearFromTime_samples :
  YearFromTime 0 = 1970 /\ YearFromTime (-1) = 1969
  /\ YearFromTime 951782400000 = 2000
  /\ YearFromTime 2556143999999 = 2050 /\ YearFromTime 2556144000000 = 2051.
Proof. repeat split. Qed.

Example windowsFileTimeToDate_samples :
  windowsFileTimeToDate (fun _ => 0) 132444736000000000 = Some 1600000000000
  /\ windowsFileTimeToDate (fun _ => 0) 0 = None
  /\ windowsFileTimeToDate (fun _ => 0) 18446744073709551615 = None.
Proof. repeat split. Qed.

Example fileName_samples :
  executableNameOf "CHROME.EXE-1A2B3C4D.pf" = "CHROME.EXE"
  /\ hashMatch "CHROME.EXE-1A2B3C4D.pf" = Some "1A2B3C4D"
  /\ executableNameOf "notes.PF" = "notes"
  /\ hashMatch "notes.PF" = None
  /\ formatExecutableName "MY_APP-X.EXE" = "My App X".
Proof. repeat split. Qed.

(** A header of four bytes: the read of the run count throws and the
    fallback of the [catch] block is returned. *)
Example parsePrefetchFileBuffer_sample :
  match parsePrefetchFileBuffer utcEnv headerOnly "A.EXE-0000000A.pf"
          (Some (mkStats None (Some 1600000000000))) with
  | Ret (Some r) =>
      runCount r = 1 /\ lastRunTimes r = [1600000000000]
      /\ version r = 17 /\ hash r = "0000000A" /\ executableName r = "A"
  | _ => False
  end.
Proof. vm_compute. repeat split. Qed.

(** Three bytes cannot hold the version: [null]; a missing [fileStats]
    makes the fallback throw as well: [null]. *)
Example parsePrefetchFileBuffer_null_samples :
  parsePrefetchFileBuffer utcEnv [Byte.x11; Byte.x00; Byte.x00] "a.pf"
    (Some (mkStats None None)) = Ret None
  /\ parsePrefetchFileBuffer utcEnv headerOnly "a.pf" None = Ret None.
Proof. repeat split. Qed.

End Examples.
